(** * Verification of the marketplace validators

    A shallow embedding of the two validation scripts of the repository,

    - [scripts/validate-plugin-schema.py]   (class [PluginValidator]), and
    - [scripts/validate-marketplace-sync.py] (class [MarketplaceSyncValidator]),

    together with the properties their specification states about them.

    Conventions of the embedding:

    - a Python [str] is the list of its Unicode code points ([list N]);
    - [self.errors] and [self.warnings] are lists of [str], appended to in
      program order; [self.validated_plugins] is a finite set;
    - methods that mutate [self] are computations in a state-and-exception
      monad [M]; an exception that no [except] clause catches ends the
      computation with [Raised];
    - the file system is a tree of named nodes; what [json.load] returns (or
      raises) for a file is part of the file;
    - [print] and the GitHub annotation helpers ([github_error],
      [github_warning]) only write to standard output and are left out: no
      property below observes standard output;
    - the schema validator passes
      [str(path.relative_to(self.plugins_dir.parent))] to [github_error],
      and Python evaluates this argument whether or not anything is
      printed. It returns for every path below the plugins directory and
      raises [ValueError] for a path outside the parent of the plugins
      directory. A plugin directory is, as in the specification, a
      directory [plugins_dir / name] of the validator's plugins directory;
      the embedding is that of the methods on a plugin directory and on
      what lies below it, where the call returns
      ([plugin_paths_below_plugins_dir]), and it is left out with the
      helper. Where a property says that one of these methods returns or
      raises in given cases and in no other, its statement names the
      plugins directory ([plugin_dirs]). *)

From Stdlib Require Import String Ascii.
From stdpp Require Import base numbers option list sorting gmap.

Set Default Proof Using "Type".
Set Warnings "-register-all,-clear-no-such-hyp".

(** ** Python strings *)

Module Py.

Abbreviation char := N (only parsing).
Abbreviation str := (list N) (only parsing).

(** The [str] whose characters are those of an ASCII literal. *)
Definition py (s : string) : str := N_of_ascii <$> list_ascii_of_string s.

(** [sep.join(l)] *)
Fixpoint join (sep : str) (l : list str) : str :=
  match l with
  | [] => []
  | [x] => x
  | x :: l' => x ++ sep ++ join sep l'
  end.

(** [s.startswith(p)] *)
Fixpoint startswith (s p : str) : bool :=
  match p, s with
  | [], _ => true
  | a :: p', b :: s' => (a =? b)%N && startswith s' p'
  | _ :: _, [] => false
  end.

(** [needle in hay] for two strings: substring search. *)
Fixpoint contains (needle hay : str) : bool :=
  startswith hay needle ||
  match hay with
  | [] => false
  | _ :: hay' => contains needle hay'
  end.

Definition in_range (lo hi c : N) : bool := (lo <=? c)%N && (c <=? hi)%N.

(** [c.isspace()]: the code points that [str.strip] removes and that the
    pattern [\s] matches in a [str] pattern. *)
Definition isspace (c : char) : bool :=
  in_range 0x09 0x0d c || in_range 0x1c 0x20 c || (c =? 0x85)%N || (c =? 0xa0)%N
  || (c =? 0x1680)%N || in_range 0x2000 0x200a c || (c =? 0x2028)%N
  || (c =? 0x2029)%N || (c =? 0x202f)%N || (c =? 0x205f)%N || (c =? 0x3000)%N.

Fixpoint lstrip (s : str) : str :=
  match s with
  | c :: s' => if isspace c then lstrip s' else s
  | [] => []
  end.

Definition rstrip (s : str) : str := reverse (lstrip (reverse s)).

(** [s.strip()] *)
Definition strip (s : str) : str := rstrip (lstrip s).

(** [s.split(sep)] for a one-character separator: never the empty list. *)
Fixpoint split (sep : char) (s : str) : list str :=
  match s with
  | [] => [[]]
  | c :: s' =>
      if (c =? sep)%N then [] :: split sep s'
      else match split sep s' with
           | piece :: pieces => (c :: piece) :: pieces
           | [] => [[c]]
           end
  end.

(** [s.lower()] on the characters the scripts apply it to: only [A]-[Z]
    change. (Exact for ASCII text; the one call site passes ASCII, see
    [bold_names_ascii].) *)
Definition lower_char (c : char) : char :=
  if in_range 0x41 0x5a c then (c + 32)%N else c.
Definition lower (s : str) : str := lower_char <$> s.

(** [s.replace(a, b)] for one-character [a] and [b]. *)
Definition replace (a b : char) (s : str) : str :=
  (fun c => if (c =? a)%N then b else c) <$> s.

(** [a <= b] on strings: lexicographic on code points. *)
Fixpoint str_leb (a b : str) : bool :=
  match a, b with
  | [], _ => true
  | _ :: _, [] => false
  | x :: a', y :: b' => (x <? y)%N || ((x =? y)%N && str_leb a' b')
  end.

Definition str_le (a b : str) : Prop := str_leb a b = true.

#[export] Instance str_le_dec a b : Decision (str_le a b).
Proof. unfold str_le. apply _. Defined.

(** [sorted(l)] for a list of strings. Python's sort is stable; on strings
    the order is total and antisymmetric, so any sorting permutation gives
    the same list. *)
Definition sorted (l : list str) : list str := merge_sort str_le l.

End Py.
Import Py.

(** ** JSON values, as [json.load] returns them *)

Inductive json :=
| JNull
| JBool (b : bool)
| JInt (n : Z)
| JFloat (literal : str)
| JStr (s : str)
| JArr (items : list json)
| JObj (members : gmap (list N) json).

(** ** Exceptions, and computations that mutate [self] *)

(** The scripts distinguish [json.JSONDecodeError] from every other
    exception; [str(e)] is the message. *)
Inductive exn :=
| JSONDecodeError (msg : str) (lineno : N)
| Exception (msg : str).

Definition exn_str (e : exn) : str :=
  match e with
  | JSONDecodeError msg _ => msg
  | Exception msg => msg
  end.

Inductive outcome (S A : Type) :=
| Done (a : A) (st : S)
| Raised (e : exn) (st : S).
Arguments Done {S A} a st.
Arguments Raised {S A} e st.

Definition final {S A} (o : outcome S A) : S :=
  match o with
  | Done _ st => st
  | Raised _ st => st
  end.

Definition M (S A : Type) : Type := S -> outcome S A.

Definition ret {S A} (a : A) : M S A := fun st => Done a st.

Definition bind {S A B} (m : M S A) (k : A -> M S B) : M S B :=
  fun st =>
    match m st with
    | Done a st' => k a st'
    | Raised e st' => Raised e st'
    end.

Definition raise {S A} (e : exn) : M S A := fun st => Raised e st.

(** [try: body  except ...: handler]; the handler returns [None] for an
    exception that no [except] clause matches, which then propagates. *)
Definition try_except {S A} (body : M S A) (handler : exn -> option (M S A)) : M S A :=
  fun st =>
    match body st with
    | Done a st' => Done a st'
    | Raised e st' =>
        match handler e with
        | Some h => h st'
        | None => Raised e st'
        end
    end.

Notation "x <- m ;; k" := (bind m (fun x => k))
  (at level 100, m at next level, right associativity).
Notation "m ;;; k" := (bind m (fun _ => k))
  (at level 100, right associativity).

(** [for x in l: acc = body(x, acc)] with a loop-carried local [acc]. *)
Fixpoint for_in {S A B} (l : list A) (body : A -> B -> M S B) (acc : B) : M S B :=
  match l with
  | [] => ret acc
  | x :: l' => acc' <- body x acc ;; for_in l' body acc'
  end.

(** ** The file system *)

(** A regular file, seen through [open(path, 'r', encoding='utf-8')]
    followed by [json.load]: it parses to a value, or [json.load] raises
    [JSONDecodeError], or opening or decoding raises something else. *)
Inductive file_content :=
| Json (data : json)
| NotJson (msg : str) (lineno : N)
| Unreadable (msg : str).

(** A directory lists its entries in the order [iterdir] yields them. *)
Inductive node :=
| File (content : file_content)
| Dir (entries : list (str * node)).

(** Messages that the interpreter and the operating system put into the
    exceptions they raise; the scripts copy them into their reports. *)
Record runtime := {
  not_iterable_text : json -> str;        (* TypeError of [x in data] *)
  no_attribute_get_text : json -> str;    (* AttributeError of [data.get] *)
  not_subscriptable_text : json -> str -> str;  (* of [data[key]] *)
  is_a_directory_text : str -> str;       (* OSError of [open] on a directory *)
  not_a_directory_text : str -> str;      (* OSError of [iterdir] on a file *)
  no_such_file_text : str -> str;         (* OSError of either on a missing path *)
}.

(** A [pathlib.Path] together with what it resolves to. *)
Record path := {
  path_str : str;
  name : str;
  target : option node;
}.

Fixpoint lookup_entry (n : str) (entries : list (str * node)) : option node :=
  match entries with
  | [] => None
  | (n', x) :: entries' => if decide (n' = n) then Some x else lookup_entry n entries'
  end.

(** [p / n] *)
Definition child (p : path) (n : str) : path :=
  {| path_str := path_str p ++ py "/" ++ n;
     name := n;
     target := match target p with
               | Some (Dir entries) => lookup_entry n entries
               | _ => None
               end |}.

Definition exists_ (p : path) : bool := bool_decide (is_Some (target p)).

Definition is_dir (p : path) : bool :=
  match target p with
  | Some (Dir _) => true
  | _ => false
  end.

(** [p / rel] for a relative path with several components. *)
Definition join_path (p : path) (rel : str) : path :=
  foldl child p (split 0x2f rel).

Definition entry_path (p : path) (e : str * node) : path :=
  {| path_str := path_str p ++ py "/" ++ e.1; name := e.1; target := Some e.2 |}.

Definition endswith (s suffix : str) : bool := startswith (reverse s) (reverse suffix).

Section Runtime.
Context (rt : runtime).

(** [p.iterdir()], consumed at once. *)
Definition iterdir {S} (p : path) : M S (list path) :=
  match target p with
  | Some (Dir entries) => ret (entry_path p <$> entries)
  | Some (File _) => raise (Exception (not_a_directory_text rt (path_str p)))
  | None => raise (Exception (no_such_file_text rt (path_str p)))
  end.

(** [list(p.glob("*" + suffix))]: the entries whose name ends in [suffix];
    nothing when [p] is not a directory. *)
Definition glob_suffix (p : path) (suffix : str) : list path :=
  match target p with
  | Some (Dir entries) =>
      entry_path p <$> List.filter (fun e => endswith e.1 suffix) entries
  | _ => []
  end.

(** [with open(p, 'r', encoding='utf-8') as f: json.load(f)] *)
Definition json_load {S} (p : path) : M S json :=
  match target p with
  | Some (File (Json data)) => ret data
  | Some (File (NotJson msg lineno)) => raise (JSONDecodeError msg lineno)
  | Some (File (Unreadable msg)) => raise (Exception msg)
  | Some (Dir _) => raise (Exception (is_a_directory_text rt (path_str p)))
  | None => raise (Exception (no_such_file_text rt (path_str p)))
  end.

(** [key in data] *)
Definition py_in {S} (key : str) (data : json) : M S bool :=
  match data with
  | JObj members => ret (bool_decide (is_Some (members !! key)))
  | JArr items => ret (existsb (fun v => match v with JStr s => bool_decide (s = key) | _ => false end) items)
  | JStr s => ret (contains key s)
  | _ => raise (Exception (not_iterable_text rt data))
  end.

(** [data.get(key, default)]; [data.get(key)] is [data.get(key, None)]. *)
Definition py_get {S} (data : json) (key : str) (default_ : json) : M S json :=
  match data with
  | JObj members => ret (default default_ (members !! key))
  | _ => raise (Exception (no_attribute_get_text rt data))
  end.

(** [data[key]] for a string key. *)
Definition py_getitem {S} (data : json) (key : str) : M S json :=
  match data with
  | JObj members =>
      match members !! key with
      | Some v => ret v
      | None => raise (Exception (py "'" ++ key ++ py "'"))
      end
  | _ => raise (Exception (not_subscriptable_text rt data key))
  end.

End Runtime.

(** [isinstance(v, str) and bool(v)] *)
Definition nonempty_str (v : json) : bool :=
  match v with
  | JStr (_ :: _) => true
  | _ => false
  end.

Definition is_str (v : json) : bool :=
  match v with JStr _ => true | _ => false end.
Definition is_list (v : json) : bool :=
  match v with JArr _ => true | _ => false end.
Definition is_dict (v : json) : bool :=
  match v with JObj _ => true | _ => false end.

(** ** The plugin schema validator ([validate-plugin-schema.py]) *)

Module Schema.

Definition REQUIRED_FILES : list (str * str) :=
  [(py ".claude-plugin/plugin.json", py "Plugin manifest file")].

Definition OPTIONAL_DIRS : list (str * str) :=
  [(py "commands", py "Command definitions");
   (py "agents", py "Agent definitions");
   (py "skills", py "Agent skills");
   (py "hooks", py "Hook configurations");
   (py "scripts", py "Scripts and utilities")].

Definition OPTIONAL_FILES : list (str * str) :=
  [(py ".mcp.json", py "MCP server definitions");
   (py "LICENSE", py "License file");
   (py "CHANGELOG.md", py "Version history");
   (py "README.md", py "Documentation")].

Definition PLUGIN_JSON_REQUIRED_FIELDS : list str :=
  [py "name"; py "version"; py "description"].

(** The attributes of [PluginValidator] that the methods mutate. *)
Record validator := {
  errors : list str;
  warnings : list str;
  validated_plugins : gset (list N);
}.

Definition init : validator :=
  {| errors := []; warnings := []; validated_plugins := ∅ |}.

(** [self.errors.append(msg)] *)
Definition append_error (msg : str) : M validator unit :=
  fun st => Done tt {| errors := errors st ++ [msg];
                       warnings := warnings st;
                       validated_plugins := validated_plugins st |}.

(** [self.warnings.append(msg)] *)
Definition append_warning (msg : str) : M validator unit :=
  fun st => Done tt {| errors := errors st;
                       warnings := warnings st ++ [msg];
                       validated_plugins := validated_plugins st |}.

(** [self.validated_plugins.add(plugin_name)] *)
Definition add_validated (plugin_name : str) : M validator unit :=
  fun st => Done tt {| errors := errors st;
                       warnings := warnings st;
                       validated_plugins := validated_plugins st ∪ {[plugin_name]} |}.

(** The text of the error for a field that must be a non-empty string:
    [f"[{plugin_name}] plugin.json '{field}' must be a non-empty string"]. *)
Definition must_be_nonempty_string (plugin_name field : str) : str :=
  py "[" ++ plugin_name ++ py "] plugin.json '" ++ field
    ++ py "' must be a non-empty string".

Section Validator.
Context (rt : runtime).

(** The check the source repeats for [name], [version] and [description]:
<<
    if not isinstance(data.get(field), str) or not data[field]:
        self.errors.append(...); is_valid = False
>>
    [data[field]] is only evaluated when [data.get(field)] is a string, and
    then it is that string. *)
Definition check_required_str (data : json) (plugin_name field : str)
    (is_valid : bool) : M validator bool :=
  v <- py_get rt data field JNull ;;
  if negb (nonempty_str v) then
    append_error (must_be_nonempty_string plugin_name field) ;;; ret false
  else ret is_valid.

(** The check the source repeats for the optional string fields:
<<
    if field in data:
        if not isinstance(data[field], str) or not data[field]:
            self.errors.append(...); is_valid = False
>> *)
Definition check_optional_str (data : json) (plugin_name field : str)
    (is_valid : bool) : M validator bool :=
  present <- py_in rt field data ;;
  if present then
    v <- py_getitem rt data field ;;
    if negb (nonempty_str v) then
      append_error (must_be_nonempty_string plugin_name field) ;;; ret false
    else ret is_valid
  else ret is_valid.

Definition validate_author_field (author : json) (plugin_name : str) : M validator bool :=
  if negb (is_dict author) then
    append_error (py "[" ++ plugin_name ++ py "] plugin.json 'author' must be an object") ;;;
    ret false
  else
    has_name <- py_in rt (py "name") author ;;
    if negb has_name then
      append_error (py "[" ++ plugin_name ++ py "] plugin.json 'author' must have a 'name' field") ;;;
      ret false
    else
      author_name <- py_getitem rt author (py "name") ;;
      if negb (nonempty_str author_name) then
        append_error (must_be_nonempty_string plugin_name (py "author.name")) ;;;
        ret false
      else
        is_valid <- ret true ;;
        has_email <- py_in rt (py "email") author ;;
        is_valid <- (if has_email then
                       v <- py_getitem rt author (py "email") ;;
                       if negb (nonempty_str v) then
                         append_error (must_be_nonempty_string plugin_name (py "author.email")) ;;;
                         ret false
                       else ret is_valid
                     else ret is_valid) ;;
        has_url <- py_in rt (py "url") author ;;
        is_valid <- (if has_url then
                       v <- py_getitem rt author (py "url") ;;
                       if negb (nonempty_str v) then
                         append_error (must_be_nonempty_string plugin_name (py "author.url")) ;;;
                         ret false
                       else ret is_valid
                     else ret is_valid) ;;
        ret is_valid.

(** [all(isinstance(k, str) for k in items)] *)
Definition all_str (v : json) : bool :=
  match v with
  | JArr items => forallb is_str items
  | _ => true
  end.

Definition check_author (data : json) (plugin_name : str) (is_valid : bool) : M validator bool :=
  present <- py_in rt (py "author") data ;;
  if present then
    author <- py_getitem rt data (py "author") ;;
    ok <- validate_author_field author plugin_name ;;
    ret (if negb ok then false else is_valid)
  else ret is_valid.

Definition check_keywords (data : json) (plugin_name : str) (is_valid : bool) : M validator bool :=
  present <- py_in rt (py "keywords") data ;;
  if present then
    v <- py_getitem rt data (py "keywords") ;;
    if negb (is_list v) then
      append_error (py "[" ++ plugin_name ++ py "] plugin.json 'keywords' must be an array") ;;;
      ret false
    else if negb (all_str v) then
      append_error (py "[" ++ plugin_name ++ py "] plugin.json 'keywords' must contain only strings") ;;;
      ret false
    else ret is_valid
  else ret is_valid.

Definition check_commands (data : json) (plugin_name : str) (is_valid : bool) : M validator bool :=
  present <- py_in rt (py "commands") data ;;
  if present then
    v <- py_getitem rt data (py "commands") ;;
    if negb (is_list v || is_str v) then
      append_error (py "[" ++ plugin_name ++ py "] plugin.json 'commands' must be a string or array") ;;;
      ret false
    else if is_list v && negb (all_str v) then
      append_error (py "[" ++ plugin_name ++ py "] plugin.json 'commands' array must contain only strings") ;;;
      ret false
    else ret is_valid
  else ret is_valid.

(** The blocks of the [try] body of [validate_plugin_json] that the source
    introduces with the comments "Validate required field types" and
    "Validate optional fields"; [is_valid] is the local they update. *)
Definition check_required_types (data : json) (plugin_name : str)
    (is_valid : bool) : M validator bool :=
  is_valid <- check_required_str data plugin_name (py "name") is_valid ;;
  is_valid <- check_required_str data plugin_name (py "version") is_valid ;;
  is_valid <- check_required_str data plugin_name (py "description") is_valid ;;
  ret is_valid.

Definition check_optional_fields (data : json) (plugin_name : str)
    (is_valid : bool) : M validator bool :=
  is_valid <- check_author data plugin_name is_valid ;;
  is_valid <- check_optional_str data plugin_name (py "homepage") is_valid ;;
  is_valid <- check_optional_str data plugin_name (py "repository") is_valid ;;
  is_valid <- check_optional_str data plugin_name (py "license") is_valid ;;
  is_valid <- check_keywords data plugin_name is_valid ;;
  is_valid <- check_commands data plugin_name is_valid ;;
  is_valid <- check_optional_str data plugin_name (py "agents") is_valid ;;
  is_valid <- check_optional_str data plugin_name (py "hooks") is_valid ;;
  is_valid <- check_optional_str data plugin_name (py "mcpServers") is_valid ;;
  ret is_valid.

(** The body of the [try] block of [validate_plugin_json], after the file
    has been loaded into [data]. *)
Definition validate_manifest_data (data : json) (plugin_name : str) : M validator bool :=
  missing_fields <-
    for_in PLUGIN_JSON_REQUIRED_FIELDS
      (fun field missing_fields =>
         present <- py_in rt field data ;;
         ret (if negb present then missing_fields ++ [field] else missing_fields))
      [] ;;
  if bool_decide (missing_fields ≠ []) then
    append_error (py "[" ++ plugin_name ++ py "] plugin.json missing required fields: "
                    ++ join (py ", ") missing_fields) ;;;
    ret false
  else
    is_valid <- ret true ;;
    is_valid <- check_required_types data plugin_name is_valid ;;
    is_valid <- check_optional_fields data plugin_name is_valid ;;
    ret is_valid.

(** [validate_plugin_json], for the manifest of a plugin directory of the
    plugins directory: after the error for missing fields, after each of
    the three errors for the type of a required field, and in both
    [except] clauses, the source hands
    [str(file_path.relative_to(self.plugins_dir.parent))] to
    [github_error], which returns for such a path (see the conventions at
    the head of the file). *)
Definition validate_plugin_json (file_path : path) (plugin_name : str) : M validator bool :=
  try_except
    (data <- json_load rt file_path ;;
     validate_manifest_data data plugin_name)
    (fun e =>
       match e with
       | JSONDecodeError _ _ =>
           Some (append_error (py "[" ++ plugin_name ++ py "] Invalid JSON in plugin.json: "
                                 ++ exn_str e) ;;;
                 ret false)
       | Exception _ =>
           Some (append_error (py "[" ++ plugin_name ++ py "] Error reading plugin.json: "
                                 ++ exn_str e) ;;;
                 ret false)
       end).

Definition validate_mcp_json (file_path : path) (plugin_name : str) : M validator bool :=
  try_except
    (json_load rt file_path ;;; ret true)
    (fun e =>
       match e with
       | JSONDecodeError _ _ =>
           Some (append_error (py "[" ++ plugin_name ++ py "] Invalid JSON in .mcp.json: "
                                 ++ exn_str e) ;;;
                 ret false)
       | Exception _ =>
           Some (append_warning (py "[" ++ plugin_name ++ py "] Error reading .mcp.json: "
                                   ++ exn_str e) ;;;
                 ret true)
       end).

Definition validate_markdown_files (dir_path : path) (plugin_name file_type : str) : M validator bool :=
  let md_files := glob_suffix dir_path (py ".md") in
  (if bool_decide (md_files = []) then
     append_warning (py "[" ++ plugin_name ++ py "] " ++ name dir_path
                       ++ py "/ directory exists but contains no .md files")
   else ret tt) ;;;
  ret true.

Definition validate_skills (skills_dir : path) (plugin_name : str) : M validator bool :=
  entries <- iterdir rt skills_dir ;;
  let skill_dirs := List.filter is_dir entries in
  if bool_decide (skill_dirs = []) then
    append_warning (py "[" ++ plugin_name
                      ++ py "] skills/ directory exists but contains no skill directories") ;;;
    ret true
  else
    for_in skill_dirs
      (fun skill_dir (_ : unit) =>
         let skill_md := child skill_dir (py "SKILL.md") in
         if negb (exists_ skill_md) then
           append_warning (py "[" ++ plugin_name ++ py "] Skill directory '"
                             ++ name skill_dir ++ py "' missing SKILL.md")
         else ret tt)
      tt ;;;
    ret true.

Definition validate_json_files (dir_path : path) (plugin_name : str) : M validator bool :=
  let json_files := glob_suffix dir_path (py ".json") in
  if bool_decide (json_files = []) then
    append_warning (py "[" ++ plugin_name ++ py "] " ++ name dir_path
                      ++ py "/ directory exists but contains no .json files") ;;;
    ret true
  else
    for_in json_files
      (fun json_file all_valid =>
         try_except
           (json_load rt json_file ;;; ret all_valid)
           (fun e =>
              match e with
              | JSONDecodeError _ _ =>
                  Some (append_error (py "[" ++ plugin_name ++ py "] Invalid JSON in "
                                        ++ name json_file ++ py ": " ++ exn_str e) ;;;
                        ret false)
              | Exception _ => None
              end))
      true.

(** The three loops of [validate_plugin]; [plugin_valid] is the local they
    all update. In the first one the source hands
    [str(plugin_dir.relative_to(self.plugins_dir.parent))] to
    [github_error] after it has appended the error for a missing file;
    for a plugin directory of the plugins directory this returns (see the
    conventions at the head of the file). *)
Definition check_required_files (plugin_dir : path) (plugin_name : str)
    (plugin_valid : bool) : M validator bool :=
  for_in REQUIRED_FILES
    (fun '(req_file, description) plugin_valid =>
       let file_path := join_path plugin_dir req_file in
       if negb (exists_ file_path) then
         append_error (py "[" ++ plugin_name ++ py "] Missing required file: " ++ req_file
                         ++ py " (" ++ description ++ py ")") ;;;
         ret false
       else if bool_decide (req_file = py ".claude-plugin/plugin.json") then
         ok <- validate_plugin_json file_path plugin_name ;;
         ret (if negb ok then false else plugin_valid)
       else ret plugin_valid)
    plugin_valid.

Definition check_optional_dirs (plugin_dir : path) (plugin_name : str)
    (plugin_valid : bool) : M validator bool :=
  for_in OPTIONAL_DIRS
    (fun '(opt_dir, description) plugin_valid =>
       let dir_path := join_path plugin_dir opt_dir in
       if exists_ dir_path then
         (* an [if .. elif] chain on the directory's name: at most one of
            the content checks runs *)
         if bool_decide (opt_dir = py "commands") then
           ok <- validate_markdown_files dir_path plugin_name (py "command") ;;
           ret (if negb ok then false else plugin_valid)
         else if bool_decide (opt_dir = py "agents") then
           ok <- validate_markdown_files dir_path plugin_name (py "agent") ;;
           ret (if negb ok then false else plugin_valid)
         else if bool_decide (opt_dir = py "skills") then
           ok <- validate_skills dir_path plugin_name ;;
           ret (if negb ok then false else plugin_valid)
         else if bool_decide (opt_dir = py "hooks") then
           ok <- validate_json_files dir_path plugin_name ;;
           ret (if negb ok then false else plugin_valid)
         else ret plugin_valid
       else ret plugin_valid)
    plugin_valid.

Definition check_optional_files (plugin_dir : path) (plugin_name : str)
    (plugin_valid : bool) : M validator bool :=
  for_in OPTIONAL_FILES
    (fun '(opt_file, description) plugin_valid =>
       let file_path := join_path plugin_dir opt_file in
       if exists_ file_path then
         if bool_decide (opt_file = py ".mcp.json") then
           ok <- validate_mcp_json file_path plugin_name ;;
           ret (if negb ok then false else plugin_valid)
         else ret plugin_valid
       else ret plugin_valid)
    plugin_valid.

Definition validate_plugin (plugin_dir : path) : M validator bool :=
  let plugin_name := name plugin_dir in
  plugin_valid <- ret true ;;
  plugin_valid <- check_required_files plugin_dir plugin_name plugin_valid ;;
  plugin_valid <- check_optional_dirs plugin_dir plugin_name plugin_valid ;;
  plugin_valid <- check_optional_files plugin_dir plugin_name plugin_valid ;;
  (if plugin_valid then add_validated plugin_name else ret tt) ;;;
  ret plugin_valid.

(** [sorted(plugin_dirs)]: paths with the same parent compare by name. *)
Definition path_le (p q : path) : Prop := str_le (name p) (name q).

Definition sorted_paths (l : list path) : list path := merge_sort path_le l.

Definition validate_all_plugins (plugins_dir : path) : M validator bool :=
  if negb (exists_ plugins_dir) then
    append_error (py "Plugins directory not found: " ++ path_str plugins_dir) ;;;
    ret false
  else
    entries <- iterdir rt plugins_dir ;;
    let plugin_dirs := List.filter is_dir entries in
    if bool_decide (plugin_dirs = []) then
      append_warning (py "No plugin directories found") ;;;
      ret true
    else
      for_in (sorted_paths plugin_dirs)
        (fun plugin_dir all_valid =>
           ok <- validate_plugin plugin_dir ;;
           ret (if negb ok then false else all_valid))
        true.

End Validator.

End Schema.

(** ** The marketplace sync validator ([validate-marketplace-sync.py]) *)

Module Sync.

(** *** The three patterns of [extract_plugin_names_from_markdown]

    [re.findall] scans the text from left to right; at each position it
    tries the pattern, and after a match it resumes where the match ended.
    The matchers below try the longest repetition first and give characters
    back on failure, as the backtracking engine does. *)

(** A character of the set [[a-z0-9-]] under [re.IGNORECASE]: the 52 ASCII
    letters, and the four non-ASCII letters whose case folding is an ASCII
    letter (U+0130, U+0131, U+017F and U+212A). *)
Definition name_char (c : char) : bool :=
  in_range 0x61 0x7a c || in_range 0x41 0x5a c || in_range 0x30 0x39 c
  || (c =? 0x2d)%N
  || (c =? 0x130)%N || (c =? 0x131)%N || (c =? 0x17f)%N || (c =? 0x212a)%N.

(** A character of the set [[A-Za-z0-9 -]]. *)
Definition bold_char (c : char) : bool :=
  in_range 0x41 0x5a c || in_range 0x61 0x7a c || in_range 0x30 0x39 c
  || (c =? 0x20)%N || (c =? 0x2d)%N.

(** The literal pattern character [p] against [c] under [re.IGNORECASE],
    for a pattern character that is not an upper-case letter. *)
Definition char_eq_ignorecase (p c : char) : bool :=
  (c =? p)%N
  || (in_range 0x61 0x7a p && (c =? p - 32)%N)
  || ((p =? 0x69)%N && ((c =? 0x130)%N || (c =? 0x131)%N))
  || ((p =? 0x73)%N && (c =? 0x17f)%N)
  || ((p =? 0x6b)%N && (c =? 0x212a)%N).

(** A literal at the start of [s]: what follows it. *)
Fixpoint literal (eqc : char -> char -> bool) (lit s : str) : option str :=
  match lit, s with
  | [], _ => Some s
  | p :: lit', c :: s' => if eqc p c then literal eqc lit' s' else None
  | _ :: _, [] => None
  end.

(** [cls*] at the start of [s], greedy: the continuation [k] receives the
    text matched so far and the rest, longest match first. *)
Fixpoint star {R} (cls : char -> bool) (k : str -> str -> option R)
    (matched s : str) : option R :=
  match s with
  | c :: s' =>
      if cls c then
        match star cls k (matched ++ [c]) s' with
        | Some r => Some r
        | None => k matched s
        end
      else k matched s
  | [] => k matched []
  end.

(** [cls+] *)
Definition plus {R} (cls : char -> bool) (k : str -> str -> option R) (s : str) : option R :=
  match s with
  | c :: s' => if cls c then star cls k [c] s' else None
  | [] => None
  end.

(** A match at the start of the text: the text of group 1 and what follows
    the match. *)

(** [/plugin install ([a-z0-9-]+)] with [re.IGNORECASE] *)
Definition install_pattern (s : str) : option (str * str) :=
  rest ← literal char_eq_ignorecase (py "/plugin install ") s;
  plus name_char (fun token rest' => Some (token, rest')) rest.

(** [([a-z0-9-]+)@] with [re.IGNORECASE] *)
Definition at_pattern (s : str) : option (str * str) :=
  plus name_char
    (fun token rest =>
       rest' ← literal N.eqb (py "@") rest;
       Some (token, rest'))
    s.

(** [\*\*([A-Za-z0-9 -]+)\*\*\s*-] *)
Definition bold_pattern (s : str) : option (str * str) :=
  rest ← literal N.eqb (py "**") s;
  plus bold_char
    (fun display_name rest1 =>
       rest2 ← literal N.eqb (py "**") rest1;
       star isspace
         (fun _ rest3 =>
            rest4 ← literal N.eqb (py "-") rest3;
            Some (display_name, rest4))
         [] rest2)
    rest.

(** [re.findall(pattern, s)] for a pattern with one group. [skip] counts
    the characters of the last match that are still to be passed over. *)
Fixpoint findall_from (pattern : str -> option (str * str)) (skip : nat) (s : str) : list str :=
  match skip with
  | S skip' =>
      match s with
      | [] => []
      | _ :: s' => findall_from pattern skip' s'
      end
  | O =>
      match pattern s with
      | Some (group, rest) =>
          group :: match s with
                   | [] => []
                   | _ :: s' => findall_from pattern (length s - length rest - 1) s'
                   end
      | None =>
          match s with
          | [] => []
          | _ :: s' => findall_from pattern 0 s'
          end
      end
  end.

Definition findall (pattern : str -> option (str * str)) (s : str) : list str :=
  findall_from pattern 0 s.

Definition false_positives : gset (list N) :=
  {[ py "claude-code-marketplace"; py "marketplace"; py "your-org"; py "test";
     py "my-first-plugin"; py "my-plugin"; py "dev-marketplace"; py "plugin-name" ]}.

Definition extract_plugin_names_from_markdown (content : str) : gset (list N) :=
  let plugin_names : gset (list N) := ∅ in
  let install_patterns := findall install_pattern content in
  let plugin_names := plugin_names ∪ list_to_set install_patterns in
  let at_patterns := findall at_pattern content in
  let plugin_names := plugin_names ∪ list_to_set at_patterns in
  let bold_patterns := findall bold_pattern content in
  let plugin_names :=
    foldl (fun plugin_names name =>
             let kebab_name := replace 0x20 0x2d (lower name) in
             plugin_names ∪ {[ kebab_name ]})
          plugin_names bold_patterns in
  let plugin_names := plugin_names ∖ false_positives in
  plugin_names.

(** *** The validator *)

Record validator := {
  errors : list str;
  warnings : list str;
}.

Definition init : validator := {| errors := []; warnings := [] |}.

Definition append_error (msg : str) : M validator unit :=
  fun st => Done tt {| errors := errors st ++ [msg]; warnings := warnings st |}.

Definition append_warning (msg : str) : M validator unit :=
  fun st => Done tt {| errors := errors st; warnings := warnings st ++ [msg] |}.

(** A documentation file that exists: [f.read()] returns its text or
    raises. *)
Inductive document :=
| Text (content : str)
| Undecodable (e : exn).

(** The repository as the validator looks at it: [repo_root / "plugins"],
    and [README.md] and [plugins.md] when they exist. *)
Record repository := {
  plugins_dir : path;
  readme : option document;
  plugins_md : option document;
}.

(** The value stored for each plugin by [get_plugin_list]. *)
Record plugin_info := {
  info_name : json;
  info_description : json;
  info_version : json;
  info_path : path;
}.

(** What [subprocess.run(['git', 'diff', ...], capture_output=True,
    text=True)] gives: a completed process, or an exception. *)
Inductive git_diff :=
| Completed (returncode : Z) (stdout : str)
| Failed (e : exn).

Section Validator.
Context (rt : runtime).

Definition read {S} (d : document) : M S str :=
  match d with
  | Text content => ret content
  | Undecodable e => raise e
  end.

(** The body of the loop of [get_plugin_list], for one entry of the
    plugins directory; [plugins] is the dictionary built so far. *)
Definition get_plugin_list_entry (plugin_dir : path) (plugins : gmap (list N) plugin_info)
    : M validator (gmap (list N) plugin_info) :=
  if negb (is_dir plugin_dir) then ret plugins
  else
    let plugin_json_path := child (child plugin_dir (py ".claude-plugin")) (py "plugin.json") in
    (* Skip plugins without plugin.json (they haven't been migrated yet) *)
    if negb (exists_ plugin_json_path) then ret plugins
    else
      try_except
        (plugin_data <- json_load rt plugin_json_path ;;
         n <- py_get rt plugin_data (py "name") (JStr (name plugin_dir)) ;;
         d <- py_get rt plugin_data (py "description") (JStr (py "")) ;;
         v <- py_get rt plugin_data (py "version") (JStr (py "")) ;;
         ret (<[ name plugin_dir :=
                   {| info_name := n; info_description := d;
                      info_version := v; info_path := plugin_dir |} ]> plugins))
        (fun e =>
           Some (append_warning (py "Could not read plugin.json for "
                                   ++ name plugin_dir ++ py ": " ++ exn_str e) ;;;
                 ret plugins)).

Definition get_plugin_list (repo : repository) : M validator (gmap (list N) plugin_info) :=
  let plugins : gmap (list N) plugin_info := ∅ in
  if negb (exists_ (plugins_dir repo)) then ret plugins
  else
    entries <- iterdir rt (plugins_dir repo) ;;
    for_in entries get_plugin_list_entry plugins.

(** [f"{file} may be missing these plugins: {', '.join(sorted(missing))}"] *)
Definition may_be_missing (file : str) (missing : gset (list N)) : str :=
  file ++ py " may be missing these plugins: " ++ join (py ", ") (sorted (elements missing)).

Definition validate_marketplace_sync (repo : repository) : M validator bool :=
  plugins <- get_plugin_list repo ;;
  if bool_decide (plugins = ∅) then ret true
  else
    readme_valid <- ret true ;;
    readme_valid <-
      match readme repo with
      | Some f =>
          readme_content <- read f ;;
          let readme_plugins := extract_plugin_names_from_markdown readme_content in
          let missing_in_readme := dom plugins ∖ readme_plugins in
          if bool_decide (missing_in_readme ≠ ∅) then
            append_warning (may_be_missing (py "README.md") missing_in_readme) ;;;
            ret false
          else ret readme_valid
      | None =>
          append_warning (py "README.md not found") ;;;
          ret readme_valid
      end ;;
    plugins_md_valid <- ret true ;;
    plugins_md_valid <-
      match plugins_md repo with
      | Some f =>
          plugins_md_content <- read f ;;
          if contains (py "# Plugins") plugins_md_content
             && negb (contains (py "## Quickstart") plugins_md_content) then
            let plugins_md_plugins := extract_plugin_names_from_markdown plugins_md_content in
            let missing_in_plugins_md := dom plugins ∖ plugins_md_plugins in
            if bool_decide (missing_in_plugins_md ≠ ∅) then
              append_warning (may_be_missing (py "plugins.md") missing_in_plugins_md) ;;;
              ret false
            else ret plugins_md_valid
          else ret plugins_md_valid
      | None => ret plugins_md_valid
      end ;;
    ret (readme_valid && plugins_md_valid).

Definition pr_error_msg : str :=
  py "Plugin files were modified but marketplace files (README.md, plugins.md) were not updated. "
  ++ py "Please update the marketplace documentation to reflect the plugin changes.".

(** [is_github_actions] is [os.environ.get('GITHUB_ACTIONS') == 'true'];
    [diff] is the result of running [git diff --name-only origin/main...HEAD]. *)
Definition validate_on_pr (is_github_actions : bool) (diff : git_diff) : M validator bool :=
  if negb is_github_actions then ret true
  else
    try_except
      (result <- match diff with
                 | Completed returncode stdout => ret (returncode, stdout)
                 | Failed e => raise e
                 end ;;
       let '(returncode, stdout) := result in
       if bool_decide (returncode ≠ 0%Z) then ret true
       else
         let changed_files := split 0x0a (strip stdout) in
         let plugin_changes :=
           List.filter (fun f => startswith f (py "plugins/")) changed_files in
         if bool_decide (plugin_changes = []) then ret true
         else
           let marketplace_files := [py "README.md"; py "plugins.md"] in
           let marketplace_updated :=
             existsb (fun f => bool_decide (f ∈ changed_files)) marketplace_files in
           if bool_decide (plugin_changes ≠ []) && negb marketplace_updated then
             append_error pr_error_msg ;;;
             ret false
           else ret true)
      (fun e => Some (ret true)).

(** [main]: the exit status. *)
Definition main (repo : repository) (is_github_actions : bool) (diff : git_diff) : M validator Z :=
  sync_valid <- validate_marketplace_sync repo ;;
  pr_valid <- validate_on_pr is_github_actions diff ;;
  st <- (fun st => Done st st) ;;
  ret (if bool_decide (errors st ≠ []) then 1%Z else 0%Z).

End Validator.

End Sync.

(** * Vocabulary of the properties *)

(** ** Name extraction *)

(** The kebab-case form of a display name:
    [name.lower().replace(' ', '-')]. *)
Definition kebab (display_name : str) : str := replace 0x20 0x2d (lower display_name).

(** The characters the claim allows in a token of the first two pattern
    families. *)
Definition lower_digit_hyphen (c : N) : bool :=
  in_range 0x61 0x7a c || in_range 0x30 0x39 c || (c =? 0x2d)%N.

(** The characters such a token can really contain: ASCII letters of either
    case, digits, the hyphen, and the four letters outside ASCII that
    case-insensitive matching identifies with [i], [s] and [k]. *)
Definition token_char (c : N) : Prop :=
  (0x61 ≤ c ≤ 0x7a)%N ∨ (0x41 ≤ c ≤ 0x5a)%N ∨ (0x30 ≤ c ≤ 0x39)%N ∨ c = 0x2d%N
  ∨ c ∈ [0x130; 0x131; 0x17f; 0x212a]%N.

(** ** The pull-request check *)

(** The changed-file list, when the diff could be obtained: the command
    ran and exited with status 0. *)
Definition changed_file_list (diff : Sync.git_diff) : option (list str) :=
  match diff with
  | Sync.Completed 0 stdout => Some (split 0x0a (strip stdout))
  | _ => None
  end.

(** A plugin file changed and no documentation file did. *)
Definition undocumented_plugin_change (changed_files : list str) : Prop :=
  (∃ f rest, f ∈ changed_files ∧ f = py "plugins/" ++ rest)
  ∧ (py "README.md" ∉ changed_files) ∧ (py "plugins.md" ∉ changed_files).

Definition with_pr_error (st : Sync.validator) : Sync.validator :=
  {| Sync.errors := Sync.errors st ++ [Sync.pr_error_msg];
     Sync.warnings := Sync.warnings st |}.

(** ** An interpreter and sample trees, for the concrete instances *)

(** [type(v).__name__] *)
Definition type_name (v : json) : str :=
  match v with
  | JNull => py "NoneType"
  | JBool _ => py "bool"
  | JInt _ => py "int"
  | JFloat _ => py "float"
  | JStr _ => py "str"
  | JArr _ => py "list"
  | JObj _ => py "dict"
  end.

(** The messages of CPython 3.11 on Linux. *)
Definition cpython : runtime :=
  {| not_iterable_text v := py "argument of type '" ++ type_name v ++ py "' is not iterable";
     no_attribute_get_text v := py "'" ++ type_name v ++ py "' object has no attribute 'get'";
     not_subscriptable_text v _ := py "'" ++ type_name v ++ py "' object is not subscriptable";
     is_a_directory_text p := py "[Errno 21] Is a directory: '" ++ p ++ py "'";
     not_a_directory_text p := py "[Errno 20] Not a directory: '" ++ p ++ py "'";
     no_such_file_text p := py "[Errno 2] No such file or directory: '" ++ p ++ py "'" |}.

(** A plugin directory that holds a manifest and nothing else. *)
Definition manifest_only (content : file_content) : node :=
  Dir [(py ".claude-plugin", Dir [(py "plugin.json", File content)])].

(** A manifest with the three required fields and nothing else. *)
Definition minimal_manifest : json :=
  JObj {[ py "name" := JStr (py "foo");
          py "version" := JStr (py "1.0.0");
          py "description" := JStr (py "A plugin") ]}.

(** The path [plugins] of a repository whose plugins directory has the
    given entries. *)
Definition plugins_root (entries : list (str * node)) : path :=
  {| path_str := py "plugins"; name := py "plugins"; target := Some (Dir entries) |}.

(** ** The sync check *)

(** [plugin_dir / ".claude-plugin" / "plugin.json"] *)
Definition manifest_path (plugin_dir : path) : path :=
  child (child plugin_dir (py ".claude-plugin")) (py "plugin.json").

(** The manifest exists, and [json.load] gives an object for it. *)
Definition manifest_is_object (plugin_dir : path) : Prop :=
  ∃ members, target (manifest_path plugin_dir) = Some (File (Json (JObj members))).

(** The content looks like a catalog: it contains [# Plugins] and does not
    contain [## Quickstart]. *)
Definition is_catalog (content : str) : Prop :=
  (∃ before after, content = before ++ py "# Plugins" ++ after)
  ∧ ¬ (∃ before after, content = before ++ py "## Quickstart" ++ after).

(** [names] lists, in sorted order and once each, the plugins that the
    text does not mention. *)
Definition lists_missing (plugins : gset (list N)) (content : str) (names : list str) : Prop :=
  StronglySorted str_le names ∧ NoDup names
  ∧ ∀ n, n ∈ names ↔ n ∈ plugins ∧ n ∉ Sync.extract_plugin_names_from_markdown content.

(** The one warning for a non-empty list of missing names, nothing for an
    empty one. *)
Definition aggregated_warning (file : str) (names : list str) : list str :=
  match names with
  | [] => []
  | _ :: _ => [file ++ py " may be missing these plugins: " ++ join (py ", ") names]
  end.

Definition add_warnings (st : Sync.validator) (ws : list str) : Sync.validator :=
  {| Sync.errors := Sync.errors st; Sync.warnings := Sync.warnings st ++ ws |}.

(** The repository with another [plugins.md]. *)
Definition with_plugins_md (repo : Sync.repository) (f : option Sync.document) : Sync.repository :=
  {| Sync.plugins_dir := Sync.plugins_dir repo;
     Sync.readme := Sync.readme repo;
     Sync.plugins_md := f |}.


(** Two plugin directories that both hold a manifest: the manifest of
    [good] is a JSON object, that of [broken] is not valid JSON. *)
Definition two_manifests : Sync.repository :=
  {| Sync.plugins_dir :=
       plugins_root
         [(py "good", manifest_only (Json minimal_manifest));
          (py "broken", manifest_only (NotJson (py "Expecting value: line 1 column 1 (char 0)") 1))];
     Sync.readme := None;
     Sync.plugins_md := None |}.


(** The sync scenario of the specification: [foo] and [bar] both hold a
    manifest and [README.md] mentions [foo] only. *)
Definition sync_scenario : Sync.repository :=
  {| Sync.plugins_dir :=
       plugins_root
         [(py "foo", manifest_only (Json minimal_manifest));
          (py "bar", manifest_only (Json minimal_manifest))];
     Sync.readme := Some (Sync.Text (py "Install it with /plugin install foo"));
     Sync.plugins_md := None |}.



(** ** What a method of the schema validator writes *)

(** The state with more errors and warnings at the end of its lists. *)
Definition extend (st : Schema.validator) (es ws : list str) : Schema.validator :=
  {| Schema.errors := Schema.errors st ++ es;
     Schema.warnings := Schema.warnings st ++ ws;
     Schema.validated_plugins := Schema.validated_plugins st |}.

Definition outcome_of {A} (r : A + exn) (st : Schema.validator) : outcome Schema.validator A :=
  match r with
  | inl a => Done a st
  | inr e => Raised e st
  end.

(** [m] returns [r] (or raises it) and appends the errors [es] and the
    warnings [ws], whatever the state it starts from. *)
Definition writes {A} (m : M Schema.validator A) (r : A + exn) (es ws : list str) : Prop :=
  ∀ st, m st = outcome_of r (extend st es ws).

(** [m] leaves the state alone. *)
Definition pure {A} (m : M Schema.validator A) : Prop := ∃ r, writes m r [] [].

(** [m] appends warnings only. *)
Definition quiet {A} (m : M Schema.validator A) : Prop := ∃ r ws, writes m r [] ws.

(** [m] updates a validity flag whose value was [v]: the flag it returns is
    true exactly when [v] was and [m] appended no error; every error it
    appends satisfies [Φ]. *)
Definition flagged (Φ : str → Prop) (v : bool) (m : M Schema.validator bool) : Prop :=
  ∃ r es ws,
    writes m r es ws ∧ Forall Φ es
    ∧ match r with
      | inl b => b = true ↔ v = true ∧ es = []
      | inr _ => True
      end.


(** ** The schema validator *)

(** The error for a missing manifest. *)
Definition missing_manifest_error (plugin_name : str) : str :=
  py "[" ++ plugin_name
    ++ py "] Missing required file: .claude-plugin/plugin.json (Plugin manifest file)".

(** [msg] is not the type error of one of the three required fields. *)
Definition not_required_type_error (plugin_name msg : str) : Prop :=
  ∀ field, field ∈ Schema.PLUGIN_JSON_REQUIRED_FIELDS →
           msg ≠ Schema.must_be_nonempty_string plugin_name field.

(** The required fields that the manifest lacks, in the order of the
    table. *)
Definition missing_fields (members : gmap (list N) json) : list str :=
  List.filter (λ field, bool_decide (members !! field = None))
    Schema.PLUGIN_JSON_REQUIRED_FIELDS.

(** The required fields that are missing or not a non-empty string. *)
Definition offending_fields (members : gmap (list N) json) : list str :=
  List.filter (λ field, negb (nonempty_str (default JNull (members !! field))))
    Schema.PLUGIN_JSON_REQUIRED_FIELDS.

(** The checks of [validate_plugin], up to the decision it takes from
    them. *)
Definition plugin_checks (rt : runtime) (plugin_dir : path) : M Schema.validator bool :=
  plugin_valid <- ret true ;;
  plugin_valid <- Schema.check_required_files rt plugin_dir (name plugin_dir) plugin_valid ;;
  plugin_valid <- Schema.check_optional_dirs rt plugin_dir (name plugin_dir) plugin_valid ;;
  Schema.check_optional_files rt plugin_dir (name plugin_dir) plugin_valid.

(** The state after [validate_plugin] has taken its decision. *)
Definition decided (plugin_name : str) (r : bool + exn) (st : Schema.validator) : Schema.validator :=
  match r with
  | inl true =>
      {| Schema.errors := Schema.errors st;
         Schema.warnings := Schema.warnings st;
         Schema.validated_plugins := Schema.validated_plugins st ∪ {[ plugin_name ]} |}
  | _ => st
  end.


(** Validating the plugin appends no error, whatever has been reported
    before. *)
Definition produces_no_error (rt : runtime) (plugin_dir : path) : Prop :=
  ∀ st, Schema.errors (final (Schema.validate_plugin rt plugin_dir st)) = Schema.errors st.

(** The directories right under the plugins directory. *)
Definition plugin_dirs (plugins_dir : path) : list path :=
  match target plugins_dir with
  | Some (Dir entries) => List.filter is_dir (entry_path plugins_dir <$> entries)
  | _ => []
  end.

(** A plugin with a good manifest whose optional parts only give rise to
    warnings: an empty [commands/], a skill without [SKILL.md], and an
    [.mcp.json] that cannot be read. *)
Definition plugin_with_warnings : node :=
  Dir [(py ".claude-plugin", Dir [(py "plugin.json", File (Json minimal_manifest))]);
       (py "commands", Dir []);
       (py "skills", Dir [(py "review", Dir [])]);
       (py ".mcp.json", File (Unreadable (py "[Errno 13] Permission denied: '.mcp.json'")))].

(** A plugin without a manifest whose optional parts are checked all the
    same: an empty [commands/] and a hook file that is not JSON. *)
Definition plugin_without_manifest : node :=
  Dir [(py "commands", Dir []);
       (py "hooks", Dir [(py "hooks.json", File (NotJson (py "Expecting value: line 1 column 1 (char 0)") 1))])].


(** A plugins directory with one plugin of each kind. *)
Definition mixed_plugins : path :=
  plugins_root [(py "tidy", plugin_with_warnings); (py "bare", plugin_without_manifest)].


(** The error that aggregates the missing required fields. *)
Definition missing_fields_error (plugin_name : str) (fields : list str) : str :=
  py "[" ++ plugin_name ++ py "] plugin.json missing required fields: "
    ++ join (py ", ") fields.

(** The plugin [foo] with the given manifest and nothing else. *)
Definition plugin_foo (manifest : json) : path :=
  child (plugins_root [(py "foo", manifest_only (Json manifest))]) (py "foo").


(** ** The optional directories and files of a plugin *)

(** The entries of a directory; none for what is not a directory. *)
Definition entries_of (p : path) : list (str * node) :=
  match target p with
  | Some (Dir entries) => entries
  | _ => []
  end.

(** The entry's name ends in the suffix. *)
Definition has_suffix (suffix : str) (e : str * node) : Prop :=
  ∃ stem, e.1 = stem ++ suffix.

Definition is_directory (e : str * node) : bool :=
  match e.2 with
  | Dir _ => true
  | File _ => false
  end.

(** A skill directory without [SKILL.md]. *)
Definition lacks_skill_md (e : str * node) : bool :=
  match e.2 with
  | Dir entries => bool_decide (lookup_entry (py "SKILL.md") entries = None)
  | File _ => true
  end.

(** A hook file that opens and decodes but is not JSON, with the message of
    the decoder. *)
Definition decode_error (e : str * node) : option str :=
  match e.2 with
  | File (NotJson msg _) => Some msg
  | _ => None
  end.

(** A hook entry that can be opened and decoded as text. *)
Definition decodable (e : str * node) : Prop :=
  match e.2 with
  | File (Json _) | File (NotJson _ _) => True
  | _ => False
  end.

(** The [*.json] entries of a directory. *)
Definition json_entries (p : path) : list (str * node) :=
  List.filter (λ e, endswith e.1 (py ".json")) (entries_of p).

Definition no_md_warning (plugin_name dir_name : str) : str :=
  py "[" ++ plugin_name ++ py "] " ++ dir_name
    ++ py "/ directory exists but contains no .md files".

Definition no_json_warning (plugin_name dir_name : str) : str :=
  py "[" ++ plugin_name ++ py "] " ++ dir_name
    ++ py "/ directory exists but contains no .json files".

Definition no_skills_warning (plugin_name : str) : str :=
  py "[" ++ plugin_name ++ py "] skills/ directory exists but contains no skill directories".

Definition missing_skill_md_warning (plugin_name skill_name : str) : str :=
  py "[" ++ plugin_name ++ py "] Skill directory '" ++ skill_name ++ py "' missing SKILL.md".

Definition invalid_hook_error (plugin_name file_name msg : str) : str :=
  py "[" ++ plugin_name ++ py "] Invalid JSON in " ++ file_name ++ py ": " ++ msg.


(** ** A run of the schema validator *)

(** The errors and the warnings that validating one plugin appends. *)
Definition plugin_errors (rt : runtime) (plugin_dir : path) : list str :=
  Schema.errors (final (Schema.validate_plugin rt plugin_dir Schema.init)).

Definition plugin_warnings (rt : runtime) (plugin_dir : path) : list str :=
  Schema.warnings (final (Schema.validate_plugin rt plugin_dir Schema.init)).

(** The same path, resolving to a directory with the given entries. *)
Definition with_entries (p : path) (entries : list (str * node)) : path :=
  {| path_str := path_str p; name := name p; target := Some (Dir entries) |}.


(** ** The manifest schema, stated as a predicate *)

Definition nonempty_string (v : json) : Prop := ∃ s, v = JStr s ∧ s ≠ [].

Definition array_of_strings (v : json) : Prop :=
  ∃ items, v = JArr items ∧ Forall (λ item, ∃ s, item = JStr s) items.

(** A field that, when present, satisfies [P]. *)
Definition optional_field (P : json → Prop) (members : gmap (list N) json) (key : str) : Prop :=
  ∀ v, members !! key = Some v → P v.

Definition required_field (P : json → Prop) (members : gmap (list N) json) (key : str) : Prop :=
  ∃ v, members !! key = Some v ∧ P v.

Definition author_ok (v : json) : Prop :=
  ∃ author,
    v = JObj author
    ∧ required_field nonempty_string author (py "name")
    ∧ optional_field nonempty_string author (py "email")
    ∧ optional_field nonempty_string author (py "url").

Definition manifest_ok (members : gmap (list N) json) : Prop :=
  Forall (required_field nonempty_string members)
    [py "name"; py "version"; py "description"]
  ∧ optional_field author_ok members (py "author")
  ∧ Forall (optional_field nonempty_string members)
      [py "homepage"; py "repository"; py "license"; py "agents"; py "hooks"; py "mcpServers"]
  ∧ optional_field array_of_strings members (py "keywords")
  ∧ optional_field (λ v, (∃ s, v = JStr s) ∨ array_of_strings v) members (py "commands").

(** [m] returns the flag [v && c], whatever the state. *)
Definition computes (c v : bool) (m : M Schema.validator bool) : Prop :=
  ∃ es ws, writes m (inl (v && c)) es ws.

(** The boolean form of [optional_field]. *)
Definition optional_b (f : json → bool) (members : gmap (list N) json) (key : str) : bool :=
  match members !! key with
  | Some v => f v
  | None => true
  end.

Definition author_b (v : json) : bool :=
  match v with
  | JObj author =>
      match author !! py "name" with
      | Some n => nonempty_str n
      | None => false
      end
      && optional_b nonempty_str author (py "email")
      && optional_b nonempty_str author (py "url")
  | _ => false
  end.

Definition keywords_b (v : json) : bool := is_list v && Schema.all_str v.

Definition commands_b (v : json) : bool :=
  (is_list v || is_str v) && negb (is_list v && negb (Schema.all_str v)).


(** [m] returns [a] and leaves the state alone. *)
Definition yields {A} (m : M Schema.validator A) (a : A) : Prop := ∀ st, m st = Done a st.

(** The flag that the optional-field block of [validate_plugin_json] adds. *)
Definition optional_fields_b (members : gmap (list N) json) : bool :=
  optional_b author_b members (py "author")
  && (optional_b nonempty_str members (py "homepage")
  && (optional_b nonempty_str members (py "repository")
  && (optional_b nonempty_str members (py "license")
  && (optional_b keywords_b members (py "keywords")
  && (optional_b commands_b members (py "commands")
  && (optional_b nonempty_str members (py "agents")
  && (optional_b nonempty_str members (py "hooks")
  && (optional_b nonempty_str members (py "mcpServers") && true)))))))).


(** The fields of a manifest that [validate_plugin_json] looks at. *)
Definition known_fields : list str :=
  [py "name"; py "version"; py "description"; py "author"; py "homepage";
   py "repository"; py "license"; py "keywords"; py "commands"; py "agents";
   py "hooks"; py "mcpServers"].


(** ** The tag of a plugin's messages *)

(** The message starts with [[plugin_name]] and a space. *)
Definition tagged (plugin_name msg : str) : Prop :=
  ∃ rest, msg = py "[" ++ plugin_name ++ py "] " ++ rest.

(** Every error and every warning that [m] appends satisfies [Φ]. *)
Definition reports {A} (Φ : str → Prop) (m : M Schema.validator A) : Prop :=
  ∃ r es ws, writes m r es ws ∧ Forall Φ es ∧ Forall Φ ws.

(** ** The error table of the job summary *)

(** [s.index(c)] for a character [c]; [None] stands for the [ValueError]
    that it raises when [c] does not occur in [s]. *)
Fixpoint index (c : N) (s : str) : option nat :=
  match s with
  | [] => None
  | x :: s' => if (x =? c)%N then Some 0 else S <$> index c s'
  end.

(** The two cells that the loop of [generate_github_summary] computes for
    an error before it writes the row [f"| `{plugin}` | {msg} |\n"]:
<<
    if error.startswith('['):
        plugin = error[1:error.index(']')]
        msg = error[error.index(']')+2:]
    else:
        plugin = "Unknown"
        msg = error
>> *)
Definition summary_row (error : str) : option (str * str) :=
  if startswith error (py "[") then
    i ← index 0x5d error;
    let plugin := take (i - 1) (drop 1 error) in
    j ← index 0x5d error;
    let msg := drop (j + 2) error in
    Some (plugin, msg)
  else
    let plugin := py "Unknown" in
    let msg := error in
    Some (plugin, msg).


(** ** Returning and raising *)

(** [m] returns, whatever the state it starts from. *)
Definition returns {A} (m : M Schema.validator A) : Prop :=
  ∃ a es ws, writes m (inl a) es ws.

(** [m] raises, whatever the state it starts from. *)
Definition raises {A} (m : M Schema.validator A) : Prop :=
  ∃ e es ws, writes m (inr e) es ws.


(** ** Manifests that the sync check cannot use *)

(** The text of the exception that [get_plugin_list] catches for an entry
    of the plugins directory, if any: the entry is a directory, its
    manifest exists, and loading it or calling [.get] on it fails. *)
Definition manifest_failure (rt : runtime) (plugin_dir : path) : option str :=
  if is_dir plugin_dir then
    match target (manifest_path plugin_dir) with
    | Some (File (Json (JObj _))) => None
    | Some (File (Json data)) => Some (no_attribute_get_text rt data)
    | Some (File (NotJson msg _)) => Some msg
    | Some (File (Unreadable msg)) => Some msg
    | Some (Dir _) => Some (is_a_directory_text rt (path_str (manifest_path plugin_dir)))
    | None => None
    end
  else None.

Definition manifest_warning (rt : runtime) (plugin_dir : path) : option str :=
  (λ msg, py "Could not read plugin.json for " ++ name plugin_dir ++ py ": " ++ msg)
    <$> manifest_failure rt plugin_dir.


(** ** Plugins whose validation returns *)

(** The [skills] entry of the plugin is not a plain file, and every
    [*.json] entry of its [hooks] directory can be opened and decoded. *)
Definition checkable (plugin_dir : path) : Prop :=
  (∀ c, target (child plugin_dir (py "skills")) ≠ Some (File c))
  ∧ Forall decodable (json_entries (child plugin_dir (py "hooks"))).

(** * Properties *)

(** ** Stepping through a computation *)

Section Steps.
Context {S A B : Type}.

Lemma bind_done (m : M S A) (k : A → M S B) (st st' : S) (a : A) :
  m st = Done a st' → (x <- m ;; k x) st = k a st'.
Proof. unfold bind. by intros ->. Qed.

Lemma bind_raised (m : M S A) (k : A → M S B) (st st' : S) (e : exn) :
  m st = Raised e st' → (x <- m ;; k x) st = Raised e st'.
Proof. unfold bind. by intros ->. Qed.

Lemma bind_ret (a : A) (k : A → M S B) (st : S) : (x <- ret a ;; k x) st = k a st.
Proof. reflexivity. Qed.

End Steps.

(** ** Facts about the string operations *)

Section StringFacts.

Lemma startswith_spec (s p : str) :
  startswith s p = true ↔ ∃ rest, s = p ++ rest.
Proof.
  revert s. induction p as [|a p IH]; intros s; simpl.
  - split; [intros _; by exists s | by destruct s].
  - destruct s as [|b s]; simpl.
    + split; [done | intros [rest Hrest]; discriminate].
    + rewrite andb_true_iff, N.eqb_eq, IH. split.
      * intros [-> [rest ->]]. by exists rest.
      * intros [rest Hrest]. injection Hrest as -> ->. eauto.
Qed.

Lemma contains_spec (needle hay : str) :
  contains needle hay = true ↔ ∃ before after, hay = before ++ needle ++ after.
Proof.
  induction hay as [|c hay IH].
  - change (contains needle []) with (startswith [] needle || false).
    rewrite orb_false_r, startswith_spec. split.
    + intros [rest Hrest]. by exists [], rest.
    + intros [before [after Heq]]. symmetry in Heq.
      apply app_eq_nil in Heq as [-> Heq]. exists after. by rewrite Heq.
  - change (contains needle (c :: hay))
      with (startswith (c :: hay) needle || contains needle hay).
    rewrite orb_true_iff, startswith_spec, IH. split.
    + intros [[rest Hrest] | [before [after Heq]]].
      * by exists [], rest.
      * exists (c :: before), after. by rewrite Heq.
    + intros [[|c' before] [after Heq]].
      * left. by exists after.
      * right. injection Heq as _ ->. by exists before, after.
Qed.

Lemma str_leb_total (a b : str) : str_leb a b = true ∨ str_leb b a = true.
Proof.
  revert b. induction a as [|x a IH]; intros [|y b]; simpl; auto.
  destruct (N.lt_trichotomy x y) as [Hlt | [-> | Hgt]].
  - left. apply orb_true_iff. left. by apply N.ltb_lt.
  - rewrite N.ltb_irrefl, N.eqb_refl. simpl. apply IH.
  - right. apply orb_true_iff. left. by apply N.ltb_lt.
Qed.

Lemma str_leb_trans (a b c : str) :
  str_leb a b = true → str_leb b c = true → str_leb a c = true.
Proof.
  revert b c. induction a as [|x a IH]; intros [|y b] [|z c]; simpl; try done.
  rewrite !orb_true_iff, !andb_true_iff, !N.ltb_lt, !N.eqb_eq.
  intros [Hxy | [-> Hab]] [Hyz | [-> Hbc]]; eauto.
  left. lia.
Qed.

Lemma str_leb_antisym (a b : str) :
  str_leb a b = true → str_leb b a = true → a = b.
Proof.
  revert b. induction a as [|x a IH]; intros [|y b]; simpl; try done.
  rewrite !orb_true_iff, !andb_true_iff, !N.ltb_lt, !N.eqb_eq.
  intros [Hxy | [-> Hab]] [Hyx | [Heq Hba]]; try lia.
  f_equal. by apply IH.
Qed.

#[local] Instance str_le_total : Total str_le.
Proof. intros a b. apply str_leb_total. Qed.

#[local] Instance str_le_trans : Transitive str_le.
Proof. intros a b c. apply str_leb_trans. Qed.

#[local] Instance str_le_antisym : AntiSymm (=) str_le.
Proof. intros a b. apply str_leb_antisym. Qed.

(** [sorted] returns the one sorted arrangement of its argument. *)
Lemma sorted_spec (l : list str) :
  StronglySorted str_le (sorted l) ∧ sorted l ≡ₚ l.
Proof.
  split.
  - apply StronglySorted_merge_sort; apply _.
  - apply merge_sort_Permutation.
Qed.

Lemma sorted_nil_iff (l : list str) : sorted l = [] ↔ l = [].
Proof.
  split.
  - intros Hnil. apply Permutation_nil_r. rewrite <- Hnil.
    symmetry. apply merge_sort_Permutation.
  - intros ->. reflexivity.
Qed.

Lemma split_nonempty (sep : N) (s : str) : split sep s ≠ [].
Proof.
  destruct s as [|c s]; simpl; [done |].
  destruct (c =? sep)%N; [done |]. by destruct (split sep s).
Qed.

End StringFacts.

(** ** Facts about the three patterns and [findall] *)

Section PatternFacts.

Lemma star_inv {R} (cls : N → bool) (k : str → str → option R) (matched s : str) (r : R) :
  Sync.star cls k matched s = Some r →
  ∃ run rest, s = run ++ rest ∧ Forall (λ c, cls c = true) run
              ∧ k (matched ++ run) rest = Some r.
Proof.
  revert matched. induction s as [|c s IH]; intros matched; simpl.
  - intros Hk. exists [], []. split_and!; [done | constructor | by rewrite app_nil_r].
  - destruct (cls c) eqn:Hc.
    + destruct (Sync.star cls k (matched ++ [c]) s) as [r'|] eqn:Hstar.
      * intros [= ->]. apply IH in Hstar as (run & rest & -> & Hrun & Hk).
        exists (c :: run), rest. split_and!; [done | by constructor |].
        by rewrite <- app_assoc in Hk.
      * intros Hk. exists [], (c :: s). split_and!; [done | constructor | by rewrite app_nil_r].
    + intros Hk. exists [], (c :: s). split_and!; [done | constructor | by rewrite app_nil_r].
Qed.

Lemma plus_inv {R} (cls : N → bool) (k : str → str → option R) (s : str) (r : R) :
  Sync.plus cls k s = Some r →
  ∃ run rest, s = run ++ rest ∧ run ≠ [] ∧ Forall (λ c, cls c = true) run
              ∧ k run rest = Some r.
Proof.
  destruct s as [|c s]; simpl; [done |].
  destruct (cls c) eqn:Hc; [| done].
  intros (run & rest & -> & Hrun & Hk)%star_inv.
  exists (c :: run), rest. split_and!; [done | done | by constructor | done].
Qed.

Lemma install_pattern_token (s token rest : str) :
  Sync.install_pattern s = Some (token, rest) →
  token ≠ [] ∧ Forall (λ c, Sync.name_char c = true) token.
Proof.
  unfold Sync.install_pattern.
  intros (s1 & _ & Hplus)%bind_Some.
  apply plus_inv in Hplus as (run & rest' & _ & Hne & Hrun & [= <- <-]). done.
Qed.

Lemma at_pattern_token (s token rest : str) :
  Sync.at_pattern s = Some (token, rest) →
  token ≠ [] ∧ Forall (λ c, Sync.name_char c = true) token.
Proof.
  unfold Sync.at_pattern.
  intros (run & rest' & _ & Hne & Hrun & Hk)%plus_inv.
  apply bind_Some in Hk as (rest'' & _ & [= <- <-]). done.
Qed.

Lemma bold_pattern_token (s display_name rest : str) :
  Sync.bold_pattern s = Some (display_name, rest) →
  display_name ≠ [] ∧ Forall (λ c, Sync.bold_char c = true) display_name.
Proof.
  unfold Sync.bold_pattern.
  intros (s1 & _ & Hplus)%bind_Some.
  apply plus_inv in Hplus as (run & rest1 & _ & Hne & Hrun & Hk).
  apply bind_Some in Hk as (rest2 & _ & Hstar).
  apply star_inv in Hstar as (ws & rest3 & _ & _ & Hk).
  apply bind_Some in Hk as (rest4 & _ & [= <- <-]). done.
Qed.

(** Every string [findall] returns is group 1 of a match somewhere in the
    text. *)
Lemma findall_from_inv (pattern : str → option (str * str)) (skip : nat) (s group : str) :
  group ∈ Sync.findall_from pattern skip s →
  ∃ before at_ rest, s = before ++ at_ ∧ pattern at_ = Some (group, rest).
Proof.
  revert skip. induction s as [|c s IH]; intros skip.
  - destruct skip; simpl; [| by intros ?%elem_of_nil].
    destruct (pattern []) as [[g rest]|] eqn:Hp; [| by intros ?%elem_of_nil].
    intros ->%list_elem_of_singleton. by exists [], [], rest.
  - destruct skip as [|skip]; simpl.
    + destruct (pattern (c :: s)) as [[g rest]|] eqn:Hp.
      * intros [-> | Hin]%elem_of_cons; [by exists [], (c :: s), rest |].
        apply IH in Hin as (before & at_ & rest' & -> & Hat).
        by exists (c :: before), at_, rest'.
      * intros (before & at_ & rest' & -> & Hat)%IH.
        by exists (c :: before), at_, rest'.
    + intros (before & at_ & rest' & -> & Hat)%IH.
      by exists (c :: before), at_, rest'.
Qed.

Lemma findall_inv (pattern : str → option (str * str)) (s group : str) :
  group ∈ Sync.findall pattern s →
  ∃ before at_ rest, s = before ++ at_ ∧ pattern at_ = Some (group, rest).
Proof. apply findall_from_inv. Qed.

(** The captured display names are ASCII, so [lower] is exact on them. *)
Lemma bold_names_ascii (content display_name : str) :
  display_name ∈ Sync.findall Sync.bold_pattern content →
  Forall (λ c, (c < 128)%N) display_name.
Proof.
  intros (before & at_ & rest & _ & [_ Hcls]%bold_pattern_token)%findall_inv.
  eapply Forall_impl; [exact Hcls |].
  intros c. unfold Sync.bold_char, in_range.
  rewrite !orb_true_iff, !andb_true_iff, !N.leb_le, !N.eqb_eq. lia.
Qed.

Lemma foldl_add_kebab (names : list str) (acc : gset (list N)) :
  foldl (λ plugin_names name, plugin_names ∪ {[ replace 0x20 0x2d (lower name) ]}) acc names
  = acc ∪ list_to_set (kebab <$> names).
Proof.
  revert acc. induction names as [|n names IH]; intros acc; simpl.
  - set_solver.
  - rewrite IH. unfold kebab. set_solver.
Qed.

Lemma extract_unfold (content : str) :
  Sync.extract_plugin_names_from_markdown content
  = (list_to_set (Sync.findall Sync.install_pattern content)
     ∪ list_to_set (Sync.findall Sync.at_pattern content)
     ∪ list_to_set (kebab <$> Sync.findall Sync.bold_pattern content))
    ∖ Sync.false_positives.
Proof.
  unfold Sync.extract_plugin_names_from_markdown.
  rewrite foldl_add_kebab. set_solver.
Qed.

End PatternFacts.

(** ** Name extraction from documentation text *)

Section Extraction.

Lemma name_char_token_char (c : N) : Sync.name_char c = true → token_char c.
Proof.
  unfold Sync.name_char, token_char, in_range.
  rewrite !orb_true_iff, !andb_true_iff, !N.leb_le, !N.eqb_eq.
  intros [[[[[[[H|H]|H]|H]|H]|H]|H]|H]; subst; auto 6; do 4 right; set_solver.
Qed.

(** C10. Whatever the text, none of the eight fixed false-positive tokens is
    in the set that the name extraction returns. *)
Theorem extraction_excludes_false_positives (content : str) :
  Forall (λ token, token ∉ Sync.extract_plugin_names_from_markdown content)
    [py "claude-code-marketplace"; py "marketplace"; py "your-org"; py "test";
     py "my-first-plugin"; py "my-plugin"; py "dev-marketplace"; py "plugin-name"].
Proof.
  rewrite extract_unfold. unfold Sync.false_positives.
  repeat constructor; set_solver.
Qed.

(** The tokens are removed even when each pattern family mentions one. *)
Example extraction_drops_mentioned_false_positives :
  elements (Sync.extract_plugin_names_from_markdown
              (py "/plugin install test, my-plugin@1.0 and **Your Org** - a sample"))
  = [].
Proof. vm_compute. reflexivity. Qed.

(** C7, as stated, fails: under [re.IGNORECASE] the set [[a-z0-9-]] also
    matches upper-case letters, and the token is kept as written. *)
Lemma extraction_keeps_upper_case_tokens :
  py "Foo" ∈ Sync.findall Sync.install_pattern (py "/plugin install Foo")
  ∧ py "Bar" ∈ Sync.findall Sync.at_pattern (py "Bar@1.0")
  ∧ py "Foo" ∈ Sync.extract_plugin_names_from_markdown (py "/plugin install Foo")
  ∧ ¬ Forall (λ c, lower_digit_hyphen c = true) (py "Foo")
  ∧ ¬ Forall (λ c, lower_digit_hyphen c = true) (py "Bar").
Proof.
  split_and!.
  - apply (bool_decide_unpack _). vm_compute. exact I.
  - apply (bool_decide_unpack _). vm_compute. exact I.
  - apply (bool_decide_unpack _). vm_compute. exact I.
  - intros H. apply Forall_inv in H. vm_compute in H. discriminate.
  - intros H. apply Forall_inv in H. vm_compute in H. discriminate.
Qed.

(** C7, amended. The extracted set is the union of what the three patterns
    find (the display names of the third in kebab case) minus the fixed
    denylist; a token of the first two patterns is not empty and consists
    of ASCII letters of either case, digits, hyphens and the four folded
    letters. *)
Theorem extraction_is_union_minus_denylist (content : str) :
  Sync.extract_plugin_names_from_markdown content
  = (list_to_set (Sync.findall Sync.install_pattern content)
     ∪ list_to_set (Sync.findall Sync.at_pattern content)
     ∪ list_to_set (kebab <$> Sync.findall Sync.bold_pattern content))
    ∖ {[ py "claude-code-marketplace"; py "marketplace"; py "your-org"; py "test";
         py "my-first-plugin"; py "my-plugin"; py "dev-marketplace"; py "plugin-name" ]}
  ∧ Forall (λ token, token ≠ [] ∧ Forall token_char token)
      (Sync.findall Sync.install_pattern content ++ Sync.findall Sync.at_pattern content).
Proof.
  split; [apply extract_unfold |].
  apply Forall_app. split; apply Forall_forall; intros token Hin.
  - apply findall_inv in Hin as (before & at_ & rest & _ & [Hne Hcls]%install_pattern_token).
    split; [done |]. eapply Forall_impl; [exact Hcls | apply name_char_token_char].
  - apply findall_inv in Hin as (before & at_ & rest & _ & [Hne Hcls]%at_pattern_token).
    split; [done |]. eapply Forall_impl; [exact Hcls | apply name_char_token_char].
Qed.

End Extraction.

(** ** The pull-request check *)

Section PullRequest.

Lemma filter_startswith_nil (prefix_ : str) (l : list str) :
  List.filter (λ f, startswith f prefix_) l = []
  ↔ ¬ ∃ f rest, f ∈ l ∧ f = prefix_ ++ rest.
Proof.
  induction l as [|x l IH]; simpl.
  - split; [| done]. intros _ (f & rest & Hin & _). by apply elem_of_nil in Hin.
  - destruct (startswith x prefix_) eqn:Hx.
    + split; [done |]. intros Hno. exfalso. apply Hno.
      apply startswith_spec in Hx as [rest ->]. exists (prefix_ ++ rest), rest.
      split; [left | done].
    + rewrite IH. split.
      * intros Hno (f & rest & [-> | Hin]%elem_of_cons & Hf).
        -- assert (startswith (prefix_ ++ rest) prefix_ = true) as Ht
             by (apply startswith_spec; eauto).
           congruence.
        -- apply Hno. eauto.
      * intros Hno (f & rest & Hin & Hf). apply Hno. exists f, rest.
        split; [by right | done].
Qed.

(** C4. In GitHub Actions, when the changed-file list could be obtained,
    the check records its error exactly when a changed path starts with
    [plugins/] and neither [README.md] nor [plugins.md] is in the list, and
    otherwise it succeeds without an error; when the diff could not be
    obtained (non-zero exit status or an exception) it succeeds without an
    error. *)
Theorem pr_check_error_iff_undocumented_change (diff : Sync.git_diff) (st : Sync.validator) :
  match changed_file_list diff with
  | Some changed_files =>
      (Sync.validate_on_pr true diff st = Done false (with_pr_error st)
       ↔ undocumented_plugin_change changed_files)
      ∧ (Sync.validate_on_pr true diff st = Done true st
         ↔ ¬ undocumented_plugin_change changed_files)
  | None => Sync.validate_on_pr true diff st = Done true st
  end.
Proof.
  destruct diff as [returncode stdout | e]; [| reflexivity].
  destruct returncode as [|rc|rc]; [| reflexivity | reflexivity].
  unfold changed_file_list, undocumented_plugin_change.
  set (changed_files := split 10 (strip stdout)).
  assert (Sync.validate_on_pr true (Sync.Completed 0 stdout) st
          = if bool_decide (List.filter (λ f, startswith f (py "plugins/")) changed_files = [])
            then Done true st
            else if bool_decide (py "README.md" ∈ changed_files)
                    || bool_decide (py "plugins.md" ∈ changed_files)
                 then Done true st
                 else Done false (with_pr_error st)) as ->.
  { unfold Sync.validate_on_pr, try_except, bind, ret. simpl.
    fold changed_files.
    destruct (bool_decide (List.filter _ changed_files = [])) eqn:Hnil; [done |].
    rewrite orb_false_r.
    apply bool_decide_eq_false in Hnil.
    rewrite (bool_decide_eq_true_2 _ Hnil). simpl.
    by destruct (bool_decide (py "README.md" ∈ changed_files)
                 || bool_decide (py "plugins.md" ∈ changed_files)). }
  case_bool_decide as Hnil.
  - apply filter_startswith_nil in Hnil. split; split; try done; tauto.
  - assert (∃ f rest, f ∈ changed_files ∧ f = py "plugins/" ++ rest) as Hsome.
    { destruct (decide (List.filter (λ f, startswith f (py "plugins/")) changed_files = []))
        as [Hd | Hd]; [done |].
      destruct (List.filter _ changed_files) as [|f fs] eqn:Hf; [done |].
      assert (f ∈ List.filter (λ f, startswith f (py "plugins/")) changed_files) as Hin
        by (rewrite Hf; left).
      apply list_elem_of_In, filter_In in Hin as [Hin Hsw].
      apply startswith_spec in Hsw as [rest ->].
      exists (py "plugins/" ++ rest), rest. by rewrite list_elem_of_In. }
    destruct (bool_decide (py "README.md" ∈ changed_files)) eqn:Hr;
      destruct (bool_decide (py "plugins.md" ∈ changed_files)) eqn:Hp; simpl;
      try apply bool_decide_eq_true in Hr; try apply bool_decide_eq_true in Hp;
      try apply bool_decide_eq_false in Hr; try apply bool_decide_eq_false in Hp;
      split; split; try done; tauto.
Qed.

(** The two scenarios of the specification. *)
Example pr_check_plugin_change_only :
  Sync.validate_on_pr true (Sync.Completed 0 (py "plugins/foo/commands/x.md")) Sync.init
  = Done false {| Sync.errors := [Sync.pr_error_msg]; Sync.warnings := [] |}.
Proof. vm_compute. reflexivity. Qed.

Example pr_check_plugin_and_readme_change :
  Sync.validate_on_pr true
    (Sync.Completed 0 (py "plugins/foo/commands/x.md" ++ [10%N] ++ py "README.md" ++ [10%N]))
    Sync.init
  = Done true Sync.init.
Proof. vm_compute. reflexivity. Qed.

(** Outside GitHub Actions the check is skipped. *)
Lemma pr_check_skipped_outside_ci (diff : Sync.git_diff) (st : Sync.validator) :
  Sync.validate_on_pr false diff st = Done true st.
Proof. reflexivity. Qed.

End PullRequest.

(** ** Which directories the sync check takes as plugins *)

Section PluginList.
Context (rt : runtime).

Lemma manifest_is_object_dec (plugin_dir : path) :
  {manifest_is_object plugin_dir} + {¬ manifest_is_object plugin_dir}.
Proof.
  unfold manifest_is_object.
  destruct (target (manifest_path plugin_dir)) as [[[[]| |]|]|];
    try (right; intros [members [=]]; fail).
  left. eauto.
Qed.

Lemma manifest_is_object_exists (plugin_dir : path) :
  manifest_is_object plugin_dir →
  is_dir plugin_dir = true ∧ exists_ (manifest_path plugin_dir) = true.
Proof.
  intros [members Hm]. split.
  - unfold manifest_path, child in Hm. simpl in Hm. unfold is_dir.
    by destruct (target plugin_dir) as [[]|].
  - unfold exists_. rewrite Hm. by apply bool_decide_eq_true_2.
Qed.

(** One entry: never an exception, at most one warning, and the entry is
    added exactly when its manifest loads as an object. *)
Lemma get_plugin_list_entry_spec (plugin_dir : path)
    (plugins : gmap (list N) Sync.plugin_info) (st : Sync.validator) :
  ∃ plugins' ws,
    Sync.get_plugin_list_entry rt plugin_dir plugins st = Done plugins' (add_warnings st ws)
    ∧ (manifest_is_object plugin_dir → dom plugins' = dom plugins ∪ {[ name plugin_dir ]})
    ∧ (¬ manifest_is_object plugin_dir → plugins' = plugins).
Proof.
  assert (add_warnings st [] = st) as Hid.
  { destruct st. unfold add_warnings. simpl. by rewrite app_nil_r. }
  unfold Sync.get_plugin_list_entry.
  destruct (is_dir plugin_dir) eqn:Hdir; simpl.
  2:{ exists plugins, []. rewrite Hid. split_and!; [done | | done].
      intros [? _]%manifest_is_object_exists. congruence. }
  fold (manifest_path plugin_dir).
  destruct (exists_ (manifest_path plugin_dir)) eqn:Hex; simpl.
  2:{ exists plugins, []. rewrite Hid. split_and!; [done | | done].
      intros [_ ?]%manifest_is_object_exists. congruence. }
  unfold try_except, bind, json_load, manifest_is_object.
  destruct (target (manifest_path plugin_dir)) as [[[data | msg lineno | msg] | entries] |];
    simpl.
  - destruct data; simpl;
      try (eexists plugins, [_]; split_and!;
           [reflexivity | intros [members [=]] | done]; fail).
    eexists _, []. rewrite Hid. split_and!; [reflexivity | | ].
    + intros _. by rewrite dom_insert_L, (comm_L (∪)).
    + intros Hno. exfalso. apply Hno. eauto.
  - eexists plugins, [_]; split_and!; [reflexivity | intros [members [=]] | done].
  - eexists plugins, [_]; split_and!; [reflexivity | intros [members [=]] | done].
  - eexists plugins, [_]; split_and!; [reflexivity | intros [members [=]] | done].
  - eexists plugins, [_]; split_and!; [reflexivity | intros [members [=]] | done].
Qed.

Lemma add_warnings_app (st : Sync.validator) (ws1 ws2 : list str) :
  add_warnings (add_warnings st ws1) ws2 = add_warnings st (ws1 ++ ws2).
Proof. unfold add_warnings. simpl. by rewrite app_assoc. Qed.

Lemma add_warnings_nil (st : Sync.validator) : add_warnings st [] = st.
Proof. destruct st. unfold add_warnings. simpl. by rewrite app_nil_r. Qed.

Lemma get_plugin_list_loop (entries : list path)
    (plugins : gmap (list N) Sync.plugin_info) (st : Sync.validator) :
  ∃ plugins' ws,
    for_in entries (Sync.get_plugin_list_entry rt) plugins st = Done plugins' (add_warnings st ws)
    ∧ ∀ n, n ∈ dom plugins'
           ↔ n ∈ dom plugins ∨ ∃ p, p ∈ entries ∧ name p = n ∧ manifest_is_object p.
Proof.
  revert plugins st. induction entries as [|p entries IH]; intros plugins st; simpl.
  - exists plugins, []. rewrite add_warnings_nil. split; [done |].
    intros n. split; [auto |]. intros [? | (p & ?%elem_of_nil & _)]; done.
  - destruct (get_plugin_list_entry_spec p plugins st) as (plugins1 & ws1 & Hstep & Hyes & Hno).
    unfold bind at 1. rewrite Hstep.
    destruct (IH plugins1 (add_warnings st ws1)) as (plugins' & ws & Hloop & Hdom).
    exists plugins', (ws1 ++ ws). rewrite Hloop, add_warnings_app. split; [done |].
    intros n. rewrite Hdom. destruct (manifest_is_object_dec p) as [Hp | Hp].
    + rewrite (Hyes Hp). rewrite elem_of_union, elem_of_singleton. split.
      * intros [[? | ->] | (q & Hq & Hn & Hobj)]; [by left | |].
        -- right. exists p. split_and!; [left | done | done].
        -- right. exists q. split_and!; [by right | done | done].
      * intros [? | (q & [-> | Hq]%elem_of_cons & Hn & Hobj)]; [by left; left | |].
        -- left. by right.
        -- right. by exists q.
    + rewrite (Hno Hp). split.
      * intros [? | (q & Hq & Hn & Hobj)]; [by left |].
        right. exists q. split_and!; [by right | done | done].
      * intros [? | (q & [-> | Hq]%elem_of_cons & Hn & Hobj)]; [by left | done |].
        right. by exists q.
Qed.

(** [get_plugin_list] on a plugins directory: it returns, it records no
    error, and its keys are the names of the entries whose manifest loads
    as an object. *)
Lemma get_plugin_list_spec (repo : Sync.repository) (entries : list (str * node))
    (st : Sync.validator) :
  target (Sync.plugins_dir repo) = Some (Dir entries) →
  ∃ plugins ws,
    Sync.get_plugin_list rt repo st = Done plugins (add_warnings st ws)
    ∧ ∀ n, n ∈ dom plugins
           ↔ ∃ e, e ∈ entries ∧ e.1 = n
                  ∧ manifest_is_object (entry_path (Sync.plugins_dir repo) e).
Proof.
  intros Hroot. unfold Sync.get_plugin_list, exists_, iterdir. rewrite Hroot.
  rewrite bool_decide_eq_true_2 by eauto. simpl. unfold bind at 1. simpl.
  destruct (get_plugin_list_loop (entry_path (Sync.plugins_dir repo) <$> entries) ∅ st)
    as (plugins & ws & Hloop & Hdom).
  exists plugins, ws. split; [done |].
  intros n. rewrite Hdom, dom_empty_L. split.
  - intros [?%elem_of_empty | (p & (e & -> & He)%list_elem_of_fmap & Hn & Hobj)]; [done |].
    by exists e.
  - intros (e & He & Hn & Hobj). right. exists (entry_path (Sync.plugins_dir repo) e).
    split_and!; [| done | done]. apply list_elem_of_fmap. by exists e.
Qed.

End PluginList.

Section MigratedPlugins.

Lemma NoDup_fst_unique {A B} (l : list (A * B)) (e1 e2 : A * B) :
  NoDup l.*1 → e1 ∈ l → e2 ∈ l → e1.1 = e2.1 → e1 = e2.
Proof.
  induction l as [|e l IH]; simpl; [by intros _ ?%elem_of_nil |].
  intros [Hnotin Hnodup]%NoDup_cons [-> | H1]%elem_of_cons [-> | H2]%elem_of_cons Heq.
  - done.
  - exfalso. apply Hnotin. rewrite Heq. apply list_elem_of_fmap. by exists e2.
  - exfalso. apply Hnotin. rewrite <- Heq. apply list_elem_of_fmap. by exists e1.
  - by apply IH.
Qed.




End MigratedPlugins.

(** ** The documentation sync check *)

Section SyncCheck.
Context (rt : runtime).

Lemma sorted_elements_nil (X : gset (list N)) : sorted (elements X) = [] ↔ X = ∅.
Proof. rewrite sorted_nil_iff, elements_empty_iff. by unfold_leibniz. Qed.

Lemma lists_missing_sorted (plugins : gset (list N)) (content : str) :
  lists_missing plugins content
    (sorted (elements (plugins ∖ Sync.extract_plugin_names_from_markdown content))).
Proof.
  destruct (sorted_spec (elements (plugins ∖ Sync.extract_plugin_names_from_markdown content)))
    as [Hsorted Hperm].
  split_and!; [done | |].
  - rewrite Hperm. apply NoDup_elements.
  - intros n. rewrite Hperm, elem_of_elements. apply elem_of_difference.
Qed.

Lemma catalog_spec (content : str) :
  contains (py "# Plugins") content && negb (contains (py "## Quickstart") content) = true
  ↔ is_catalog content.
Proof.
  unfold is_catalog.
  rewrite andb_true_iff, negb_true_iff, <- not_true_iff_false, !contains_spec. done.
Qed.

(** What either of the two documentation blocks does with the set of
    missing names: one warning when it is not empty. *)
Lemma missing_block (file : str) (missing : gset (list N)) (valid : bool) (st : Sync.validator) :
  (if bool_decide (missing ≠ ∅) then
     Sync.append_warning (Sync.may_be_missing file missing) ;;; ret false
   else ret valid) st
  = Done (valid && bool_decide (sorted (elements missing) = []))
         (add_warnings st (aggregated_warning file (sorted (elements missing)))).
Proof.
  case_bool_decide as Hne.
  - assert (sorted (elements missing) ≠ []) as Hs by (by rewrite sorted_elements_nil).
    rewrite (bool_decide_eq_false_2 _ Hs), andb_false_r.
    unfold Sync.may_be_missing.
    destruct (sorted (elements missing)) as [|n names] eqn:Hnames; [done |].
    reflexivity.
  - assert (sorted (elements missing) = []) as Hs by (by rewrite sorted_elements_nil).
    rewrite Hs, bool_decide_eq_true_2, andb_true_r by done.
    simpl. by rewrite add_warnings_nil.
Qed.

Lemma get_plugin_list_done (repo : Sync.repository) (st st1 : Sync.validator)
    (plugins : gmap (list N) Sync.plugin_info) :
  Sync.get_plugin_list rt repo st = Done plugins st1 →
  Sync.errors st1 = Sync.errors st.
Proof.
  destruct (target (Sync.plugins_dir repo)) as [[content | entries] |] eqn:Hroot.
  - unfold Sync.get_plugin_list, exists_, iterdir. rewrite Hroot.
    rewrite bool_decide_eq_true_2 by eauto. simpl. done.
  - destruct (get_plugin_list_spec rt repo entries st Hroot) as (plugins' & ws & Hrun & _).
    rewrite Hrun. by intros [= _ <-].
  - unfold Sync.get_plugin_list, exists_. rewrite Hroot.
    rewrite bool_decide_eq_false_2 by (by intros [? ?]). simpl. by intros [= _ <-].
Qed.




End SyncCheck.

Section SyncClaims.

(** The sync scenario of the specification: one warning, naming [bar]. *)
Example sync_scenario_warns_about_bar :
  Sync.validate_marketplace_sync cpython sync_scenario Sync.init
  = Done false {| Sync.errors := [];
                  Sync.warnings := [py "README.md may be missing these plugins: bar"] |}.
Proof. vm_compute. reflexivity. Qed.




(** The catalog is checked when there is no [README.md], too. *)
Example catalog_is_checked_without_readme :
  Sync.validate_marketplace_sync cpython
    (with_plugins_md two_manifests (Some (Sync.Text (py "# Plugins")))) Sync.init
  = Done false
      {| Sync.errors := [];
         Sync.warnings :=
           [py "Could not read plugin.json for broken: Expecting value: line 1 column 1 (char 0)";
            py "README.md not found";
            py "plugins.md may be missing these plugins: good"] |}.
Proof. vm_compute. reflexivity. Qed.

(** C9. For a repository whose run without [plugins.md] completes, adding
    a [plugins.md] with the given content changes the run exactly when the
    content contains [# Plugins] and does not contain [## Quickstart]: then
    the set-difference check is made on it (one warning listing the
    plugins it does not mention, if any); otherwise the run is the same as
    without the file. *)
Theorem plugins_md_checked_iff_catalog (rt : runtime) (repo : Sync.repository)
    (content : str) (st st1 st0 : Sync.validator)
    (plugins : gmap (list N) Sync.plugin_info) (b : bool) :
  Sync.get_plugin_list rt repo st = Done plugins st1 →
  Sync.validate_marketplace_sync rt (with_plugins_md repo None) st = Done b st0 →
  ∃ names,
    lists_missing (dom plugins) content names
    ∧ (is_catalog content →
       Sync.validate_marketplace_sync rt (with_plugins_md repo (Some (Sync.Text content))) st
       = Done (b && bool_decide (names = []))
              (add_warnings st0 (aggregated_warning (py "plugins.md") names)))
    ∧ (¬ is_catalog content →
       Sync.validate_marketplace_sync rt (with_plugins_md repo (Some (Sync.Text content))) st
       = Done b st0).
Proof.
  intros Hget Hbase.
  exists (sorted (elements (dom plugins ∖ Sync.extract_plugin_names_from_markdown content))).
  split; [apply lists_missing_sorted |].
  assert (Sync.get_plugin_list rt repo = Sync.get_plugin_list rt (with_plugins_md repo None))
    as Hnone by reflexivity.
  assert (Sync.get_plugin_list rt repo
          = Sync.get_plugin_list rt (with_plugins_md repo (Some (Sync.Text content))))
    as Hsome by reflexivity.
  unfold Sync.validate_marketplace_sync in *.
  rewrite Hnone in Hget. rewrite (bind_done _ _ _ _ _ Hget) in Hbase.
  rewrite <- Hnone, Hsome in Hget. rewrite (bind_done _ _ _ _ _ Hget).
  clear Hnone Hsome Hget.
  case_bool_decide as Hplugins.
  - injection Hbase as <- <-. subst plugins.
    assert (sorted (elements (dom (∅ : gmap (list N) Sync.plugin_info)
              ∖ Sync.extract_plugin_names_from_markdown content)) = []) as ->.
    { apply sorted_elements_nil. set_solver. }
    simpl. by rewrite add_warnings_nil.
  - rewrite bind_ret in Hbase. rewrite bind_ret. simpl in *.
    match type of Hbase with
    | (x <- ?R ;; _) _ = _ => destruct (R st1) as [rv st2 | e st2] eqn:HR
    end.
    2:{ by rewrite (bind_raised _ _ _ _ _ HR) in Hbase. }
    rewrite (bind_done _ _ _ _ _ HR) in Hbase. rewrite (bind_done _ _ _ _ _ HR).
    rewrite !bind_ret in Hbase. injection Hbase as <- <-.
    rewrite bind_ret. split.
    + intros Hcat%catalog_spec.
      erewrite bind_done;
        [| unfold Sync.read; rewrite bind_ret, Hcat; apply missing_block].
      unfold ret. by rewrite andb_true_l, andb_true_r.
    + intros Hcat. rewrite <- catalog_spec in Hcat. apply not_true_is_false in Hcat.
      erewrite bind_done;
        [| unfold Sync.read; rewrite bind_ret, Hcat; reflexivity].
      reflexivity.
Qed.

Lemma plugins_md_checked_iff_catalog_witness :
  ∃ plugins st1 b st0,
    Sync.get_plugin_list cpython sync_scenario Sync.init = Done plugins st1
    ∧ Sync.validate_marketplace_sync cpython (with_plugins_md sync_scenario None) Sync.init
      = Done b st0
    ∧ ∃ names,
        lists_missing (dom plugins) (py "# Plugins") names
        ∧ (is_catalog (py "# Plugins") →
           Sync.validate_marketplace_sync cpython
             (with_plugins_md sync_scenario (Some (Sync.Text (py "# Plugins")))) Sync.init
           = Done (b && bool_decide (names = []))
                  (add_warnings st0 (aggregated_warning (py "plugins.md") names)))
        ∧ (¬ is_catalog (py "# Plugins") →
           Sync.validate_marketplace_sync cpython
             (with_plugins_md sync_scenario (Some (Sync.Text (py "# Plugins")))) Sync.init
           = Done b st0).
Proof.
  eexists _, _, _, _. split; [vm_compute; reflexivity |].
  split; [vm_compute; reflexivity |].
  eapply (plugins_md_checked_iff_catalog cpython sync_scenario (py "# Plugins") Sync.init).
  - vm_compute. reflexivity.
  - vm_compute. reflexivity.
Defined.

(** A catalog that mentions neither plugin, and the same text with a
    [## Quickstart] heading added. *)
Example catalog_is_checked :
  Sync.warnings (final (Sync.validate_marketplace_sync cpython
    (with_plugins_md sync_scenario (Some (Sync.Text (py "# Plugins")))) Sync.init))
  = [py "README.md may be missing these plugins: bar";
     py "plugins.md may be missing these plugins: bar, foo"].
Proof. vm_compute. reflexivity. Qed.

Example quickstart_is_not_checked :
  Sync.warnings (final (Sync.validate_marketplace_sync cpython
    (with_plugins_md sync_scenario (Some (Sync.Text (py "# Plugins and ## Quickstart"))))
    Sync.init))
  = [py "README.md may be missing these plugins: bar"].
Proof. vm_compute. reflexivity. Qed.

End SyncClaims.

(** ** What the methods of the schema validator write *)

Section Writes.

Lemma extend_nil (st : Schema.validator) : extend st [] [] = st.
Proof. destruct st. unfold extend. simpl. by rewrite !app_nil_r. Qed.

Lemma extend_extend (st : Schema.validator) (es1 ws1 es2 ws2 : list str) :
  extend (extend st es1 ws1) es2 ws2 = extend st (es1 ++ es2) (ws1 ++ ws2).
Proof. unfold extend. simpl. by rewrite !app_assoc. Qed.

Lemma writes_ret {A} (a : A) : writes (ret a) (inl a) [] [].
Proof. intros st. by rewrite extend_nil. Qed.

Lemma writes_raise {A} (e : exn) : writes (raise (A := A) e) (inr e) [] [].
Proof. intros st. by rewrite extend_nil. Qed.

Lemma writes_append_error (msg : str) : writes (Schema.append_error msg) (inl tt) [msg] [].
Proof. intros st. unfold Schema.append_error, extend. simpl. by rewrite app_nil_r. Qed.

Lemma writes_append_warning (msg : str) : writes (Schema.append_warning msg) (inl tt) [] [msg].
Proof. intros st. unfold Schema.append_warning, extend. simpl. by rewrite app_nil_r. Qed.

Lemma writes_bind_done {A B} (m : M Schema.validator A) (k : A → M Schema.validator B)
    (a : A) (r : B + exn) (es1 ws1 es2 ws2 : list str) :
  writes m (inl a) es1 ws1 → writes (k a) r es2 ws2 →
  writes (x <- m ;; k x) r (es1 ++ es2) (ws1 ++ ws2).
Proof.
  intros Hm Hk st. unfold bind. rewrite Hm. simpl. by rewrite Hk, extend_extend.
Qed.

Lemma writes_bind_raised {A B} (m : M Schema.validator A) (k : A → M Schema.validator B)
    (e : exn) (es ws : list str) :
  writes m (inr e) es ws → writes (x <- m ;; k x) (inr e) es ws.
Proof. intros Hm st. unfold bind. by rewrite Hm. Qed.

Lemma writes_try_done {A} (body : M Schema.validator A) handler (a : A) (es ws : list str) :
  writes body (inl a) es ws → writes (try_except body handler) (inl a) es ws.
Proof. intros Hb st. unfold try_except. by rewrite Hb. Qed.

Lemma writes_try_caught {A} (body : M Schema.validator A) handler h (e : exn)
    (r : A + exn) (es1 ws1 es2 ws2 : list str) :
  writes body (inr e) es1 ws1 → handler e = Some h → writes h r es2 ws2 →
  writes (try_except body handler) r (es1 ++ es2) (ws1 ++ ws2).
Proof.
  intros Hb Hh Hw st. unfold try_except. rewrite Hb. simpl.
  by rewrite Hh, Hw, extend_extend.
Qed.

Lemma writes_try_uncaught {A} (body : M Schema.validator A) handler (e : exn)
    (es ws : list str) :
  writes body (inr e) es ws → handler e = None →
  writes (try_except body handler) (inr e) es ws.
Proof. intros Hb Hh st. unfold try_except. rewrite Hb. simpl. by rewrite Hh. Qed.

(** What a computation writes is determined by one run. *)
Lemma writes_run {A} (m : M Schema.validator A) (r : A + exn) (es ws : list str) :
  writes m r es ws → m Schema.init = outcome_of r (extend Schema.init es ws).
Proof. intros Hm. apply Hm. Qed.

Lemma writes_unique {A} (m : M Schema.validator A) (r1 r2 : A + exn)
    (es1 ws1 es2 ws2 : list str) :
  writes m r1 es1 ws1 → writes m r2 es2 ws2 → r1 = r2 ∧ es1 = es2 ∧ ws1 = ws2.
Proof.
  intros H1 H2. pose proof (H1 Schema.init) as E1. rewrite (H2 Schema.init) in E1.
  destruct r1, r2; simpl in E1; simplify_eq; done.
Qed.

(** *** Computations that leave the state alone *)

Lemma pure_ret {A} (a : A) : pure (ret a).
Proof. eexists. apply writes_ret. Qed.

Lemma pure_raise {A} (e : exn) : pure (raise (A := A) e).
Proof. eexists. apply writes_raise. Qed.

Lemma pure_py_in (rt : runtime) (key : str) (data : json) : pure (py_in rt key data).
Proof. destruct data; first [apply pure_ret | apply pure_raise]. Qed.

Lemma pure_py_get (rt : runtime) (data : json) (key : str) (d : json) :
  pure (py_get rt data key d).
Proof. destruct data; first [apply pure_ret | apply pure_raise]. Qed.

Lemma pure_py_getitem (rt : runtime) (data : json) (key : str) :
  pure (py_getitem rt data key).
Proof.
  destruct data; simpl; try apply pure_raise.
  destruct (_ !! _); [apply pure_ret | apply pure_raise].
Qed.

Lemma pure_json_load (rt : runtime) (p : path) : pure (json_load rt p).
Proof.
  unfold json_load.
  destruct (target p) as [[[]|]|]; first [apply pure_ret | apply pure_raise].
Qed.

Lemma pure_iterdir (rt : runtime) (p : path) : pure (iterdir rt p).
Proof.
  unfold iterdir.
  destruct (target p) as [[]|]; first [apply pure_ret | apply pure_raise].
Qed.

Lemma pure_quiet {A} (m : M Schema.validator A) : pure m → quiet m.
Proof. intros [r Hr]. by exists r, []. Qed.

(** *** Computations that append warnings only *)

Lemma quiet_ret {A} (a : A) : quiet (ret a).
Proof. apply pure_quiet, pure_ret. Qed.

Lemma quiet_append_warning (msg : str) : quiet (Schema.append_warning msg).
Proof. eexists _, _. apply writes_append_warning. Qed.

Lemma quiet_bind {A B} (m : M Schema.validator A) (k : A → M Schema.validator B) :
  quiet m → (∀ a, quiet (k a)) → quiet (x <- m ;; k x).
Proof.
  intros ([a | e] & ws1 & Hm) Hk.
  - destruct (Hk a) as (r & ws2 & Hka). exists r, (ws1 ++ ws2).
    apply (writes_bind_done m k a r [] ws1 [] ws2); done.
  - exists (inr e), ws1. by apply writes_bind_raised.
Qed.

Lemma quiet_for_in {A B} (l : list A) (body : A → B → M Schema.validator B) (acc : B) :
  (∀ x acc, quiet (body x acc)) → quiet (for_in l body acc).
Proof.
  intros Hbody. revert acc. induction l as [|x l IH]; intros acc; simpl.
  - apply quiet_ret.
  - apply quiet_bind; [apply Hbody | apply IH].
Qed.

(** *** Computations that update a validity flag *)

Section Flagged.
Context (Φ : str → Prop).

Lemma flagged_ret (v : bool) : flagged Φ v (ret v).
Proof. exists (inl v), [], []. split_and!; [apply writes_ret | done | naive_solver]. Qed.

Lemma flagged_error (v : bool) (msg : str) :
  Φ msg → flagged Φ v (Schema.append_error msg ;;; ret false).
Proof.
  intros Hmsg. exists (inl false), [msg], []. split_and!.
  - apply (writes_bind_done _ _ tt (inl false) [msg] [] [] []);
      [apply writes_append_error | apply writes_ret].
  - by constructor.
  - naive_solver.
Qed.

Lemma flagged_bind (v : bool) (m : M Schema.validator bool)
    (k : bool → M Schema.validator bool) :
  flagged Φ v m → (∀ b, flagged Φ b (k b)) → flagged Φ v (x <- m ;; k x).
Proof.
  intros ([b | e] & es1 & ws1 & Hm & HΦ1 & Hflag1) Hk.
  - destruct (Hk b) as (r & es2 & ws2 & Hkb & HΦ2 & Hflag2).
    exists r, (es1 ++ es2), (ws1 ++ ws2). split_and!.
    + by eapply writes_bind_done.
    + by apply Forall_app.
    + destruct r as [b' |]; [| done]. rewrite Hflag2, Hflag1. split.
      * by intros [[-> ->] ->].
      * by intros [-> [-> ->]%app_eq_nil].
  - exists (inr e), es1, ws1. split_and!; [by apply writes_bind_raised | done | done].
Qed.

Lemma flagged_bind_quiet {A} (v : bool) (m : M Schema.validator A)
    (k : A → M Schema.validator bool) :
  quiet m → (∀ a, flagged Φ v (k a)) → flagged Φ v (x <- m ;; k x).
Proof.
  intros ([a | e] & ws1 & Hm) Hk.
  - destruct (Hk a) as (r & es2 & ws2 & Hka & HΦ2 & Hflag2).
    exists r, es2, (ws1 ++ ws2). split_and!; [| done | done].
    by apply (writes_bind_done m k a r [] ws1 es2 ws2).
  - exists (inr e), [], ws1. split_and!; [by apply writes_bind_raised | done | done].
Qed.

Lemma flagged_bind_pure {A} (v : bool) (m : M Schema.validator A)
    (k : A → M Schema.validator bool) :
  pure m → (∀ a, flagged Φ v (k a)) → flagged Φ v (x <- m ;; k x).
Proof. intros Hm. by apply flagged_bind_quiet, pure_quiet. Qed.

(** [ok = m(); if not ok: flag = False] *)
Lemma flagged_call (v : bool) (m : M Schema.validator bool) :
  flagged Φ true m → flagged Φ v (ok <- m ;; ret (if negb ok then false else v)).
Proof.
  intros ([ok | e] & es & ws & Hm & HΦ & Hflag).
  - exists (inl (if negb ok then false else v)), es, ws. split_and!; [| done |].
    + rewrite <- (app_nil_r es), <- (app_nil_r ws).
      eapply writes_bind_done; [done | apply writes_ret].
    + destruct ok; simpl; naive_solver.
  - exists (inr e), es, ws. split_and!; [by apply writes_bind_raised | done | done].
Qed.

(** A handler that turns every exception into an error. *)
Lemma flagged_try_error (v : bool) (body : M Schema.validator bool) handler :
  flagged Φ v body →
  (∀ e, ∃ msg, handler e = Some (Schema.append_error msg ;;; ret false) ∧ Φ msg) →
  flagged Φ v (try_except body handler).
Proof.
  intros ([b | e] & es & ws & Hbody & HΦ & Hflag) Hhandler.
  - exists (inl b), es, ws. split_and!; [by apply writes_try_done | done | done].
  - destruct (Hhandler e) as (msg & Hh & Hmsg).
    exists (inl false), (es ++ [msg]), (ws ++ []). split_and!.
    + eapply writes_try_caught; [done | done |].
      apply (writes_bind_done _ _ tt (inl false) [msg] [] [] []);
        [apply writes_append_error | apply writes_ret].
    + apply Forall_app. split; [done | by constructor].
    + split; [done |]. intros [_ ?%app_eq_nil]. naive_solver.
Qed.

Lemma flagged_for_in {A} (l : list A) (body : A → bool → M Schema.validator bool) (v : bool) :
  (∀ x v, flagged Φ v (body x v)) → flagged Φ v (for_in l body v).
Proof.
  intros Hbody. revert v. induction l as [|x l IH]; intros v; simpl.
  - apply flagged_ret.
  - apply flagged_bind; [apply Hbody | apply IH].
Qed.

(** A flag that is already false stays false. *)
Lemma flagged_false (m : M Schema.validator bool) (r : bool + exn) (es ws : list str) :
  flagged Φ false m → writes m r es ws → r ≠ inl true.
Proof.
  intros (r' & es' & ws' & Hm' & _ & Hflag) Hm ->.
  destruct (writes_unique m _ _ _ _ _ _ Hm' Hm) as (-> & _ & _). naive_solver.
Qed.

End Flagged.

Lemma flagged_weaken (Φ Ψ : str → Prop) (v : bool) (m : M Schema.validator bool) :
  (∀ msg, Φ msg → Ψ msg) → flagged Φ v m → flagged Ψ v m.
Proof.
  intros Himpl (r & es & ws & Hm & HΦ & Hflag). exists r, es, ws.
  split_and!; [done | by eapply Forall_impl | done].
Qed.

End Writes.

(** ** The checks of the schema validator, one by one *)

(** Deciding that an error message is not one of a given shape: both
    start with the plugin's tag, and differ right after it. *)
Lemma tagged_inj (plugin_name a b : str) :
  py "[" ++ plugin_name ++ a = py "[" ++ plugin_name ++ b → a = b.
Proof. intros H. apply app_inv_head in H. by apply app_inv_head in H. Qed.

Ltac cancel_tag H :=
  unfold Schema.must_be_nonempty_string, missing_manifest_error in H;
  apply tagged_inj in H.

Ltac solve_not_required :=
  let field := fresh "field" in
  let Hfield := fresh "Hfield" in
  let Heq := fresh "Heq" in
  intros field Hfield Heq; cancel_tag Heq;
  unfold Schema.PLUGIN_JSON_REQUIRED_FIELDS in Hfield;
  repeat (apply elem_of_cons in Hfield as [-> | Hfield]);
  [vm_compute in Heq; discriminate ..| by apply elem_of_nil in Hfield].

Ltac solve_not_missing :=
  let Heq := fresh "Heq" in
  intros Heq; cancel_tag Heq; vm_compute in Heq; discriminate.

Section SchemaChecks.
Context (rt : runtime).

Lemma pure_bind {A B} (m : M Schema.validator A) (k : A → M Schema.validator B) :
  pure m → (∀ a, pure (k a)) → pure (x <- m ;; k x).
Proof.
  intros [[a | e] Hm] Hk.
  - destruct (Hk a) as [r Hka]. exists r.
    apply (writes_bind_done m k a r [] [] [] []); done.
  - exists (inr e). by apply writes_bind_raised.
Qed.

Lemma pure_for_in {A B} (l : list A) (body : A → B → M Schema.validator B) (acc : B) :
  (∀ x acc, pure (body x acc)) → pure (for_in l body acc).
Proof.
  intros Hbody. revert acc. induction l as [|x l IH]; intros acc; simpl.
  - apply pure_ret.
  - apply pure_bind; [apply Hbody | apply IH].
Qed.

Section Manifest.
Context (data : json) (plugin_name : str).

Lemma check_required_str_flagged (Φ : str → Prop) (field : str) (v : bool) :
  Φ (Schema.must_be_nonempty_string plugin_name field) →
  flagged Φ v (Schema.check_required_str rt data plugin_name field v).
Proof.
  intros Hmsg. unfold Schema.check_required_str.
  apply flagged_bind_pure; [apply pure_py_get |]. intros val.
  destruct (negb (nonempty_str val)); [by apply flagged_error | apply flagged_ret].
Qed.

Lemma check_optional_str_flagged (Φ : str → Prop) (field : str) (v : bool) :
  Φ (Schema.must_be_nonempty_string plugin_name field) →
  flagged Φ v (Schema.check_optional_str rt data plugin_name field v).
Proof.
  intros Hmsg. unfold Schema.check_optional_str.
  apply flagged_bind_pure; [apply pure_py_in |]. intros [|]; [| apply flagged_ret].
  apply flagged_bind_pure; [apply pure_py_getitem |]. intros val.
  destruct (negb (nonempty_str val)); [by apply flagged_error | apply flagged_ret].
Qed.

Lemma validate_author_field_flagged (author : json) :
  flagged (not_required_type_error plugin_name) true
    (Schema.validate_author_field rt author plugin_name).
Proof.
  unfold Schema.validate_author_field.
  destruct (negb (is_dict author)); [apply flagged_error; solve_not_required |].
  apply flagged_bind_pure; [apply pure_py_in |]. intros has_name.
  destruct (negb has_name); [apply flagged_error; solve_not_required |].
  apply flagged_bind_pure; [apply pure_py_getitem |]. intros author_name.
  destruct (negb (nonempty_str author_name)); [apply flagged_error; solve_not_required |].
  apply flagged_bind; [apply flagged_ret |]. intros v0.
  apply flagged_bind_pure; [apply pure_py_in |]. intros has_email.
  apply flagged_bind.
  { destruct has_email; [| apply flagged_ret].
    apply flagged_bind_pure; [apply pure_py_getitem |]. intros val.
    destruct (negb (nonempty_str val));
      [apply flagged_error; solve_not_required | apply flagged_ret]. }
  intros v1.
  apply flagged_bind_pure; [apply pure_py_in |]. intros has_url.
  apply flagged_bind; [| intros v2; apply flagged_ret].
  destruct has_url; [| apply flagged_ret].
  apply flagged_bind_pure; [apply pure_py_getitem |]. intros val.
  destruct (negb (nonempty_str val));
    [apply flagged_error; solve_not_required | apply flagged_ret].
Qed.

Lemma check_author_flagged (v : bool) :
  flagged (not_required_type_error plugin_name) v
    (Schema.check_author rt data plugin_name v).
Proof.
  unfold Schema.check_author.
  apply flagged_bind_pure; [apply pure_py_in |]. intros [|]; [| apply flagged_ret].
  apply flagged_bind_pure; [apply pure_py_getitem |]. intros author.
  apply flagged_call, validate_author_field_flagged.
Qed.

Lemma check_keywords_flagged (v : bool) :
  flagged (not_required_type_error plugin_name) v
    (Schema.check_keywords rt data plugin_name v).
Proof.
  unfold Schema.check_keywords.
  apply flagged_bind_pure; [apply pure_py_in |]. intros [|]; [| apply flagged_ret].
  apply flagged_bind_pure; [apply pure_py_getitem |]. intros val.
  destruct (negb (is_list val)); [apply flagged_error; solve_not_required |].
  destruct (negb (Schema.all_str val));
    [apply flagged_error; solve_not_required | apply flagged_ret].
Qed.

Lemma check_commands_flagged (v : bool) :
  flagged (not_required_type_error plugin_name) v
    (Schema.check_commands rt data plugin_name v).
Proof.
  unfold Schema.check_commands.
  apply flagged_bind_pure; [apply pure_py_in |]. intros [|]; [| apply flagged_ret].
  apply flagged_bind_pure; [apply pure_py_getitem |]. intros val.
  destruct (negb (is_list val || is_str val)); [apply flagged_error; solve_not_required |].
  destruct (is_list val && negb (Schema.all_str val));
    [apply flagged_error; solve_not_required | apply flagged_ret].
Qed.

(** The optional-field block never reports the type error of a required
    field. *)
Lemma check_optional_fields_flagged (v : bool) :
  flagged (not_required_type_error plugin_name) v
    (Schema.check_optional_fields rt data plugin_name v).
Proof.
  unfold Schema.check_optional_fields.
  apply flagged_bind; [apply check_author_flagged |]. intros v1.
  apply flagged_bind; [apply check_optional_str_flagged; solve_not_required |]. intros v2.
  apply flagged_bind; [apply check_optional_str_flagged; solve_not_required |]. intros v3.
  apply flagged_bind; [apply check_optional_str_flagged; solve_not_required |]. intros v4.
  apply flagged_bind; [apply check_keywords_flagged |]. intros v5.
  apply flagged_bind; [apply check_commands_flagged |]. intros v6.
  apply flagged_bind; [apply check_optional_str_flagged; solve_not_required |]. intros v7.
  apply flagged_bind; [apply check_optional_str_flagged; solve_not_required |]. intros v8.
  apply flagged_bind; [apply check_optional_str_flagged; solve_not_required |]. intros v9.
  apply flagged_ret.
Qed.

Lemma check_required_types_flagged (v : bool) :
  flagged (λ _, True) v (Schema.check_required_types rt data plugin_name v).
Proof.
  unfold Schema.check_required_types.
  do 3 (apply flagged_bind; [by apply check_required_str_flagged | intros ?]).
  apply flagged_ret.
Qed.

Lemma validate_manifest_data_flagged :
  flagged (λ _, True) true (Schema.validate_manifest_data rt data plugin_name).
Proof.
  unfold Schema.validate_manifest_data.
  apply flagged_bind_pure.
  { apply pure_for_in. intros field acc.
    apply pure_bind; [apply pure_py_in | intros ?; apply pure_ret]. }
  intros missing. destruct (bool_decide (missing ≠ [])); [by apply flagged_error |].
  apply flagged_bind; [apply flagged_ret |]. intros v0.
  apply flagged_bind; [apply check_required_types_flagged |]. intros v1.
  apply flagged_bind; [| intros v2; apply flagged_ret].
  eapply flagged_weaken; [| apply check_optional_fields_flagged]. done.
Qed.

End Manifest.

Lemma validate_plugin_json_flagged (file_path : path) (plugin_name : str) :
  flagged (λ _, True) true (Schema.validate_plugin_json rt file_path plugin_name).
Proof.
  unfold Schema.validate_plugin_json. apply flagged_try_error.
  - apply flagged_bind_pure; [apply pure_json_load |]. intros data.
    apply validate_manifest_data_flagged.
  - intros [msg lineno | msg]; eexists; split; reflexivity || done.
Qed.

Section Substructure.
Context (plugin_name : str).

Let not_missing (msg : str) : Prop := msg ≠ missing_manifest_error plugin_name.

Lemma validate_mcp_json_flagged (file_path : path) :
  flagged not_missing true (Schema.validate_mcp_json rt file_path plugin_name).
Proof.
  unfold Schema.validate_mcp_json.
  destruct (pure_json_load rt file_path) as [[data | [msg lineno | msg]] Hload].
  - exists (inl true), [], []. split_and!; [| done | done].
    apply writes_try_done.
    apply (writes_bind_done _ _ data (inl true) [] [] [] []); [done | apply writes_ret].
  - eexists (inl false), [_], []. split_and!.
    + eapply (writes_try_caught _ _ _ _ _ [] [] [_] []);
        [by apply writes_bind_raised | reflexivity |].
      apply (writes_bind_done _ _ tt (inl false) [_] [] [] []);
        [apply writes_append_error | apply writes_ret].
    + constructor; [solve_not_missing | done].
    + naive_solver.
  - eexists (inl true), [], [_]. split_and!; [| done | done].
    eapply (writes_try_caught _ _ _ _ _ [] [] [] [_]);
      [by apply writes_bind_raised | reflexivity |].
    apply (writes_bind_done _ _ tt (inl true) [] [_] [] []);
      [apply writes_append_warning | apply writes_ret].
Qed.

Lemma validate_markdown_files_flagged (dir_path : path) (file_type : str) :
  flagged not_missing true
    (Schema.validate_markdown_files dir_path plugin_name file_type).
Proof.
  unfold Schema.validate_markdown_files.
  apply flagged_bind_quiet; [| intros _; apply flagged_ret].
  destruct (bool_decide _); [apply quiet_append_warning | apply quiet_ret].
Qed.

Lemma validate_skills_flagged (skills_dir : path) :
  flagged not_missing true (Schema.validate_skills rt skills_dir plugin_name).
Proof.
  unfold Schema.validate_skills.
  apply flagged_bind_pure; [apply pure_iterdir |]. intros entries.
  destruct (bool_decide _).
  - apply flagged_bind_quiet; [apply quiet_append_warning | intros _; apply flagged_ret].
  - apply flagged_bind_quiet; [| intros _; apply flagged_ret].
    apply quiet_for_in. intros skill_dir [].
    destruct (negb _); [apply quiet_append_warning | apply quiet_ret].
Qed.

Lemma validate_json_files_flagged (dir_path : path) :
  flagged not_missing true (Schema.validate_json_files rt dir_path plugin_name).
Proof.
  unfold Schema.validate_json_files.
  destruct (bool_decide _).
  - apply flagged_bind_quiet; [apply quiet_append_warning | intros _; apply flagged_ret].
  - apply flagged_for_in. intros json_file v.
    destruct (pure_json_load rt json_file) as [[data | [msg lineno | msg]] Hload].
    + exists (inl v), [], []. split_and!; [| done | naive_solver].
      apply writes_try_done.
      apply (writes_bind_done _ _ data (inl v) [] [] [] []); [done | apply writes_ret].
    + eexists (inl false), [_], []. split_and!.
      * eapply (writes_try_caught _ _ _ _ _ [] [] [_] []);
          [by apply writes_bind_raised | reflexivity |].
        apply (writes_bind_done _ _ tt (inl false) [_] [] [] []);
          [apply writes_append_error | apply writes_ret].
      * constructor; [solve_not_missing | done].
      * naive_solver.
    + exists (inr (Exception msg)), [], []. split_and!; [| done | done].
      apply writes_try_uncaught; [by apply writes_bind_raised | reflexivity].
Qed.

Lemma check_optional_dirs_flagged (plugin_dir : path) (v : bool) :
  flagged not_missing v (Schema.check_optional_dirs rt plugin_dir plugin_name v).
Proof.
  unfold Schema.check_optional_dirs. apply flagged_for_in.
  intros [opt_dir description] pv.
  destruct (exists_ _); [| apply flagged_ret].
  repeat (destruct (bool_decide _);
          [apply flagged_call;
           first [apply validate_markdown_files_flagged | apply validate_skills_flagged
                 | apply validate_json_files_flagged] |]).
  apply flagged_ret.
Qed.

Lemma check_optional_files_flagged (plugin_dir : path) (v : bool) :
  flagged not_missing v (Schema.check_optional_files rt plugin_dir plugin_name v).
Proof.
  unfold Schema.check_optional_files. apply flagged_for_in.
  intros [opt_file description] pv.
  destruct (exists_ _); [| apply flagged_ret].
  destruct (bool_decide _); [| apply flagged_ret].
  apply flagged_call, validate_mcp_json_flagged.
Qed.

Lemma check_required_files_flagged (plugin_dir : path) (v : bool) :
  flagged (λ _, True) v (Schema.check_required_files rt plugin_dir plugin_name v).
Proof.
  unfold Schema.check_required_files. apply flagged_for_in.
  intros [req_file description] pv.
  destruct (negb (exists_ _)); [by apply flagged_error |].
  destruct (bool_decide _); [| apply flagged_ret].
  apply flagged_call, validate_plugin_json_flagged.
Qed.

End Substructure.

Lemma plugin_checks_flagged (plugin_dir : path) :
  flagged (λ _, True) true (plugin_checks rt plugin_dir).
Proof.
  unfold plugin_checks.
  apply flagged_bind; [apply flagged_ret |]. intros v0.
  apply flagged_bind; [apply check_required_files_flagged |]. intros v1.
  apply flagged_bind.
  - eapply flagged_weaken; [| apply check_optional_dirs_flagged]. done.
  - intros v2. eapply flagged_weaken; [| apply check_optional_files_flagged]. done.
Qed.

Lemma validate_plugin_unfold (plugin_dir : path) (st : Schema.validator) :
  Schema.validate_plugin rt plugin_dir st
  = (plugin_valid <- plugin_checks rt plugin_dir ;;
     (if plugin_valid then Schema.add_validated (name plugin_dir) else ret tt) ;;;
     ret plugin_valid) st.
Proof.
  unfold Schema.validate_plugin, plugin_checks, bind, ret.
  destruct (Schema.check_required_files rt plugin_dir (name plugin_dir) true st)
    as [v1 st1 |]; [| done].
  destruct (Schema.check_optional_dirs rt plugin_dir (name plugin_dir) v1 st1)
    as [v2 st2 |]; [| done].
  by destruct (Schema.check_optional_files rt plugin_dir (name plugin_dir) v2 st2).
Qed.

(** [validate_plugin] in one piece: what it writes does not depend on the
    state; it returns true exactly when it wrote no error, and then, and
    only then, it adds the plugin to the validated set. *)
Lemma validate_plugin_spec (plugin_dir : path) :
  ∃ r es ws,
    (∀ st, Schema.validate_plugin rt plugin_dir st
           = outcome_of r (decided (name plugin_dir) r (extend st es ws)))
    ∧ match r with
      | inl b => b = true ↔ es = []
      | inr _ => True
      end.
Proof.
  destruct (plugin_checks_flagged plugin_dir) as (r & es & ws & Hchecks & _ & Hflag).
  exists r, es, ws. split.
  - intros st. rewrite validate_plugin_unfold. unfold bind. rewrite Hchecks.
    destruct r as [[|] | e]; reflexivity.
  - destruct r; naive_solver.
Qed.

End SchemaChecks.

(** ** Validity of a plugin *)

Section Validity.
Context (rt : runtime).

Lemma produces_no_error_iff (plugin_dir : path) (r : bool + exn) (es ws : list str) :
  (∀ st, Schema.validate_plugin rt plugin_dir st
         = outcome_of r (decided (name plugin_dir) r (extend st es ws))) →
  produces_no_error rt plugin_dir ↔ es = [].
Proof.
  intros Hrun. unfold produces_no_error. split.
  - intros Hno. specialize (Hno Schema.init). rewrite Hrun in Hno.
    by destruct r as [[|] |].
  - intros -> st. rewrite Hrun. destruct r as [[|] |]; simpl; by rewrite app_nil_r.
Qed.

(** One call of [validate_plugin] that returns. *)
Lemma validate_plugin_done (plugin_dir : path) (st st' : Schema.validator) (b : bool) :
  Schema.validate_plugin rt plugin_dir st = Done b st' →
  (b = true ↔ produces_no_error rt plugin_dir)
  ∧ (b = true ↔ Schema.errors st' = Schema.errors st)
  ∧ Schema.validated_plugins st'
    = (if b then Schema.validated_plugins st ∪ {[ name plugin_dir ]}
       else Schema.validated_plugins st).
Proof.
  destruct (validate_plugin_spec rt plugin_dir) as (r & es & ws & Hrun & Hflag).
  rewrite (produces_no_error_iff plugin_dir r es ws Hrun).
  rewrite Hrun. destruct r as [b' | e]; [| done]. intros [= -> <-].
  split_and!; [done | |].
  - rewrite Hflag. destruct b; simpl.
    + split; [intros ->; by rewrite app_nil_r |].
      intros Heq. apply (app_inv_head (Schema.errors st)). by rewrite app_nil_r.
    + split; [intros ->; by rewrite app_nil_r |].
      intros Heq. apply (app_inv_head (Schema.errors st)). by rewrite app_nil_r.
  - by destruct b.
Qed.

Lemma validate_loop_validated (l : list path) (v b : bool) (st st' : Schema.validator) :
  for_in l
    (λ plugin_dir all_valid,
       ok <- Schema.validate_plugin rt plugin_dir ;;
       ret (if negb ok then false else all_valid)) v st
  = Done b st' →
  ∀ n, n ∈ Schema.validated_plugins st'
       ↔ n ∈ Schema.validated_plugins st
         ∨ ∃ plugin_dir, plugin_dir ∈ l ∧ name plugin_dir = n
                         ∧ produces_no_error rt plugin_dir.
Proof.
  revert v st. induction l as [|d l IH]; intros v st; simpl.
  - intros [= _ <-] n. split; [auto |]. intros [? | (d & ?%elem_of_nil & _)]; done.
  - unfold bind at 1. unfold bind at 1.
    destruct (Schema.validate_plugin rt d st) as [ok st1 | e st1] eqn:Hd; [| done].
    simpl. intros Hloop n.
    destruct (validate_plugin_done d st st1 ok Hd) as (Hok & _ & Hval).
    rewrite (IH _ _ Hloop n), Hval. split.
    + intros [Hn | (d' & Hd' & Hname & Hno)].
      * destruct ok; [| by left].
        apply elem_of_union in Hn as [Hn | ->%elem_of_singleton]; [by left |].
        right. exists d. split_and!; [left | done | by apply Hok].
      * right. exists d'. split_and!; [by right | done | done].
    + intros [Hn | (d' & [-> | Hd']%elem_of_cons & Hname & Hno)].
      * left. destruct ok; [apply elem_of_union |]; auto.
      * left. apply Hok in Hno as ->. apply elem_of_union. right.
        by apply elem_of_singleton.
      * right. by exists d'.
Qed.

(** C5. In a run of the schema validator that completes, a name is in the
    set of validated plugins if and only if it is the name of a plugin
    directory whose validation appended no error; warnings play no part. *)
Theorem validated_iff_no_errors (plugins_dir : path) (b : bool) (st' : Schema.validator) :
  Schema.validate_all_plugins rt plugins_dir Schema.init = Done b st' →
  ∀ n, n ∈ Schema.validated_plugins st'
       ↔ ∃ plugin_dir, plugin_dir ∈ plugin_dirs plugins_dir ∧ name plugin_dir = n
                       ∧ produces_no_error rt plugin_dir.
Proof.
  unfold Schema.validate_all_plugins, plugin_dirs, exists_, iterdir.
  destruct (target plugins_dir) as [[content | entries] |] eqn:Hroot.
  - rewrite bool_decide_eq_true_2 by eauto. done.
  - rewrite bool_decide_eq_true_2 by eauto. simpl. rewrite bind_ret.
    case_bool_decide as Hdirs.
    + rewrite Hdirs. intros [= _ <-] n. simpl. split; [by intros ?%elem_of_empty |].
      by intros (d & ?%elem_of_nil & _).
    + intros Hloop n. rewrite (validate_loop_validated _ _ _ _ _ Hloop n). simpl.
      unfold Schema.sorted_paths. setoid_rewrite merge_sort_Permutation.
      split; [| by right]. intros [?%elem_of_empty | ?]; done.
  - rewrite bool_decide_eq_false_2 by (by intros [? ?]). simpl.
    intros [= _ <-] n. simpl. split; [by intros ?%elem_of_empty |].
    by intros (d & ?%elem_of_nil & _).
Qed.

End Validity.

Section ValidityInstances.

Lemma validated_iff_no_errors_witness :
  ∃ b st',
    Schema.validate_all_plugins cpython mixed_plugins Schema.init = Done b st'
    ∧ ∀ n, n ∈ Schema.validated_plugins st'
           ↔ ∃ plugin_dir, plugin_dir ∈ plugin_dirs mixed_plugins ∧ name plugin_dir = n
                           ∧ produces_no_error cpython plugin_dir.
Proof.
  eexists _, _. split; [vm_compute; reflexivity |].
  eapply (validated_iff_no_errors cpython mixed_plugins).
  vm_compute. reflexivity.
Defined.

(** Three warnings and no error: the plugin is validated. One error: it is
    not, whatever its warnings. *)
Example warnings_do_not_disqualify :
  let o := Schema.validate_all_plugins cpython mixed_plugins Schema.init in
  o = Done false (final o)
  ∧ Schema.warnings (final o)
    = [py "[bare] commands/ directory exists but contains no .md files";
       py "[tidy] commands/ directory exists but contains no .md files";
       py "[tidy] Skill directory 'review' missing SKILL.md";
       py "[tidy] Error reading .mcp.json: [Errno 13] Permission denied: '.mcp.json'"]
  ∧ Schema.errors (final o)
    = [py "[bare] Missing required file: .claude-plugin/plugin.json (Plugin manifest file)";
       py "[bare] Invalid JSON in hooks.json: Expecting value: line 1 column 1 (char 0)"]
  ∧ elements (Schema.validated_plugins (final o)) = [py "tidy"].
Proof. vm_compute. done. Qed.

End ValidityInstances.

(** ** A manifest with the required fields only *)

Section MinimalManifest.

(** C8. A plugin directory that holds nothing but a manifest with exactly
    the fields [name], [version] and [description], each a non-empty
    string, is validated without any error or warning. *)
Theorem minimal_manifest_is_clean (rt : runtime) (plugin_dir : path)
    (n v d : str) (st : Schema.validator) :
  target plugin_dir
  = Some (manifest_only
            (Json (JObj {[ py "name" := JStr n;
                           py "version" := JStr v;
                           py "description" := JStr d ]}))) →
  n ≠ [] → v ≠ [] → d ≠ [] →
  Schema.validate_plugin rt plugin_dir st
  = Done true
      {| Schema.errors := Schema.errors st;
         Schema.warnings := Schema.warnings st;
         Schema.validated_plugins := Schema.validated_plugins st ∪ {[ name plugin_dir ]} |}.
Proof.
  destruct plugin_dir as [ps nm tg]. simpl. intros -> Hn Hv Hd.
  destruct n as [|n0 n]; [done |]. destruct v as [|v0 v]; [done |].
  destruct d as [|d0 d]; [done |]. destruct st as [es ws vp].
  vm_compute. reflexivity.
Qed.

Lemma minimal_manifest_is_clean_witness :
  Schema.validate_plugin cpython (child (plugins_root [(py "foo", manifest_only (Json minimal_manifest))]) (py "foo"))
    Schema.init
  = Done true
      {| Schema.errors := [];
         Schema.warnings := [];
         Schema.validated_plugins := ∅ ∪ {[ py "foo" ]} |}.
Proof.
  apply (minimal_manifest_is_clean cpython
           (child (plugins_root [(py "foo", manifest_only (Json minimal_manifest))]) (py "foo"))
           (py "foo") (py "1.0.0") (py "A plugin") Schema.init);
    [reflexivity | done | done | done].
Defined.

End MinimalManifest.

(** ** A plugin directory without a manifest *)

Section MissingManifest.

(** C3, as stated, fails: the manifest of [bare] is missing, and its
    [commands/] and [hooks/] directories are checked nevertheless, which
    adds a warning and a second error. *)
Lemma missing_manifest_does_not_skip_checks :
  let plugin_dir := child mixed_plugins (py "bare") in
  exists_ (manifest_path plugin_dir) = false
  ∧ Schema.validate_plugin cpython plugin_dir Schema.init
    = Done false
        {| Schema.errors :=
             [py "[bare] Missing required file: .claude-plugin/plugin.json (Plugin manifest file)";
              py "[bare] Invalid JSON in hooks.json: Expecting value: line 1 column 1 (char 0)"];
           Schema.warnings :=
             [py "[bare] commands/ directory exists but contains no .md files"];
           Schema.validated_plugins := ∅ |}.
Proof. split; vm_compute; reflexivity. Qed.

Lemma check_required_files_missing (rt : runtime) (plugin_dir : path) (st : Schema.validator) :
  exists_ (manifest_path plugin_dir) = false →
  Schema.check_required_files rt plugin_dir (name plugin_dir) true st
  = Done false (extend st [missing_manifest_error (name plugin_dir)] []).
Proof.
  intros Hmissing. unfold Schema.check_required_files, Schema.REQUIRED_FILES.
  cbn [for_in].
  change (join_path plugin_dir (py ".claude-plugin/plugin.json"))
    with (manifest_path plugin_dir).
  rewrite Hmissing. cbn [negb].
  unfold bind, ret, Schema.append_error, extend. simpl. by rewrite app_nil_r.
Qed.

(** Once the required-file loop has set the flag to false, the plugin is
    not validated, and what follows is what the optional checks write. *)
Lemma validate_plugin_after_failure (rt : runtime) (plugin_dir : path)
    (st st1 : Schema.validator) :
  Schema.check_required_files rt plugin_dir (name plugin_dir) true st = Done false st1 →
  ∃ r es ws,
    Schema.validate_plugin rt plugin_dir st = outcome_of r (extend st1 es ws)
    ∧ r ≠ inl true
    ∧ Forall (λ msg, msg ≠ missing_manifest_error (name plugin_dir)) es
    ∧ writes (plugin_valid <- Schema.check_optional_dirs rt plugin_dir (name plugin_dir) false ;;
              Schema.check_optional_files rt plugin_dir (name plugin_dir) plugin_valid)
        r es ws.
Proof.
  intros Hrequired.
  assert (flagged (λ msg, msg ≠ missing_manifest_error (name plugin_dir)) false
            (plugin_valid <- Schema.check_optional_dirs rt plugin_dir (name plugin_dir) false ;;
             Schema.check_optional_files rt plugin_dir (name plugin_dir) plugin_valid))
    as (r & es & ws & Hw & HΦ & Hflag).
  { apply flagged_bind; [apply check_optional_dirs_flagged |].
    intros v. apply check_optional_files_flagged. }
  assert (r ≠ inl true) as Hr by (intros ->; naive_solver).
  exists r, es, ws. split_and!; [| done | done | done].
  pose proof (Hw st1) as Hrun.
  unfold Schema.validate_plugin. rewrite bind_ret.
  rewrite (bind_done _ _ _ _ _ Hrequired).
  unfold bind in *.
  destruct (Schema.check_optional_dirs rt plugin_dir (name plugin_dir) false _)
    as [v1 st2 | e1 st2].
  - rewrite Hrun. destruct r as [[|] | e]; simpl; done.
  - rewrite Hrun. destruct r as [[|] | e]; simpl; done.
Qed.

(** C3, amended. When the manifest is missing, [validate_plugin] first
    records the error for the missing file, exactly once, and does not
    validate the plugin; the checks of the optional directories and files
    are not skipped: what they write follows that error, as it would for
    any other plugin. *)
Theorem missing_manifest_is_reported_first (rt : runtime) (plugin_dir : path)
    (st : Schema.validator) :
  exists_ (manifest_path plugin_dir) = false →
  ∃ r es ws,
    Schema.validate_plugin rt plugin_dir st
    = outcome_of r (extend st (missing_manifest_error (name plugin_dir) :: es) ws)
    ∧ r ≠ inl true
    ∧ Forall (λ msg, msg ≠ missing_manifest_error (name plugin_dir)) es
    ∧ writes (plugin_valid <- Schema.check_optional_dirs rt plugin_dir (name plugin_dir) false ;;
              Schema.check_optional_files rt plugin_dir (name plugin_dir) plugin_valid)
        r es ws.
Proof.
  intros Hmissing.
  destruct (validate_plugin_after_failure rt plugin_dir st _
              (check_required_files_missing rt plugin_dir st Hmissing))
    as (r & es & ws & Hrun & Hr & HΦ & Hw).
  exists r, es, ws. split_and!; [| done | done | done].
  by rewrite Hrun, extend_extend.
Qed.

Lemma missing_manifest_is_reported_first_witness :
  ∃ r es ws,
    Schema.validate_plugin cpython (child mixed_plugins (py "bare")) Schema.init
    = outcome_of r (extend Schema.init (missing_manifest_error (py "bare") :: es) ws)
    ∧ r ≠ inl true
    ∧ Forall (λ msg, msg ≠ missing_manifest_error (py "bare")) es
    ∧ writes (plugin_valid <- Schema.check_optional_dirs cpython
                                (child mixed_plugins (py "bare")) (py "bare") false ;;
              Schema.check_optional_files cpython
                (child mixed_plugins (py "bare")) (py "bare") plugin_valid)
        r es ws.
Proof.
  apply (missing_manifest_is_reported_first cpython (child mixed_plugins (py "bare"))
           Schema.init).
  vm_compute. reflexivity.
Defined.

(** With no optional directory or file to check, the missing manifest is
    all there is to report. *)
Example missing_manifest_alone :
  Schema.validate_plugin cpython (child (plugins_root [(py "empty", Dir [])]) (py "empty"))
    Schema.init
  = Done false
      {| Schema.errors :=
           [py "[empty] Missing required file: .claude-plugin/plugin.json (Plugin manifest file)"];
         Schema.warnings := [];
         Schema.validated_plugins := ∅ |}.
Proof. vm_compute. reflexivity. Qed.

End MissingManifest.

(** ** The required fields of a manifest *)

Section RequiredFields.
Context (rt : runtime).

Lemma missing_fields_loop (members : gmap (list N) json) (fields acc : list str)
    (st : Schema.validator) :
  for_in fields
    (λ field missing_fields,
       present <- py_in rt field (JObj members) ;;
       ret (if negb present then missing_fields ++ [field] else missing_fields))
    acc st
  = Done (acc ++ List.filter (λ field, bool_decide (members !! field = None)) fields) st.
Proof.
  revert acc. induction fields as [|field fields IH]; intros acc.
  - simpl. by rewrite app_nil_r.
  - cbn [for_in List.filter]. unfold py_in. unfold bind at 1. unfold bind at 1.
    unfold ret at 1 2. rewrite IH.
    destruct (members !! field) as [val |] eqn:Hfield.
    + rewrite bool_decide_eq_true_2 by eauto.
      by rewrite bool_decide_eq_false_2 by done.
    + rewrite bool_decide_eq_false_2 by (by intros [? ?]).
      rewrite bool_decide_eq_true_2 by done. simpl. by rewrite <- app_assoc.
Qed.

Lemma check_required_str_object (members : gmap (list N) json) (plugin_name field : str)
    (v : bool) (st : Schema.validator) :
  Schema.check_required_str rt (JObj members) plugin_name field v st
  = if nonempty_str (default JNull (members !! field)) then Done v st
    else Done false (extend st [Schema.must_be_nonempty_string plugin_name field] []).
Proof.
  unfold Schema.check_required_str. simpl. rewrite bind_ret.
  destruct (nonempty_str _); simpl; [done |].
  unfold bind, Schema.append_error, ret, extend. simpl. by rewrite app_nil_r.
Qed.

(** The block of the three type checks: one error for each required field
    that is not a non-empty string, in the order of the table. *)
Lemma check_required_types_object (members : gmap (list N) json) (plugin_name : str)
    (st : Schema.validator) :
  Schema.check_required_types rt (JObj members) plugin_name true st
  = Done (bool_decide (offending_fields members = []))
      (extend st (Schema.must_be_nonempty_string plugin_name <$> offending_fields members) []).
Proof.
  unfold Schema.check_required_types, offending_fields, Schema.PLUGIN_JSON_REQUIRED_FIELDS.
  cbn [List.filter].
  unfold bind. rewrite !check_required_str_object.
  destruct (nonempty_str (default JNull (members !! py "name")));
    rewrite ?check_required_str_object;
    destruct (nonempty_str (default JNull (members !! py "version")));
    rewrite ?check_required_str_object;
    destruct (nonempty_str (default JNull (members !! py "description")));
    cbn [negb fmap list_fmap]; rewrite ?extend_extend, ?extend_nil; reflexivity.
Qed.

End RequiredFields.

Section RequiredFieldClaims.

(** C1, as stated, fails. In the manifest [{"name": 1}] all three required
    fields offend ([name] is not a string, the other two are missing), yet
    there is one error, which names the two missing fields only; for the
    empty manifest there is one error for three missing fields. *)
Lemma missing_fields_give_one_error :
  (let members : gmap (list N) json := {[ py "name" := JInt 1 ]} in
   offending_fields members = [py "name"; py "version"; py "description"]
   ∧ Schema.validate_plugin cpython (plugin_foo (JObj members)) Schema.init
     = Done false
         {| Schema.errors :=
              [py "[foo] plugin.json missing required fields: version, description"];
            Schema.warnings := [];
            Schema.validated_plugins := ∅ |})
  ∧ (let members : gmap (list N) json := ∅ in
     offending_fields members = [py "name"; py "version"; py "description"]
     ∧ Schema.validate_plugin cpython (plugin_foo (JObj members)) Schema.init
       = Done false
           {| Schema.errors :=
                [py "[foo] plugin.json missing required fields: name, version, description"];
              Schema.warnings := [];
              Schema.validated_plugins := ∅ |}).
Proof. split; cbv zeta; split; vm_compute; reflexivity. Qed.

(** When all three fields are present the type checks do not short-circuit
    each other. *)
Example type_errors_are_collected :
  Schema.validate_plugin cpython
    (plugin_foo (JObj {[ py "name" := JStr (py ""); py "version" := JInt 1;
                         py "description" := JNull ]}))
    Schema.init
  = Done false
      {| Schema.errors :=
           [py "[foo] plugin.json 'name' must be a non-empty string";
            py "[foo] plugin.json 'version' must be a non-empty string";
            py "[foo] plugin.json 'description' must be a non-empty string"];
         Schema.warnings := [];
         Schema.validated_plugins := ∅ |}.
Proof. vm_compute. reflexivity. Qed.

Context (rt : runtime).

Lemma missing_fields_offend (members : gmap (list N) json) :
  offending_fields members = [] → missing_fields members = [].
Proof.
  unfold offending_fields, missing_fields, Schema.PLUGIN_JSON_REQUIRED_FIELDS.
  cbn [List.filter].
  destruct (members !! py "name"); destruct (members !! py "version");
    destruct (members !! py "description"); simpl;
    repeat (case_bool_decide; try done);
    repeat (destruct (nonempty_str _); try done); done.
Qed.

Lemma validate_manifest_data_missing (members : gmap (list N) json) (plugin_name : str)
    (st : Schema.validator) :
  missing_fields members ≠ [] →
  Schema.validate_manifest_data rt (JObj members) plugin_name st
  = Done false
      (extend st [missing_fields_error plugin_name (missing_fields members)] []).
Proof.
  intros Hmissing. unfold Schema.validate_manifest_data.
  rewrite (bind_done _ _ _ _ _ (missing_fields_loop rt members _ [] st)).
  rewrite app_nil_l. fold (missing_fields members).
  rewrite bool_decide_eq_true_2 by done.
  unfold bind, Schema.append_error, ret, extend, missing_fields_error. simpl.
  by rewrite app_nil_r.
Qed.

Lemma validate_manifest_data_present (members : gmap (list N) json) (plugin_name : str)
    (st : Schema.validator) :
  missing_fields members = [] →
  Schema.validate_manifest_data rt (JObj members) plugin_name st
  = (is_valid <- Schema.check_optional_fields rt (JObj members) plugin_name
                   (bool_decide (offending_fields members = [])) ;;
     ret is_valid)
      (extend st (Schema.must_be_nonempty_string plugin_name <$> offending_fields members) []).
Proof.
  intros Hmissing. unfold Schema.validate_manifest_data.
  rewrite (bind_done _ _ _ _ _ (missing_fields_loop rt members _ [] st)).
  rewrite app_nil_l. fold (missing_fields members). rewrite Hmissing.
  rewrite bool_decide_eq_false_2 by (intros Hne; by apply Hne).
  rewrite bind_ret.
  by rewrite (bind_done _ _ _ _ _ (check_required_types_object rt members plugin_name st)).
Qed.

(** [validate_plugin_json] on a manifest that loads as an object. *)
Lemma validate_plugin_json_object (file_path : path) (members : gmap (list N) json)
    (plugin_name : str) (st : Schema.validator) :
  target file_path = Some (File (Json (JObj members))) →
  (missing_fields members ≠ [] →
   Schema.validate_plugin_json rt file_path plugin_name st
   = Done false (extend st [missing_fields_error plugin_name (missing_fields members)] []))
  ∧ (missing_fields members = [] →
     ∃ b rest ws,
       Schema.validate_plugin_json rt file_path plugin_name st
       = Done b (extend st ((Schema.must_be_nonempty_string plugin_name
                               <$> offending_fields members) ++ rest) ws)
       ∧ Forall (not_required_type_error plugin_name) rest
       ∧ (b = true ↔ offending_fields members = [] ∧ rest = [])).
Proof.
  intros Htarget.
  assert (∀ st : Schema.validator,
            json_load rt file_path st = Done (JObj members) st) as Hload.
  { intros st0. unfold json_load. by rewrite Htarget. }
  split.
  - intros Hmissing. unfold Schema.validate_plugin_json, try_except.
    rewrite (bind_done _ _ _ _ _ (Hload st)).
    by rewrite validate_manifest_data_missing.
  - intros Hpresent. unfold Schema.validate_plugin_json, try_except.
    rewrite (bind_done _ _ _ _ _ (Hload st)).
    rewrite validate_manifest_data_present by done.
    destruct (check_optional_fields_flagged rt (JObj members) plugin_name
                (bool_decide (offending_fields members = [])))
      as (r & es & ws & Hw & HΦ & Hflag).
    unfold bind at 1. rewrite Hw, extend_extend. simpl.
    destruct r as [b | e]; simpl.
    + exists b, es, ws. split_and!; [done | done |].
      rewrite Hflag, bool_decide_eq_true. done.
    + destruct e as [msg lineno | msg]; simpl;
        unfold bind, Schema.append_error, ret; simpl.
      * eexists false, (es ++ [_]), ws. split_and!.
        -- unfold extend. simpl. by rewrite !app_assoc.
        -- apply Forall_app. split; [done |]. constructor; [| done].
           solve_not_required.
        -- split; [done |]. intros [_ ?%app_eq_nil]. naive_solver.
      * eexists false, (es ++ [_]), ws. split_and!.
        -- unfold extend. simpl. by rewrite !app_assoc.
        -- apply Forall_app. split; [done |]. constructor; [| done].
           solve_not_required.
        -- split; [done |]. intros [_ ?%app_eq_nil]. naive_solver.
Qed.

Lemma check_required_files_present (plugin_dir : path) (b : bool) (st st1 : Schema.validator) :
  exists_ (manifest_path plugin_dir) = true →
  Schema.validate_plugin_json rt (manifest_path plugin_dir) (name plugin_dir) st = Done b st1 →
  Schema.check_required_files rt plugin_dir (name plugin_dir) true st = Done b st1.
Proof.
  intros Hexists Hjson. unfold Schema.check_required_files, Schema.REQUIRED_FILES.
  cbn [for_in].
  change (join_path plugin_dir (py ".claude-plugin/plugin.json"))
    with (manifest_path plugin_dir).
  rewrite Hexists. cbn [negb].
  rewrite bool_decide_eq_true_2 by done.
  unfold bind at 1. unfold bind at 1. rewrite Hjson. by destruct b.
Qed.

(** C1, amended. For a manifest that is a JSON object: if required fields
    are missing, there is exactly one error, which lists all the missing
    fields, and the type checks are not made; if the three fields are
    present, there is one error for each of them that is not a non-empty
    string, in the order [name], [version], [description], and the errors
    that follow (for the optional fields) are none of these. Whenever a
    required field is missing or is not a non-empty string, the plugin is
    not added to the validated set. *)
Theorem required_field_errors (plugin_dir : path) (members : gmap (list N) json)
    (st : Schema.validator) :
  target (manifest_path plugin_dir) = Some (File (Json (JObj members))) →
  (missing_fields members ≠ [] →
   Schema.validate_plugin_json rt (manifest_path plugin_dir) (name plugin_dir) st
   = Done false
       (extend st [missing_fields_error (name plugin_dir) (missing_fields members)] []))
  ∧ (missing_fields members = [] →
     ∃ b rest ws,
       Schema.validate_plugin_json rt (manifest_path plugin_dir) (name plugin_dir) st
       = Done b (extend st ((Schema.must_be_nonempty_string (name plugin_dir)
                               <$> offending_fields members) ++ rest) ws)
       ∧ Forall (not_required_type_error (name plugin_dir)) rest
       ∧ (b = true ↔ offending_fields members = [] ∧ rest = []))
  ∧ (offending_fields members ≠ [] →
     Schema.validated_plugins (final (Schema.validate_plugin rt plugin_dir st))
     = Schema.validated_plugins st).
Proof.
  intros Htarget.
  destruct (validate_plugin_json_object (manifest_path plugin_dir) members
              (name plugin_dir) st Htarget) as [Hmissing Hpresent].
  split_and!; [done | done |].
  intros Hoffending.
  assert (∃ es ws,
            Schema.validate_plugin_json rt (manifest_path plugin_dir) (name plugin_dir) st
            = Done false (extend st es ws)) as (es & ws & Hjson).
  { destruct (decide (missing_fields members = [])) as [Hnone | Hsome].
    - destruct (Hpresent Hnone) as (b & rest & ws & Hrun & _ & Hb).
      destruct b; [naive_solver | eauto].
    - eauto. }
  assert (exists_ (manifest_path plugin_dir) = true) as Hexists.
  { unfold exists_. rewrite Htarget. by apply bool_decide_eq_true_2. }
  destruct (validate_plugin_after_failure rt plugin_dir st _
              (check_required_files_present plugin_dir false st _ Hexists Hjson))
    as (r & es' & ws' & Hrun & Hr & _).
  rewrite Hrun. by destruct r as [[|] |].
Qed.

End RequiredFieldClaims.

Lemma required_field_errors_witness :
  let members : gmap (list N) json :=
    {[ py "name" := JStr (py ""); py "version" := JInt 1; py "description" := JNull ]} in
  let plugin_dir := plugin_foo (JObj members) in
  (missing_fields members ≠ [] →
   Schema.validate_plugin_json cpython (manifest_path plugin_dir) (name plugin_dir) Schema.init
   = Done false
       (extend Schema.init
          [missing_fields_error (name plugin_dir) (missing_fields members)] []))
  ∧ (missing_fields members = [] →
     ∃ b rest ws,
       Schema.validate_plugin_json cpython (manifest_path plugin_dir) (name plugin_dir)
         Schema.init
       = Done b (extend Schema.init
                   ((Schema.must_be_nonempty_string (name plugin_dir)
                       <$> offending_fields members) ++ rest) ws)
       ∧ Forall (not_required_type_error (name plugin_dir)) rest
       ∧ (b = true ↔ offending_fields members = [] ∧ rest = []))
  ∧ (offending_fields members ≠ [] →
     Schema.validated_plugins (final (Schema.validate_plugin cpython plugin_dir Schema.init))
     = Schema.validated_plugins Schema.init).
Proof.
  apply (required_field_errors cpython
           (plugin_foo (JObj {[ py "name" := JStr (py ""); py "version" := JInt 1;
                                py "description" := JNull ]}))).
  reflexivity.
Defined.

(** * Further properties of the schema validator *)

#[local] Arguments py : simpl never.

(** ** The optional directories *)

Section OptionalDirectories.

Lemma endswith_spec (s suffix : str) :
  endswith s suffix = true ↔ ∃ stem, s = stem ++ suffix.
Proof.
  unfold endswith. rewrite startswith_spec. split.
  - intros [rest Hrest]. exists (reverse rest).
    apply (inj reverse). by rewrite Hrest, reverse_app, reverse_involutive.
  - intros [stem ->]. exists (reverse stem). by rewrite reverse_app.
Qed.

Lemma glob_suffix_entries (p : path) (suffix : str) :
  glob_suffix p suffix
  = entry_path p <$> List.filter (λ e, endswith e.1 suffix) (entries_of p).
Proof. unfold glob_suffix, entries_of. by destruct (target p) as [[]|]. Qed.

Lemma filter_nil_iff {A} (f : A → bool) (l : list A) :
  List.filter f l = [] ↔ ∀ x, x ∈ l → f x = false.
Proof.
  induction l as [|a l IH]; simpl.
  - split; [intros _ x Hx; by apply elem_of_nil in Hx | done].
  - destruct (f a) eqn:Hfa.
    + split; [done |]. intros Hall. specialize (Hall a (list_elem_of_here _ _)). congruence.
    + rewrite IH. split.
      * intros Hall x [-> | Hx]%elem_of_cons; auto.
      * intros Hall x Hx. apply Hall. by right.
Qed.

(** [validate_markdown_files] never reports an error and always returns
    true; it warns, once, exactly when the directory has no entry whose
    name ends in [.md] (also when it is not a directory at all). *)
Theorem markdown_files_warn_iff_none (dir_path : path) (plugin_name file_type : str)
    (st : Schema.validator) :
  ∃ ws,
    Schema.validate_markdown_files dir_path plugin_name file_type st
    = Done true (extend st [] ws)
    ∧ (ws = [] ∨ ws = [no_md_warning plugin_name (name dir_path)])
    ∧ (ws = [] ↔ ∃ e, e ∈ entries_of dir_path ∧ has_suffix (py ".md") e).
Proof.
  unfold Schema.validate_markdown_files. rewrite glob_suffix_entries.
  destruct (List.filter (λ e, endswith e.1 (py ".md")) (entries_of dir_path))
    as [|e es] eqn:Hfilter.
  - exists [no_md_warning plugin_name (name dir_path)]. split_and!; [| by right |].
    { unfold bind, Schema.append_warning, ret, extend, no_md_warning. simpl.
      by rewrite app_nil_r. }
    split; [done |]. intros (e & He & Hmd%endswith_spec).
    rewrite filter_nil_iff in Hfilter. specialize (Hfilter e He). congruence.
  - exists []. split_and!; [by rewrite extend_nil | by left |].
    split; [| done]. intros _. exists e.
    assert (e ∈ List.filter (λ e, endswith e.1 (py ".md")) (entries_of dir_path)) as Hin
      by (rewrite Hfilter; left).
    apply list_elem_of_In, filter_In in Hin as [Hin Hmd].
    split; [by apply list_elem_of_In | by apply endswith_spec].
Qed.

Lemma filter_is_dir_entries (p : path) (entries : list (str * node)) :
  List.filter is_dir (entry_path p <$> entries)
  = entry_path p <$> List.filter is_directory entries.
Proof.
  induction entries as [|[n x] entries IH]; [done |].
  cbn [fmap list_fmap List.filter].
  assert (is_dir (entry_path p (n, x)) = is_directory (n, x)) as ->
    by (by destruct x).
  destruct (is_directory (n, x)); cbn [fmap list_fmap]; by rewrite IH.
Qed.

Lemma skills_loop (rt : runtime) (p : path) (plugin_name : str) (l : list (str * node))
    (st : Schema.validator) :
  for_in (entry_path p <$> l)
    (λ skill_dir (_ : unit),
       if negb (exists_ (child skill_dir (py "SKILL.md")))
       then Schema.append_warning
              (py "[" ++ plugin_name ++ py "] Skill directory '"
                 ++ name skill_dir ++ py "' missing SKILL.md")
       else ret tt) tt st
  = Done tt
      (extend st []
         ((λ e, missing_skill_md_warning plugin_name e.1) <$> List.filter lacks_skill_md l)).
Proof.
  revert st. induction l as [|[n x] l IH]; intros st.
  - simpl. by rewrite extend_nil.
  - cbn [fmap list_fmap for_in].
    assert (negb (exists_ (child (entry_path p (n, x)) (py "SKILL.md")))
            = lacks_skill_md (n, x)) as ->.
    { unfold exists_, child, lacks_skill_md. cbn [target entry_path snd].
      destruct x as [c | entries]; [done |].
      by destruct (lookup_entry (py "SKILL.md") entries). }
    cbn [List.filter]. destruct (lacks_skill_md (n, x)).
    + unfold bind at 1. unfold Schema.append_warning at 1. rewrite IH.
      cbn [fmap list_fmap]. unfold extend, missing_skill_md_warning. simpl.
      by rewrite !app_nil_r, <- app_assoc.
    + rewrite bind_ret. apply IH.
Qed.

(** [validate_skills] on a [skills] directory: one warning for each
    subdirectory that has no [SKILL.md], in directory order (plain files
    are ignored), or a single warning when there is no subdirectory at
    all; never an error, and the result is true. When [skills] is not a
    directory, listing it raises. *)
Theorem skills_warn_per_directory_without_descriptor (rt : runtime) (skills_dir : path)
    (plugin_name : str) (st : Schema.validator) :
  match target skills_dir with
  | Some (Dir entries) =>
      Schema.validate_skills rt skills_dir plugin_name st
      = Done true
          (extend st []
             (match List.filter is_directory entries with
              | [] => [no_skills_warning plugin_name]
              | skill_dirs =>
                  (λ e, missing_skill_md_warning plugin_name e.1)
                    <$> List.filter lacks_skill_md skill_dirs
              end))
  | Some (File _) =>
      Schema.validate_skills rt skills_dir plugin_name st
      = Raised (Exception (not_a_directory_text rt (path_str skills_dir))) st
  | None =>
      Schema.validate_skills rt skills_dir plugin_name st
      = Raised (Exception (no_such_file_text rt (path_str skills_dir))) st
  end.
Proof.
  unfold Schema.validate_skills, iterdir.
  destruct (target skills_dir) as [[c | entries] |]; [done | | done].
  rewrite bind_ret, filter_is_dir_entries.
  destruct (List.filter is_directory entries) as [|e es] eqn:Hdirs.
  - simpl. unfold bind, Schema.append_warning, ret, extend, no_skills_warning. simpl.
    by rewrite app_nil_r.
  - rewrite bool_decide_eq_false_2 by done.
    by rewrite (bind_done _ _ _ _ _ (skills_loop rt skills_dir plugin_name (e :: es) st)).
Qed.

Lemma hooks_loop (rt : runtime) (p : path) (plugin_name : str) (l : list (str * node))
    (v : bool) (st : Schema.validator) :
  Forall decodable l →
  let errors := omap (λ e, invalid_hook_error plugin_name e.1 <$> decode_error e) l in
  for_in (entry_path p <$> l)
    (λ json_file all_valid,
       try_except
         (json_load rt json_file ;;; ret all_valid)
         (λ e,
            match e with
            | JSONDecodeError _ _ =>
                Some (Schema.append_error
                        (py "[" ++ plugin_name ++ py "] Invalid JSON in "
                           ++ name json_file ++ py ": " ++ exn_str e) ;;;
                      ret false)
            | Exception _ => None
            end)) v st
  = Done (v && bool_decide (errors = [])) (extend st errors []).
Proof.
  intros Hall. revert v st. induction Hall as [|[n x] l Hx Hl IH]; intros v st.
  - simpl. by rewrite extend_nil, andb_true_r.
  - cbn [fmap list_fmap for_in omap list_omap].
    destruct x as [[data | msg lineno | msg] | entries]; try done.
    + unfold bind at 1. unfold try_except at 1, json_load at 1. simpl.
      rewrite IH. done.
    + unfold bind at 1. unfold try_except at 1, json_load at 1. simpl.
      rewrite IH. unfold decode_error at 1. simpl. rewrite andb_false_r.
      unfold extend, invalid_hook_error. simpl. by rewrite !app_nil_r, <- app_assoc.
Qed.

(** [validate_json_files] on a [hooks] directory whose [*.json] entries
    can all be opened and decoded: a single warning when there is none;
    otherwise one error for each of them that is not valid JSON, naming the
    file, in directory order, and the result is true exactly when there is
    no such error. *)
Theorem hook_files_error_per_invalid_json (rt : runtime) (dir_path : path)
    (plugin_name : str) (st : Schema.validator) :
  Forall decodable (json_entries dir_path) →
  let errors :=
    omap (λ e, invalid_hook_error plugin_name e.1 <$> decode_error e)
      (json_entries dir_path) in
  Schema.validate_json_files rt dir_path plugin_name st
  = match json_entries dir_path with
    | [] => Done true (extend st [] [no_json_warning plugin_name (name dir_path)])
    | _ :: _ => Done (bool_decide (errors = [])) (extend st errors [])
    end.
Proof.
  intros Hall errors. unfold Schema.validate_json_files.
  rewrite glob_suffix_entries. fold (json_entries dir_path). subst errors.
  destruct (json_entries dir_path) as [|e es] eqn:Hentries.
  - simpl. unfold bind, Schema.append_warning, ret, extend, no_json_warning. simpl.
    by rewrite app_nil_r.
  - rewrite bool_decide_eq_false_2 by done.
    by rewrite (hooks_loop rt dir_path plugin_name (e :: es) true st Hall).
Qed.

Lemma hook_files_error_per_invalid_json_witness :
  Schema.validate_json_files cpython
    (child (child mixed_plugins (py "bare")) (py "hooks")) (py "bare") Schema.init
  = Done false
      (extend Schema.init
         [py "[bare] Invalid JSON in hooks.json: Expecting value: line 1 column 1 (char 0)"]
         []).
Proof.
  apply (hook_files_error_per_invalid_json cpython
           (child (child mixed_plugins (py "bare")) (py "hooks")) (py "bare") Schema.init).
  vm_compute. repeat constructor.
Defined.

(** A [*.json] entry of [hooks] that cannot be opened or decoded, or that
    is a directory, is not caught: [validate_json_files] raises at the
    first such entry, after the errors of the entries before it. *)
Theorem unreadable_hook_file_raises (rt : runtime) (dir_path : path) (plugin_name : str)
    (before after : list (str * node)) (bad : str * node) (st : Schema.validator) :
  json_entries dir_path = before ++ bad :: after →
  Forall decodable before →
  ¬ decodable bad →
  ∃ msg,
    Schema.validate_json_files rt dir_path plugin_name st
    = Raised (Exception msg)
        (extend st
           (omap (λ e, invalid_hook_error plugin_name e.1 <$> decode_error e) before) []).
Proof.
  intros Hentries Hbefore Hbad. unfold Schema.validate_json_files.
  rewrite glob_suffix_entries. fold (json_entries dir_path). rewrite Hentries.
  rewrite bool_decide_eq_false_2 by (by destruct before).
  rewrite fmap_app.
  assert (∀ {A B} (l1 l2 : list A) (body : A → B → M Schema.validator B) acc st0 acc1 st1,
            for_in l1 body acc st0 = Done acc1 st1 →
            for_in (l1 ++ l2) body acc st0 = for_in l2 body acc1 st1) as Happ.
  { intros A B l1 l2 body. induction l1 as [|x l1 IH]; intros acc st0 acc1 st1; simpl.
    - by intros [= -> ->].
    - unfold bind. destruct (body x acc st0) as [acc' st' |]; [apply IH | done]. }
  rewrite (Happ _ _ _ _ _ _ _ _ _ (hooks_loop rt dir_path plugin_name before true st Hbefore)).
  cbn [fmap list_fmap for_in]. destruct bad as [n x].
  destruct x as [[data | msg lineno | msg] | entries]; try (by destruct Hbad).
  - exists msg. unfold bind, try_except, json_load. simpl. done.
  - eexists. unfold bind, try_except, json_load. simpl. done.
Qed.

Lemma unreadable_hook_file_raises_witness :
  ∃ msg,
    Schema.validate_json_files cpython
      (entry_path mixed_plugins
         (py "hooks", Dir [(py "a.json", File (Json JNull));
                           (py "b.json", File (Unreadable (py "denied")))]))
      (py "p") Schema.init
    = Raised (Exception msg) (extend Schema.init [] []).
Proof.
  apply (unreadable_hook_file_raises cpython
           (entry_path mixed_plugins
              (py "hooks", Dir [(py "a.json", File (Json JNull));
                                (py "b.json", File (Unreadable (py "denied")))]))
           (py "p") [(py "a.json", File (Json JNull))] []
           (py "b.json", File (Unreadable (py "denied"))) Schema.init).
  - vm_compute. reflexivity.
  - repeat constructor.
  - intros H. exact H.
Defined.

End OptionalDirectories.

(** ** A whole run *)

#[local] Instance path_le_total : Total Schema.path_le.
Proof. intros p q. apply str_leb_total. Qed.

#[local] Instance path_le_trans : Transitive Schema.path_le.
Proof. intros p q r. apply str_leb_trans. Qed.

Section Run.
Context (rt : runtime).

Lemma plugin_report (plugin_dir : path) (r : bool + exn) (es ws : list str) :
  (∀ st, Schema.validate_plugin rt plugin_dir st
         = outcome_of r (decided (name plugin_dir) r (extend st es ws))) →
  plugin_errors rt plugin_dir = es ∧ plugin_warnings rt plugin_dir = ws.
Proof.
  intros Hrun. unfold plugin_errors, plugin_warnings. rewrite Hrun.
  by destruct r as [[|] |].
Qed.

Lemma validate_loop_report (l : list path) (v b : bool) (st st' : Schema.validator) :
  for_in l
    (λ plugin_dir all_valid,
       ok <- Schema.validate_plugin rt plugin_dir ;;
       ret (if negb ok then false else all_valid)) v st
  = Done b st' →
  Schema.errors st' = Schema.errors st ++ concat (plugin_errors rt <$> l)
  ∧ Schema.warnings st' = Schema.warnings st ++ concat (plugin_warnings rt <$> l)
  ∧ (b = true ↔ v = true ∧ Forall (λ d, plugin_errors rt d = []) l)
  ∧ Forall (λ d, ∃ ok st1, Schema.validate_plugin rt d Schema.init = Done ok st1) l.
Proof.
  revert v st. induction l as [|d l IH]; intros v st.
  - simpl. intros [= -> <-]. rewrite !app_nil_r. split_and!; try done.
    split; [done | by intros [-> _]].
  - cbn [for_in fmap list_fmap concat].
    destruct (validate_plugin_spec rt d) as (r & es & ws & Hrun & Hflag).
    destruct (plugin_report d r es ws Hrun) as [Hes Hws]. rewrite Hes, Hws.
    unfold bind at 1. unfold bind at 1. rewrite Hrun.
    destruct r as [ok | e]; [| done]. simpl. intros Hloop.
    destruct (IH _ _ Hloop) as (Herrors & Hwarnings & Hb & Hall).
    split_and!.
    + rewrite Herrors. destruct ok; simpl; by rewrite app_assoc.
    + rewrite Hwarnings. destruct ok; simpl; by rewrite app_assoc.
    + rewrite Hb, Forall_cons, Hes. destruct ok; simpl.
      * split; [intros [-> Hl]; split_and!; [done | by apply Hflag | done] |].
        by intros (-> & _ & Hl).
      * split; [by intros [? _] |]. intros (_ & Hnil & _). by apply Hflag in Hnil.
    + constructor; [| done]. rewrite Hrun. simpl. eauto.
Qed.

Lemma validate_all_plugins_report (plugins_dir : path) (entries : list (str * node))
    (st st' : Schema.validator) (b : bool) :
  target plugins_dir = Some (Dir entries) →
  Schema.validate_all_plugins rt plugins_dir st = Done b st' →
  ∃ dirs,
    dirs ≡ₚ plugin_dirs plugins_dir
    ∧ StronglySorted (λ p q, str_le (name p) (name q)) dirs
    ∧ Schema.errors st' = Schema.errors st ++ concat (plugin_errors rt <$> dirs)
    ∧ (dirs ≠ [] →
       Schema.warnings st' = Schema.warnings st ++ concat (plugin_warnings rt <$> dirs))
    ∧ (b = true ↔ Forall (λ d, plugin_errors rt d = []) dirs)
    ∧ Forall (λ d, ∃ ok st1, Schema.validate_plugin rt d Schema.init = Done ok st1) dirs.
Proof.
  intros Hroot. unfold Schema.validate_all_plugins, plugin_dirs, exists_, iterdir.
  rewrite Hroot. rewrite bool_decide_eq_true_2 by eauto. cbn [negb]. rewrite bind_ret.
  set (dirs := List.filter is_dir (entry_path plugins_dir <$> entries)).
  case_bool_decide as Hdirs.
  - rewrite Hdirs. intros [= <- <-]. exists []. simpl.
    rewrite app_nil_r. split_and!; try done. constructor.
  - intros Hloop. exists (Schema.sorted_paths dirs).
    destruct (validate_loop_report _ _ _ _ _ Hloop) as (Herrors & Hwarnings & Hb & Hall).
    split_and!; try done.
    + apply merge_sort_Permutation.
    + apply (StronglySorted_merge_sort Schema.path_le).
    + rewrite Hb. naive_solver.
Qed.

(** When the plugins directory exists and the run completes, the plugins
    have been validated one after the other in the order of their names:
    the errors and the warnings of the run are those of the plugins,
    concatenated in that order; the run returns true exactly when no
    plugin has an error; and every plugin's validation returns. *)
Theorem run_reports_plugins_in_name_order (plugins_dir : path) (entries : list (str * node))
    (st st' : Schema.validator) (b : bool) :
  target plugins_dir = Some (Dir entries) →
  Schema.validate_all_plugins rt plugins_dir st = Done b st' →
  ∃ dirs,
    dirs ≡ₚ plugin_dirs plugins_dir
    ∧ StronglySorted (λ p q, str_le (name p) (name q)) dirs
    ∧ Schema.errors st' = Schema.errors st ++ concat (plugin_errors rt <$> dirs)
    ∧ (dirs ≠ [] →
       Schema.warnings st' = Schema.warnings st ++ concat (plugin_warnings rt <$> dirs))
    ∧ (b = true ↔ Forall (λ d, plugin_errors rt d = []) dirs)
    ∧ Forall (λ d, ∃ ok st1, Schema.validate_plugin rt d Schema.init = Done ok st1) dirs.
Proof. apply validate_all_plugins_report. Qed.

Lemma concat_fmap_nil {A B} (f : A → list B) (l : list A) :
  concat (f <$> l) = [] ↔ Forall (λ x, f x = []) l.
Proof.
  induction l as [|x l IH]; cbn [fmap list_fmap concat].
  - split; [constructor | done].
  - rewrite Forall_cons, <- IH. split; [apply app_eq_nil | by intros [-> ->]].
Qed.

(** The run returns true exactly when it has appended no error. *)
Theorem run_passes_iff_no_error (plugins_dir : path) (st st' : Schema.validator) (b : bool) :
  Schema.validate_all_plugins rt plugins_dir st = Done b st' →
  (b = true ↔ Schema.errors st' = Schema.errors st).
Proof.
  destruct (target plugins_dir) as [[c | entries] |] eqn:Hroot.
  - unfold Schema.validate_all_plugins, exists_, iterdir. rewrite Hroot.
    rewrite bool_decide_eq_true_2 by eauto. done.
  - intros Hrun.
    destruct (validate_all_plugins_report plugins_dir entries st st' b Hroot Hrun)
      as (dirs & _ & _ & Herrors & _ & Hb & _).
    rewrite Hb, Herrors, <- concat_fmap_nil. split.
    + intros ->. by rewrite app_nil_r.
    + intros Heq. apply (app_inv_head (Schema.errors st)). by rewrite app_nil_r.
  - unfold Schema.validate_all_plugins, exists_. rewrite Hroot.
    rewrite bool_decide_eq_false_2 by (by intros [? ?]). simpl.
    unfold bind, Schema.append_error, ret. simpl. intros [= <- <-]. simpl.
    split; [done |]. intros Heq. apply (f_equal length) in Heq.
    rewrite length_app in Heq. simpl in Heq. lia.
Qed.

End Run.

Lemma run_reports_plugins_in_name_order_witness :
  ∃ b st',
    Schema.validate_all_plugins cpython mixed_plugins Schema.init = Done b st'
    ∧ ∃ dirs,
        dirs ≡ₚ plugin_dirs mixed_plugins
        ∧ StronglySorted (λ p q, str_le (name p) (name q)) dirs
        ∧ Schema.errors st'
          = Schema.errors Schema.init ++ concat (plugin_errors cpython <$> dirs)
        ∧ (dirs ≠ [] →
           Schema.warnings st'
           = Schema.warnings Schema.init ++ concat (plugin_warnings cpython <$> dirs))
        ∧ (b = true ↔ Forall (λ d, plugin_errors cpython d = []) dirs)
        ∧ Forall (λ d, ∃ ok st1,
                    Schema.validate_plugin cpython d Schema.init = Done ok st1) dirs.
Proof.
  eexists _, _. split; [vm_compute; reflexivity |].
  eapply (run_reports_plugins_in_name_order cpython mixed_plugins _ Schema.init).
  - reflexivity.
  - vm_compute. reflexivity.
Defined.

Lemma run_passes_iff_no_error_witness :
  ∃ b st',
    Schema.validate_all_plugins cpython mixed_plugins Schema.init = Done b st'
    ∧ (b = true ↔ Schema.errors st' = Schema.errors Schema.init).
Proof.
  eexists _, _. split; [vm_compute; reflexivity |].
  eapply (run_passes_iff_no_error cpython mixed_plugins Schema.init).
  vm_compute. reflexivity.
Defined.

Section RunOrder.
Context (rt : runtime).

Lemma filter_Permutation_bool {A} (f : A → bool) (l1 l2 : list A) :
  l1 ≡ₚ l2 → List.filter f l1 ≡ₚ List.filter f l2.
Proof.
  induction 1 as [|x l1 l2 _ IH | x y l | l1 l2 l3 _ IH1 _ IH2]; simpl.
  - done.
  - destruct (f x); by rewrite IH.
  - destruct (f x), (f y); try done. apply perm_swap.
  - by rewrite IH1.
Qed.

(** The order in which the operating system lists the plugins directory
    does not matter: with distinct entry names, two listings of the same
    entries give the same run. *)
Theorem run_independent_of_listing_order (plugins_dir : path)
    (entries entries' : list (str * node)) (st : Schema.validator) :
  entries ≡ₚ entries' →
  NoDup entries.*1 →
  Schema.validate_all_plugins rt (with_entries plugins_dir entries) st
  = Schema.validate_all_plugins rt (with_entries plugins_dir entries') st.
Proof.
  intros Hperm Hnodup.
  unfold Schema.validate_all_plugins, exists_, iterdir. cbn [target with_entries].
  rewrite !bool_decide_eq_true_2 by eauto. cbn [negb]. rewrite !bind_ret.
  rewrite !filter_is_dir_entries.
  set (f := entry_path (with_entries plugins_dir entries)).
  change (entry_path (with_entries plugins_dir entries')) with f.
  assert (f <$> List.filter is_directory entries ≡ₚ f <$> List.filter is_directory entries')
    as Hdirs by (by apply fmap_Permutation, filter_Permutation_bool).
  assert (Schema.sorted_paths (f <$> List.filter is_directory entries)
          = Schema.sorted_paths (f <$> List.filter is_directory entries')) as Hsorted.
  { apply (StronglySorted_unique_strong Schema.path_le).
    - intros x1 x2 Hx1 Hx2 H12 H21.
      unfold Schema.sorted_paths in Hx1, Hx2.
      rewrite merge_sort_Permutation in Hx1. rewrite merge_sort_Permutation in Hx2.
      rewrite <- Hdirs in Hx2.
      apply list_elem_of_fmap in Hx1 as (e1 & -> & He1).
      apply list_elem_of_fmap in Hx2 as (e2 & -> & He2).
      apply list_elem_of_In, filter_In in He1 as [He1%list_elem_of_In _].
      apply list_elem_of_In, filter_In in He2 as [He2%list_elem_of_In _].
      f_equal. apply (NoDup_fst_unique entries); [done | done | done |].
      apply str_leb_antisym; [exact H12 | exact H21].
    - apply (StronglySorted_merge_sort Schema.path_le).
    - apply (StronglySorted_merge_sort Schema.path_le).
    - unfold Schema.sorted_paths. by rewrite !merge_sort_Permutation. }
  rewrite Hsorted.
  destruct (List.filter is_directory entries) as [|e es] eqn:H1;
    destruct (List.filter is_directory entries') as [|e' es'] eqn:H2; try done.
  - apply Permutation_nil_l in Hdirs. done.
  - symmetry in Hdirs. apply Permutation_nil_l in Hdirs. done.
Qed.

(** An exception in the validation of one plugin is caught nowhere: the
    whole run raises. *)
Theorem plugin_exception_aborts_run (plugins_dir plugin_dir : path) (e : exn)
    (st_d st : Schema.validator) :
  plugin_dir ∈ plugin_dirs plugins_dir →
  Schema.validate_plugin rt plugin_dir Schema.init = Raised e st_d →
  ∃ e' st', Schema.validate_all_plugins rt plugins_dir st = Raised e' st'.
Proof.
  intros Hin Hraised.
  destruct (Schema.validate_all_plugins rt plugins_dir st) as [b st' | e' st'] eqn:Hrun;
    [| eauto].
  exfalso. unfold plugin_dirs in Hin.
  destruct (target plugins_dir) as [[c | entries] |] eqn:Hroot;
    try (by apply elem_of_nil in Hin).
  destruct (validate_all_plugins_report rt plugins_dir entries st st' b Hroot Hrun)
    as (dirs & Hperm & _ & _ & _ & _ & Hall).
  unfold plugin_dirs in Hperm. rewrite Hroot in Hperm. rewrite <- Hperm in Hin.
  rewrite Forall_forall in Hall. destruct (Hall _ Hin) as (ok & st1 & Hdone). congruence.
Qed.

End RunOrder.

Lemma run_independent_of_listing_order_witness :
  Schema.validate_all_plugins cpython
    (with_entries mixed_plugins
       [(py "tidy", plugin_with_warnings); (py "bare", plugin_without_manifest)])
    Schema.init
  = Schema.validate_all_plugins cpython
      (with_entries mixed_plugins
         [(py "bare", plugin_without_manifest); (py "tidy", plugin_with_warnings)])
      Schema.init.
Proof.
  apply (run_independent_of_listing_order cpython mixed_plugins).
  - apply perm_swap.
  - apply (bool_decide_unpack _). vm_compute. exact I.
Defined.

Lemma plugin_exception_aborts_run_witness :
  ∃ e' st',
    Schema.validate_all_plugins cpython
      (plugins_root [(py "a", manifest_only (Json minimal_manifest));
                     (py "b", Dir [(py "skills", File (Json JNull))])])
      Schema.init
    = Raised e' st'.
Proof.
  eapply (plugin_exception_aborts_run cpython _
            (child (plugins_root [(py "a", manifest_only (Json minimal_manifest));
                                  (py "b", Dir [(py "skills", File (Json JNull))])])
               (py "b"))).
  - vm_compute. right. left.
  - vm_compute. reflexivity.
Defined.

(** ** The paths of a run lie below the plugins directory *)

Section PathsOfARun.

(** A plugin directory of the plugins directory, and the manifest in it,
    have the path of the plugins directory as a proper prefix of theirs:
    these are the paths for which [relative_to(self.plugins_dir.parent)]
    returns. *)
Lemma plugin_paths_below_plugins_dir (plugins_dir plugin_dir : path) :
  plugin_dir ∈ plugin_dirs plugins_dir →
  path_str plugin_dir = path_str plugins_dir ++ py "/" ++ name plugin_dir
  ∧ path_str (manifest_path plugin_dir)
    = path_str plugins_dir ++ py "/" ++ name plugin_dir ++ py "/.claude-plugin/plugin.json".
Proof.
  unfold plugin_dirs. destruct (target plugins_dir) as [[c | entries] |];
    try (by intros ?%elem_of_nil).
  intros [(e & -> & _)%list_elem_of_In%list_elem_of_fmap _]%list_elem_of_In%filter_In.
  split; [reflexivity |].
  unfold manifest_path, child, entry_path. cbn [path_str name].
  by rewrite <- !app_assoc.
Qed.

End PathsOfARun.

(** ** The manifest checks as a schema *)

Section ManifestSchema.
Context (rt : runtime).

Lemma computes_ret (v : bool) : computes true v (ret v).
Proof. exists [], []. rewrite andb_true_r. apply writes_ret. Qed.

Lemma computes_bind (c1 c2 v : bool) (m : M Schema.validator bool)
    (k : bool → M Schema.validator bool) :
  computes c1 v m → (∀ b, computes c2 b (k b)) → computes (c1 && c2) v (x <- m ;; k x).
Proof.
  intros (es1 & ws1 & Hm) Hk. destruct (Hk (v && c1)) as (es2 & ws2 & Hk').
  exists (es1 ++ es2), (ws1 ++ ws2). rewrite andb_assoc.
  by eapply writes_bind_done.
Qed.

Lemma computes_bind_yields {A} (c v : bool) (m : M Schema.validator A) (a : A)
    (k : A → M Schema.validator bool) :
  yields m a → computes c v (k a) → computes c v (x <- m ;; k x).
Proof.
  intros Hm (es & ws & Hk). exists es, ws. intros st. unfold bind. rewrite Hm. apply Hk.
Qed.

Lemma computes_error (v : bool) (msg : str) :
  computes false v (Schema.append_error msg ;;; ret false).
Proof.
  exists [msg], []. rewrite andb_false_r.
  apply (writes_bind_done _ _ tt (inl false) [msg] [] [] []);
    [apply writes_append_error | apply writes_ret].
Qed.

Lemma computes_eq (c c' v : bool) (m : M Schema.validator bool) :
  c = c' → computes c v m → computes c' v m.
Proof. by intros ->. Qed.

Lemma yields_ret {A} (a : A) : yields (ret a) a.
Proof. done. Qed.

Lemma yields_py_in (members : gmap (list N) json) (key : str) :
  yields (py_in rt key (JObj members)) (bool_decide (is_Some (members !! key))).
Proof. done. Qed.

Lemma yields_py_getitem (members : gmap (list N) json) (key : str) (v : json) :
  members !! key = Some v → yields (py_getitem rt (JObj members) key) v.
Proof. intros Hv st. unfold py_getitem. by rewrite Hv. Qed.

(** [if key in data: check(data[key])] *)
Lemma computes_when_present (members : gmap (list N) json) (key : str) (f : json → bool)
    (v : bool) (check : json → M Schema.validator bool) :
  (∀ val, computes (f val) v (check val)) →
  computes (optional_b f members key) v
    (present <- py_in rt key (JObj members) ;;
     if present then val <- py_getitem rt (JObj members) key ;; check val else ret v).
Proof.
  intros Hcheck. eapply computes_bind_yields; [apply yields_py_in |].
  unfold optional_b. destruct (members !! key) as [val |] eqn:Hkey.
  - rewrite bool_decide_eq_true_2 by eauto.
    eapply computes_bind_yields; [by apply yields_py_getitem | apply Hcheck].
  - rewrite bool_decide_eq_false_2 by (by intros [? ?]). apply computes_ret.
Qed.

Lemma nonempty_check_computes (plugin_name label : str) (val : json) (v : bool) :
  computes (nonempty_str val) v
    (if negb (nonempty_str val) then
       Schema.append_error (Schema.must_be_nonempty_string plugin_name label) ;;; ret false
     else ret v).
Proof. destruct (nonempty_str val); [apply computes_ret | apply computes_error]. Qed.

Section Object.
Context (members : gmap (list N) json) (plugin_name : str).

Lemma check_optional_str_computes (field : str) (v : bool) :
  computes (optional_b nonempty_str members field) v
    (Schema.check_optional_str rt (JObj members) plugin_name field v).
Proof.
  unfold Schema.check_optional_str. apply computes_when_present.
  intros val. apply nonempty_check_computes.
Qed.

Lemma check_keywords_computes (v : bool) :
  computes (optional_b keywords_b members (py "keywords")) v
    (Schema.check_keywords rt (JObj members) plugin_name v).
Proof.
  unfold Schema.check_keywords. apply computes_when_present.
  intros val. unfold keywords_b.
  destruct (is_list val); [| apply computes_error].
  destruct (Schema.all_str val); [apply computes_ret | apply computes_error].
Qed.

Lemma check_commands_computes (v : bool) :
  computes (optional_b commands_b members (py "commands")) v
    (Schema.check_commands rt (JObj members) plugin_name v).
Proof.
  unfold Schema.check_commands. apply computes_when_present.
  intros val. unfold commands_b.
  destruct (is_list val || is_str val); [| apply computes_error].
  destruct (is_list val && negb (Schema.all_str val));
    [apply computes_error | apply computes_ret].
Qed.

End Object.

Lemma validate_author_field_computes (author : json) (plugin_name : str) :
  computes (author_b author) true (Schema.validate_author_field rt author plugin_name).
Proof.
  unfold Schema.validate_author_field, author_b.
  destruct author as [| | | | | |a]; try apply computes_error.
  cbn [is_dict negb].
  eapply computes_bind_yields; [apply yields_py_in |].
  destruct (a !! py "name") as [n |] eqn:Hname.
  2:{ rewrite bool_decide_eq_false_2 by (by intros [? ?]). apply computes_error. }
  rewrite bool_decide_eq_true_2 by eauto. cbn [negb].
  eapply computes_bind_yields; [by apply yields_py_getitem |].
  destruct (nonempty_str n); [| apply computes_error]. cbn [negb andb].
  eapply computes_bind_yields; [apply yields_ret |].
  eapply computes_bind_yields; [apply yields_py_in |].
  apply computes_bind.
  { pose proof (computes_when_present a (py "email") nonempty_str true
                  (λ val, if negb (nonempty_str val) then
                            Schema.append_error
                              (Schema.must_be_nonempty_string plugin_name (py "author.email")) ;;;
                            ret false
                          else ret true)
                  (λ val, nonempty_check_computes plugin_name (py "author.email") val true))
      as (es & ws & Hw).
    exists es, ws. intros st. specialize (Hw st).
    unfold bind at 1 in Hw. rewrite yields_py_in in Hw. exact Hw. }
  intros v. eapply computes_bind_yields; [apply yields_py_in |].
  eapply (computes_eq (_ && true)); [apply andb_true_r |].
  apply computes_bind; [| intros b; apply computes_ret].
  pose proof (computes_when_present a (py "url") nonempty_str v
                (λ val, if negb (nonempty_str val) then
                          Schema.append_error
                            (Schema.must_be_nonempty_string plugin_name (py "author.url")) ;;;
                          ret false
                        else ret v)
                (λ val, nonempty_check_computes plugin_name (py "author.url") val v))
    as (es & ws & Hw).
  exists es, ws. intros st. specialize (Hw st).
  unfold bind at 1 in Hw. rewrite yields_py_in in Hw. exact Hw.
Qed.

Section Object2.
Context (members : gmap (list N) json) (plugin_name : str).

Lemma check_author_computes (v : bool) :
  computes (optional_b author_b members (py "author")) v
    (Schema.check_author rt (JObj members) plugin_name v).
Proof.
  unfold Schema.check_author. apply computes_when_present.
  intros author.
  destruct (validate_author_field_computes author plugin_name) as (es & ws & Hw).
  exists es, ws. rewrite <- (app_nil_r es), <- (app_nil_r ws).
  eapply writes_bind_done; [exact Hw |].
  cbn [andb]. destruct (author_b author); cbn [negb].
  - rewrite andb_true_r. apply writes_ret.
  - rewrite andb_false_r. apply writes_ret.
Qed.

Lemma check_optional_fields_computes (v : bool) :
  computes (optional_fields_b members) v (Schema.check_optional_fields rt (JObj members) plugin_name v).
Proof.
  unfold Schema.check_optional_fields, optional_fields_b.
  apply computes_bind; [apply check_author_computes | intros ?].
  apply computes_bind; [apply check_optional_str_computes | intros ?].
  apply computes_bind; [apply check_optional_str_computes | intros ?].
  apply computes_bind; [apply check_optional_str_computes | intros ?].
  apply computes_bind; [apply check_keywords_computes | intros ?].
  apply computes_bind; [apply check_commands_computes | intros ?].
  apply computes_bind; [apply check_optional_str_computes | intros ?].
  apply computes_bind; [apply check_optional_str_computes | intros ?].
  apply computes_bind; [apply check_optional_str_computes | intros ?].
  apply computes_ret.
Qed.

End Object2.

(** *** The boolean conditions and the schema *)

Lemma nonempty_str_spec (v : json) : nonempty_str v = true ↔ nonempty_string v.
Proof.
  unfold nonempty_string. destruct v as [| | | |s| |]; simpl;
    try (split; [done | by intros (s & [=] & _)]).
  destruct s as [|c s]; simpl.
  - split; [done |]. by intros (s' & [= <-] & Hne).
  - split; [| done]. intros _. by exists (c :: s).
Qed.

Lemma optional_b_spec (f : json → bool) (P : json → Prop)
    (members : gmap (list N) json) (key : str) :
  (∀ v, f v = true ↔ P v) →
  optional_b f members key = true ↔ optional_field P members key.
Proof.
  intros Hf. unfold optional_b, optional_field.
  destruct (members !! key) as [val |].
  - rewrite Hf. split; [by intros HP v [= <-] | auto].
  - split; [done | auto].
Qed.

Lemma forallb_is_str (items : list json) :
  forallb is_str items = true ↔ Forall (λ item, ∃ s, item = JStr s) items.
Proof.
  induction items as [|item items IH]; simpl.
  - split; [constructor | done].
  - rewrite andb_true_iff, Forall_cons, IH.
    assert (is_str item = true ↔ ∃ s, item = JStr s) as ->; [| done].
    destruct item; simpl; split; try done; eauto; by intros [s [=]].
Qed.

Lemma keywords_b_spec (v : json) : keywords_b v = true ↔ array_of_strings v.
Proof.
  unfold keywords_b, array_of_strings. destruct v as [| | | | |items|]; simpl;
    try (split; [done | by intros (items & [=] & _)]).
  rewrite forallb_is_str. split; [eauto |]. by intros (items' & [= <-] & Hall).
Qed.

Lemma commands_b_spec (v : json) :
  commands_b v = true ↔ (∃ s, v = JStr s) ∨ array_of_strings v.
Proof.
  rewrite <- keywords_b_spec. unfold commands_b, keywords_b.
  destruct v as [| | | |s|items|]; simpl;
    try (split; [done | by intros [[s [=]] | ?]]).
  - split; [eauto | done].
  - rewrite negb_involutive. split; [by right | by intros [[s [=]] | ?]].
Qed.

Lemma author_b_spec (v : json) : author_b v = true ↔ author_ok v.
Proof.
  unfold author_b, author_ok. destruct v as [| | | | | |a];
    try (split; [done | by intros (a & [=] & _)]).
  rewrite !andb_true_iff, !(optional_b_spec _ _ _ _ nonempty_str_spec).
  unfold required_field. split.
  - intros [[Hname Hemail] Hurl]. exists a. split_and!; try done.
    destruct (a !! py "name") as [n |]; [| done]. exists n.
    by rewrite <- nonempty_str_spec.
  - intros (a' & [= <-] & (n & Hn & Hname) & Hemail & Hurl). split_and!; try done.
    rewrite Hn. by apply nonempty_str_spec.
Qed.

Lemma offending_fields_nil (members : gmap (list N) json) :
  offending_fields members = []
  ↔ Forall (required_field nonempty_string members)
      [py "name"; py "version"; py "description"].
Proof.
  unfold offending_fields, Schema.PLUGIN_JSON_REQUIRED_FIELDS.
  rewrite filter_nil_iff. rewrite Forall_forall. unfold required_field.
  split; intros Hall field Hfield; specialize (Hall field Hfield).
  - apply negb_false_iff, nonempty_str_spec in Hall.
    destruct (members !! field) as [val |]; [by exists val |].
    by destruct Hall as (s & [=] & _).
  - destruct Hall as (val & -> & Hval). by apply negb_false_iff, nonempty_str_spec.
Qed.

Lemma optional_fields_b_spec (members : gmap (list N) json) :
  optional_fields_b members = true
  ↔ optional_field author_ok members (py "author")
    ∧ Forall (optional_field nonempty_string members)
        [py "homepage"; py "repository"; py "license"; py "agents"; py "hooks";
         py "mcpServers"]
    ∧ optional_field array_of_strings members (py "keywords")
    ∧ optional_field (λ v, (∃ s, v = JStr s) ∨ array_of_strings v) members (py "commands").
Proof.
  unfold optional_fields_b.
  rewrite !andb_true_iff, !Forall_cons, Forall_nil.
  rewrite !(optional_b_spec _ _ _ _ nonempty_str_spec),
    (optional_b_spec _ _ _ _ author_b_spec), (optional_b_spec _ _ _ _ keywords_b_spec),
    (optional_b_spec _ _ _ _ commands_b_spec).
  tauto.
Qed.

(** The manifest checks implement the schema: for the manifest of a
    plugin directory of the plugins directory that is a JSON object,
    [validate_plugin_json] returns, and returns true exactly when the
    object satisfies [manifest_ok], which is also exactly when it has
    appended no error. *)
Theorem manifest_accepted_iff_schema (plugins_dir plugin_dir : path)
    (members : gmap (list N) json) (st : Schema.validator) :
  plugin_dir ∈ plugin_dirs plugins_dir →
  target (manifest_path plugin_dir) = Some (File (Json (JObj members))) →
  ∃ b st',
    Schema.validate_plugin_json rt (manifest_path plugin_dir) (name plugin_dir) st
    = Done b st'
    ∧ (b = true ↔ manifest_ok members)
    ∧ (b = true ↔ Schema.errors st' = Schema.errors st).
Proof.
  intros _. generalize (manifest_path plugin_dir), (name plugin_dir).
  intros file_path plugin_name Htarget.
  assert (∃ b es ws,
            Schema.validate_plugin_json rt file_path plugin_name st
            = Done b (extend st es ws)
            ∧ (b = true ↔ manifest_ok members)) as (b & es & ws & Hrun & Hb).
  { destruct (validate_plugin_json_object rt file_path members plugin_name st Htarget)
      as [Hmissing _].
    destruct (decide (missing_fields members = [])) as [Hnone | Hsome].
    - assert (∀ st : Schema.validator,
                json_load rt file_path st = Done (JObj members) st) as Hload.
      { intros st0. unfold json_load. by rewrite Htarget. }
      destruct (check_optional_fields_computes members plugin_name
                  (bool_decide (offending_fields members = []))) as (es & ws & Hw).
      eexists _, _, _. split.
      + unfold Schema.validate_plugin_json, try_except.
        rewrite (bind_done _ _ _ _ _ (Hload st)).
        rewrite (validate_manifest_data_present rt members plugin_name st Hnone).
        unfold bind at 1. rewrite Hw. simpl. rewrite extend_extend. reflexivity.
      + unfold manifest_ok.
        rewrite andb_true_iff, bool_decide_eq_true, offending_fields_nil,
          optional_fields_b_spec. tauto.
    - eexists false, _, _. split; [by apply Hmissing |].
      split; [done |]. intros [Hrequired _]. exfalso. apply Hsome.
      apply missing_fields_offend. by apply offending_fields_nil. }
  exists b, (extend st es ws). split_and!; [done | done |].
  destruct (validate_plugin_json_flagged rt file_path plugin_name)
    as (r & es' & ws' & Hw & _ & Hflag).
  rewrite Hw in Hrun. destruct r as [b' |]; [| done]. simpl in Hrun.
  injection Hrun as -> Hst. rewrite Hflag.
  assert (es' = es) as ->.
  { by apply app_inv_head in Hst. }
  simpl. split.
  - intros [_ ->]. by rewrite app_nil_r.
  - intros Heq. split; [done |]. apply (app_inv_head (Schema.errors st)).
    by rewrite app_nil_r.
Qed.

End ManifestSchema.

Lemma manifest_accepted_iff_schema_witness :
  ∃ b st',
    Schema.validate_plugin_json cpython (manifest_path (plugin_foo minimal_manifest))
      (py "foo") Schema.init
    = Done b st'
    ∧ (b = true
       ↔ manifest_ok {[ py "name" := JStr (py "foo");
                        py "version" := JStr (py "1.0.0");
                        py "description" := JStr (py "A plugin") ]})
    ∧ (b = true ↔ Schema.errors st' = Schema.errors Schema.init).
Proof.
  apply (manifest_accepted_iff_schema cpython
           (plugins_root [(py "foo", manifest_only (Json minimal_manifest))])
           (plugin_foo minimal_manifest)).
  - vm_compute. left.
  - reflexivity.
Defined.


(** ** A manifest that is not an object *)

Section ManifestFile.
Context (rt : runtime).

Lemma validate_manifest_data_not_object (data : json) (plugin_name : str)
    (st : Schema.validator) :
  is_dict data = false →
  (∃ msg, Schema.validate_manifest_data rt data plugin_name st
          = Done false (extend st [msg] []))
  ∨ (∃ msg, Schema.validate_manifest_data rt data plugin_name st = Raised (Exception msg) st).
Proof.
  intros Hdata.
  assert (∀ (b1 b2 b3 : bool) ,
    (∃ msg,
      (missing_fields <-
         (present <- ret b1 ;;
          let acc1 := (if negb present then [] ++ [py "name"] else []) in
          present <- ret b2 ;;
          let acc2 := (if negb present then acc1 ++ [py "version"] else acc1) in
          present <- ret b3 ;;
          ret (if negb present then acc2 ++ [py "description"] else acc2)) ;;
       if bool_decide (missing_fields ≠ []) then
         Schema.append_error (py "[" ++ plugin_name ++ py "] plugin.json missing required fields: "
                    ++ join (py ", ") missing_fields) ;;;
         ret false
       else
         is_valid <- ret true ;;
         is_valid <- Schema.check_required_types rt data plugin_name is_valid ;;
         is_valid <- Schema.check_optional_fields rt data plugin_name is_valid ;;
         ret is_valid) st
      = Done false (extend st [msg] []))
    ∨ (∃ msg,
      (missing_fields <-
         (present <- ret b1 ;;
          let acc1 := (if negb present then [] ++ [py "name"] else []) in
          present <- ret b2 ;;
          let acc2 := (if negb present then acc1 ++ [py "version"] else acc1) in
          present <- ret b3 ;;
          ret (if negb present then acc2 ++ [py "description"] else acc2)) ;;
       if bool_decide (missing_fields ≠ []) then
         Schema.append_error (py "[" ++ plugin_name ++ py "] plugin.json missing required fields: "
                    ++ join (py ", ") missing_fields) ;;;
         ret false
       else
         is_valid <- ret true ;;
         is_valid <- Schema.check_required_types rt data plugin_name is_valid ;;
         is_valid <- Schema.check_optional_fields rt data plugin_name is_valid ;;
         ret is_valid) st
      = Raised (Exception msg) st)) as Hcases.
  { intros b1 b2 b3.
    assert (Schema.check_required_types rt data plugin_name true st
            = Raised (Exception (no_attribute_get_text rt data)) st) as Htypes.
    { unfold Schema.check_required_types, Schema.check_required_str, py_get, bind.
      by destruct data. }
    destruct b1, b2, b3; unfold bind at 1; unfold bind at 1; unfold bind, ret; cbn [negb app];
      try (left; eexists; rewrite bool_decide_eq_true_2 by done;
           unfold Schema.append_error, extend; simpl; by rewrite app_nil_r).
    right. rewrite bool_decide_eq_false_2 by (intros H; by apply H).
    rewrite Htypes. eauto. }
  unfold Schema.validate_manifest_data, Schema.PLUGIN_JSON_REQUIRED_FIELDS.
  cbn [for_in]. unfold py_in.
  destruct data as [| b | z | f | s | items | members]; try done;
    try (right; eexists; reflexivity).
  - destruct (Hcases (contains (py "name") s) (contains (py "version") s)
                (contains (py "description") s)) as [[msg H] | [msg H]]; [left | right];
      exists msg; rewrite <- H; reflexivity.
  - set (has := λ key, existsb (λ v, match v with JStr s => bool_decide (s = key) | _ => false end) items).
    destruct (Hcases (has (py "name")) (has (py "version")) (has (py "description")))
      as [[msg H] | [msg H]]; [left | right]; exists msg; rewrite <- H; reflexivity.
Qed.

(** For a plugin directory of the plugins directory, a manifest that does
    not load as a JSON object -- invalid JSON, a file that cannot be read,
    a directory, or JSON of another type -- is rejected with exactly one
    error and no warning, and [validate_plugin_json] returns. *)
Theorem manifest_not_object_gives_one_error (plugins_dir plugin_dir : path)
    (st : Schema.validator) :
  plugin_dir ∈ plugin_dirs plugins_dir →
  (∀ members, target (manifest_path plugin_dir) ≠ Some (File (Json (JObj members)))) →
  ∃ msg,
    Schema.validate_plugin_json rt (manifest_path plugin_dir) (name plugin_dir) st
    = Done false (extend st [msg] []).
Proof.
  intros _. generalize (manifest_path plugin_dir), (name plugin_dir).
  intros file_path plugin_name Hnot.
  unfold Schema.validate_plugin_json, try_except, json_load.
  destruct (target file_path) as [[[data | msg lineno | msg] | entries] |];
    try (eexists; unfold bind, raise, Schema.append_error, ret, extend; simpl;
         by rewrite app_nil_r).
  rewrite bind_ret.
  assert (is_dict data = false) as Hdata.
  { destruct data; try done. by destruct (Hnot members). }
  destruct (validate_manifest_data_not_object data plugin_name st Hdata)
    as [[msg ->] | [msg ->]]; [by exists msg |].
  eexists. unfold bind, Schema.append_error, ret, extend. simpl. by rewrite app_nil_r.
Qed.

End ManifestFile.

Lemma manifest_not_object_gives_one_error_witness :
  ∃ msg,
    Schema.validate_plugin_json cpython
      (manifest_path (plugin_foo (JArr [JStr (py "name"); JStr (py "version");
                                        JStr (py "description")])))
      (py "foo") Schema.init
    = Done false (extend Schema.init [msg] []).
Proof.
  apply (manifest_not_object_gives_one_error cpython
           (plugins_root
              [(py "foo",
                manifest_only (Json (JArr [JStr (py "name"); JStr (py "version");
                                           JStr (py "description")])))])
           (plugin_foo (JArr [JStr (py "name"); JStr (py "version");
                              JStr (py "description")]))).
  - vm_compute. left.
  - intros members. vm_compute. discriminate.
Defined.

(** ** Fields outside the schema *)

Section UnknownFields.
Context (rt : runtime).

Lemma validate_manifest_data_agree (m1 m2 : gmap (list N) json) (plugin_name : str) :
  (∀ key, key ∈ known_fields → m1 !! key = m2 !! key) →
  Schema.validate_manifest_data rt (JObj m1) plugin_name
  = Schema.validate_manifest_data rt (JObj m2) plugin_name.
Proof.
  intros Hagree.
  assert (Forall (λ key, m1 !! key = m2 !! key) known_fields) as Hall
    by (by apply Forall_forall).
  unfold known_fields in Hall.
  repeat (apply Forall_cons in Hall as [? Hall]).
  unfold Schema.validate_manifest_data, Schema.PLUGIN_JSON_REQUIRED_FIELDS,
    Schema.check_required_types, Schema.check_optional_fields, Schema.check_required_str,
    Schema.check_optional_str, Schema.check_author, Schema.check_keywords,
    Schema.check_commands, py_in, py_get, py_getitem.
  cbn [for_in].
  repeat match goal with H : m1 !! _ = m2 !! _ |- _ => rewrite H; clear H end.
  reflexivity.
Qed.

(** The manifest schema is open: [validate_plugin_json] looks at the twelve
    fields it knows and at nothing else, so two manifest objects that agree
    on them get the same verdict and the same messages. *)
Theorem manifest_verdict_depends_on_known_fields (file_path file_path' : path)
    (m1 m2 : gmap (list N) json) (plugin_name : str) (st : Schema.validator) :
  target file_path = Some (File (Json (JObj m1))) →
  target file_path' = Some (File (Json (JObj m2))) →
  (∀ key, key ∈ known_fields → m1 !! key = m2 !! key) →
  Schema.validate_plugin_json rt file_path plugin_name st
  = Schema.validate_plugin_json rt file_path' plugin_name st.
Proof.
  intros H1 H2 Hagree. unfold Schema.validate_plugin_json, try_except, json_load.
  rewrite H1, H2, !bind_ret. by rewrite (validate_manifest_data_agree m1 m2).
Qed.

End UnknownFields.

Lemma manifest_verdict_depends_on_known_fields_witness :
  Schema.validate_plugin_json cpython (manifest_path (plugin_foo minimal_manifest))
    (py "foo") Schema.init
  = Schema.validate_plugin_json cpython
      (manifest_path
         (plugin_foo (JObj {[ py "name" := JStr (py "foo");
                              py "version" := JStr (py "1.0.0");
                              py "description" := JStr (py "A plugin");
                              py "category" := JInt 7 ]})))
      (py "foo") Schema.init.
Proof.
  eapply (manifest_verdict_depends_on_known_fields cpython).
  - reflexivity.
  - reflexivity.
  - intros key Hkey. unfold known_fields in Hkey.
    repeat (apply elem_of_cons in Hkey as [-> | Hkey]); try (vm_compute; reflexivity).
    by apply elem_of_nil in Hkey.
Defined.

(** ** The messages of a plugin carry its name *)

Section Reports.
Context (Φ : str → Prop).

Lemma reports_pure {A} (m : M Schema.validator A) : pure m → reports Φ m.
Proof. intros [r Hm]. by exists r, [], []. Qed.

Lemma reports_ret {A} (a : A) : reports Φ (ret a).
Proof. apply reports_pure, pure_ret. Qed.

Lemma reports_error (msg : str) : Φ msg → reports Φ (Schema.append_error msg).
Proof.
  intros Hmsg. exists (inl tt), [msg], [].
  split_and!; [apply writes_append_error | by constructor | done].
Qed.

Lemma reports_warning (msg : str) : Φ msg → reports Φ (Schema.append_warning msg).
Proof.
  intros Hmsg. exists (inl tt), [], [msg].
  split_and!; [apply writes_append_warning | done | by constructor].
Qed.

Lemma reports_bind {A B} (m : M Schema.validator A) (k : A → M Schema.validator B) :
  reports Φ m → (∀ a, reports Φ (k a)) → reports Φ (x <- m ;; k x).
Proof.
  intros ([a | e] & es1 & ws1 & Hm & He1 & Hw1) Hk.
  - destruct (Hk a) as (r & es2 & ws2 & Hka & He2 & Hw2).
    exists r, (es1 ++ es2), (ws1 ++ ws2).
    split_and!; [by eapply writes_bind_done | by apply Forall_app | by apply Forall_app].
  - exists (inr e), es1, ws1. split_and!; [by apply writes_bind_raised | done | done].
Qed.

Lemma reports_for_in {A B} (l : list A) (body : A → B → M Schema.validator B) (acc : B) :
  (∀ x acc, reports Φ (body x acc)) → reports Φ (for_in l body acc).
Proof.
  intros Hbody. revert acc. induction l as [|x l IH]; intros acc; simpl.
  - apply reports_ret.
  - apply reports_bind; [apply Hbody | apply IH].
Qed.

Lemma reports_try {A} (body : M Schema.validator A) handler :
  reports Φ body →
  (∀ e h, handler e = Some h → reports Φ h) →
  reports Φ (try_except body handler).
Proof.
  intros ([a | e] & es1 & ws1 & Hbody & He1 & Hw1) Hhandler.
  - exists (inl a), es1, ws1. split_and!; [by apply writes_try_done | done | done].
  - destruct (handler e) as [h |] eqn:Hh.
    + destruct (Hhandler e h Hh) as (r & es2 & ws2 & Hrun & He2 & Hw2).
      exists r, (es1 ++ es2), (ws1 ++ ws2).
      split_and!; [by eapply writes_try_caught | by apply Forall_app | by apply Forall_app].
    + exists (inr e), es1, ws1. split_and!; [by apply writes_try_uncaught | done | done].
Qed.

End Reports.

Ltac solve_tagged :=
  unfold Schema.must_be_nonempty_string; eexists; unfold py; simpl; reflexivity.

(** One step of a proof that a method only writes tagged messages. *)
Ltac reports_step :=
  first
    [ apply reports_ret
    | apply reports_error; solve_tagged
    | apply reports_warning; solve_tagged
    | apply reports_pure;
      first [apply pure_py_in | apply pure_py_get | apply pure_py_getitem
            | apply pure_json_load | apply pure_iterdir | apply pure_raise]
    | apply reports_bind; [| intros ?]
    | match goal with
      | |- reports _ (if ?b then _ else _) => destruct b
      end ].

Section Tagged.
Context (rt : runtime) (plugin_name : str).

Lemma validate_author_field_tagged (author : json) :
  reports (tagged plugin_name) (Schema.validate_author_field rt author plugin_name).
Proof. unfold Schema.validate_author_field. repeat reports_step. Qed.

Lemma validate_manifest_data_tagged (data : json) :
  reports (tagged plugin_name) (Schema.validate_manifest_data rt data plugin_name).
Proof.
  unfold Schema.validate_manifest_data.
  apply reports_bind.
  { apply reports_for_in. intros field acc. repeat reports_step. }
  intros missing. destruct (bool_decide (missing ≠ [])); [repeat reports_step |].
  unfold Schema.check_required_types, Schema.check_optional_fields, Schema.check_required_str,
    Schema.check_optional_str, Schema.check_author, Schema.check_keywords,
    Schema.check_commands.
  repeat first [apply validate_author_field_tagged | reports_step].
Qed.

Lemma validate_plugin_json_tagged (file_path : path) :
  reports (tagged plugin_name) (Schema.validate_plugin_json rt file_path plugin_name).
Proof.
  unfold Schema.validate_plugin_json. apply reports_try.
  - apply reports_bind; [repeat reports_step |]. intros data.
    apply validate_manifest_data_tagged.
  - intros [msg lineno | msg] h [= <-]; repeat reports_step.
Qed.

Lemma validate_mcp_json_tagged (file_path : path) :
  reports (tagged plugin_name) (Schema.validate_mcp_json rt file_path plugin_name).
Proof.
  unfold Schema.validate_mcp_json. apply reports_try; [repeat reports_step |].
  intros [msg lineno | msg] h [= <-]; repeat reports_step.
Qed.

Lemma validate_markdown_files_tagged (dir_path : path) (file_type : str) :
  reports (tagged plugin_name) (Schema.validate_markdown_files dir_path plugin_name file_type).
Proof. unfold Schema.validate_markdown_files. repeat reports_step. Qed.

Lemma validate_skills_tagged (skills_dir : path) :
  reports (tagged plugin_name) (Schema.validate_skills rt skills_dir plugin_name).
Proof.
  unfold Schema.validate_skills. apply reports_bind; [repeat reports_step |].
  intros entries. destruct (bool_decide _); [repeat reports_step |].
  apply reports_bind; [| intros ?; apply reports_ret].
  apply reports_for_in. intros skill_dir []. repeat reports_step.
Qed.

Lemma validate_json_files_tagged (dir_path : path) :
  reports (tagged plugin_name) (Schema.validate_json_files rt dir_path plugin_name).
Proof.
  unfold Schema.validate_json_files. destruct (bool_decide _); [repeat reports_step |].
  apply reports_for_in. intros json_file all_valid.
  apply reports_try; [repeat reports_step |].
  intros [msg lineno | msg] h [= <-]; repeat reports_step.
Qed.

End Tagged.

Section TaggedReports.
Context (rt : runtime).

Lemma plugin_checks_tagged (plugin_dir : path) :
  reports (tagged (name plugin_dir)) (plugin_checks rt plugin_dir).
Proof.
  unfold plugin_checks.
  apply reports_bind; [apply reports_ret |]. intros v0.
  apply reports_bind.
  { unfold Schema.check_required_files. apply reports_for_in.
    intros [req_file description] pv.
    repeat first [apply validate_plugin_json_tagged | reports_step]. }
  intros v1. apply reports_bind.
  { unfold Schema.check_optional_dirs. apply reports_for_in.
    intros [opt_dir description] pv.
    repeat first [apply validate_markdown_files_tagged | apply validate_skills_tagged
                 | apply validate_json_files_tagged | reports_step]. }
  intros v2. unfold Schema.check_optional_files. apply reports_for_in.
  intros [opt_file description] pv.
  repeat first [apply validate_mcp_json_tagged | reports_step].
Qed.

Lemma validate_plugin_tagged (plugin_dir : path) :
  ∃ r es ws,
    (∀ st, Schema.validate_plugin rt plugin_dir st
           = outcome_of r (decided (name plugin_dir) r (extend st es ws)))
    ∧ Forall (tagged (name plugin_dir)) es
    ∧ Forall (tagged (name plugin_dir)) ws.
Proof.
  destruct (plugin_checks_tagged plugin_dir) as (r & es & ws & Hchecks & Hes & Hws).
  exists r, es, ws. split_and!; [| done | done].
  intros st. rewrite validate_plugin_unfold. unfold bind. rewrite Hchecks.
  destruct r as [[|] | e]; reflexivity.
Qed.

Lemma plugin_errors_tagged (plugin_dir : path) :
  Forall (tagged (name plugin_dir)) (plugin_errors rt plugin_dir).
Proof.
  destruct (validate_plugin_tagged plugin_dir) as (r & es & ws & Hrun & Hes & Hws).
  unfold plugin_errors. rewrite Hrun. by destruct r as [[|] | e].
Qed.

(** Every error and every warning that the validation of a plugin records
    starts with the name of the plugin's directory in square brackets,
    whatever has been recorded before. *)
Theorem plugin_messages_carry_the_plugin_name (plugin_dir : path) (st : Schema.validator) :
  ∃ es ws,
    Schema.errors (final (Schema.validate_plugin rt plugin_dir st)) = Schema.errors st ++ es
    ∧ Schema.warnings (final (Schema.validate_plugin rt plugin_dir st))
      = Schema.warnings st ++ ws
    ∧ Forall (tagged (name plugin_dir)) es
    ∧ Forall (tagged (name plugin_dir)) ws.
Proof.
  destruct (validate_plugin_tagged plugin_dir) as (r & es & ws & Hrun & Hes & Hws).
  exists es, ws. rewrite Hrun. by destruct r as [[|] | e].
Qed.

End TaggedReports.

(** ** The error table of the job summary *)

Section SummaryTable.
Context (rt : runtime).

Lemma index_app_fresh (c : N) (s rest : str) :
  c ∉ s → index c (s ++ c :: rest) = Some (length s).
Proof.
  induction s as [|x s IH]; simpl; intros Hfresh.
  - by rewrite N.eqb_refl.
  - apply not_elem_of_cons in Hfresh as [Hx Hs].
    destruct (N.eqb_spec x c) as [-> | _]; [done |]. by rewrite IH.
Qed.

Lemma summary_row_tagged (plugin_name msg : str) :
  (0x5d%N ∉ plugin_name) →
  summary_row (py "[" ++ plugin_name ++ py "] " ++ msg) = Some (plugin_name, msg).
Proof.
  intros Hfresh. unfold summary_row.
  change (py "[" ++ plugin_name ++ py "] " ++ msg)
    with (0x5b%N :: (plugin_name ++ 0x5d%N :: 0x20%N :: msg)).
  change (py "[") with [0x5b%N]. cbn [startswith]. rewrite N.eqb_refl. cbn [andb].
  assert (index 0x5d (0x5b%N :: (plugin_name ++ 0x5d%N :: 0x20%N :: msg))
          = Some (S (length plugin_name))) as ->.
  { cbn [index]. change (0x5b =? 0x5d)%N with false. cbv iota.
    by rewrite index_app_fresh. }
  assert (startswith (plugin_name ++ 0x5d%N :: 0x20%N :: msg) [] = true) as ->
    by (by destruct plugin_name).
  cbn [mbind option_bind]. f_equal. f_equal.
  - rewrite Nat.sub_succ, Nat.sub_0_r. cbn [drop]. rewrite drop_0.
    by rewrite take_app_length.
  - change (S (length plugin_name) + 2) with (S (length plugin_name + 2)). cbn [drop].
    change (0x5d%N :: 0x20%N :: msg) with ([0x5d%N; 0x20%N] ++ msg).
    rewrite app_assoc.
    replace (length plugin_name + 2) with (length (plugin_name ++ [0x5d%N; 0x20%N]))
      by (rewrite length_app; reflexivity).
    by rewrite drop_app_length.
Qed.

Lemma index_is_Some (c : N) (s : str) : c ∈ s → is_Some (index c s).
Proof.
  induction s as [|x s IH]; simpl; [by intros ?%elem_of_nil |].
  destruct (N.eqb_spec x c) as [-> | Hne]; [by eauto |].
  intros [-> | Hin]%elem_of_cons; [done |].
  destruct (IH Hin) as [i ->]. by eexists.
Qed.

Lemma summary_row_of_tagged (plugin_name error : str) :
  tagged plugin_name error → is_Some (summary_row error).
Proof.
  intros [rest ->]. unfold summary_row.
  destruct (startswith _ _); [| by eexists].
  destruct (index_is_Some 0x5d (py "[" ++ plugin_name ++ py "] " ++ rest)) as [i ->];
    [| by eexists].
  change (py "[") with [0x5b%N]. change (py "] ") with [0x5d%N; 0x20%N].
  rewrite !elem_of_app. right. right. left. left.
Qed.

(** The error table of the job summary attributes an error of a plugin to
    that plugin: for a directory name without a closing bracket, the first
    cell of the row is the directory's name and the second the message
    without its tag. *)
Theorem summary_row_names_the_plugin (plugin_dir : path) (error : str) :
  (0x5d%N ∉ name plugin_dir) →
  error ∈ plugin_errors rt plugin_dir →
  ∃ msg,
    error = py "[" ++ name plugin_dir ++ py "] " ++ msg
    ∧ summary_row error = Some (name plugin_dir, msg).
Proof.
  intros Hfresh Herror.
  pose proof (plugin_errors_tagged rt plugin_dir) as Htagged.
  rewrite Forall_forall in Htagged. destruct (Htagged error Herror) as [msg ->].
  exists msg. split; [done |]. by apply summary_row_tagged.
Qed.

(** Computing the rows of the error table cannot fail on the errors of a
    run: each of them either carries a tag, closing bracket included, or
    does not start with a bracket at all. *)
Theorem summary_rows_never_fail (plugins_dir : path) (b : bool) (st' : Schema.validator) :
  Schema.validate_all_plugins rt plugins_dir Schema.init = Done b st' →
  Forall (λ error, is_Some (summary_row error)) (Schema.errors st').
Proof.
  destruct (target plugins_dir) as [[c | entries] |] eqn:Hroot.
  - unfold Schema.validate_all_plugins, exists_, iterdir. rewrite Hroot.
    rewrite bool_decide_eq_true_2 by eauto. done.
  - intros Hrun.
    destruct (validate_all_plugins_report rt plugins_dir entries _ st' b Hroot Hrun)
      as (dirs & _ & _ & -> & _).
    simpl. apply Forall_concat, Forall_fmap, Forall_forall. intros d _.
    eapply Forall_impl; [apply (plugin_errors_tagged rt d) |].
    intros error. apply summary_row_of_tagged.
  - unfold Schema.validate_all_plugins, exists_. rewrite Hroot.
    rewrite bool_decide_eq_false_2 by (by intros [? ?]). simpl.
    unfold bind, Schema.append_error, ret. simpl. intros [= <- <-]. simpl.
    constructor; [| done]. by eexists.
Qed.

End SummaryTable.

Lemma summary_row_names_the_plugin_witness :
  ∃ msg,
    py "[bare] Missing required file: .claude-plugin/plugin.json (Plugin manifest file)"
    = py "[" ++ py "bare" ++ py "] " ++ msg
    ∧ summary_row
        (py "[bare] Missing required file: .claude-plugin/plugin.json (Plugin manifest file)")
      = Some (py "bare", msg).
Proof.
  apply (summary_row_names_the_plugin cpython (child mixed_plugins (py "bare"))).
  - apply (bool_decide_unpack _). vm_compute. exact I.
  - vm_compute. left.
Defined.

Lemma summary_rows_never_fail_witness :
  ∃ b st',
    Schema.validate_all_plugins cpython mixed_plugins Schema.init = Done b st'
    ∧ Forall (λ error, is_Some (summary_row error)) (Schema.errors st').
Proof.
  eexists _, _. split; [vm_compute; reflexivity |].
  eapply (summary_rows_never_fail cpython mixed_plugins).
  vm_compute. reflexivity.
Defined.

(** ** When the validation of a plugin returns *)

Section Returns.

Lemma returns_ret {A} (a : A) : returns (ret a).
Proof. exists a, [], []. apply writes_ret. Qed.

Lemma returns_error (msg : str) : returns (Schema.append_error msg).
Proof. eexists _, _, _. apply writes_append_error. Qed.

Lemma returns_warning (msg : str) : returns (Schema.append_warning msg).
Proof. eexists _, _, _. apply writes_append_warning. Qed.

Lemma returns_bind {A B} (m : M Schema.validator A) (k : A → M Schema.validator B) :
  returns m → (∀ a, returns (k a)) → returns (x <- m ;; k x).
Proof.
  intros (a & es1 & ws1 & Hm) Hk. destruct (Hk a) as (b & es2 & ws2 & Hka).
  eexists _, _, _. by eapply writes_bind_done.
Qed.

Lemma returns_for_in {A B} (l : list A) (body : A → B → M Schema.validator B) (acc : B) :
  (∀ x acc, returns (body x acc)) → returns (for_in l body acc).
Proof.
  intros Hbody. revert acc. induction l as [|x l IH]; intros acc; simpl.
  - apply returns_ret.
  - apply returns_bind; [apply Hbody | apply IH].
Qed.

(** A handler that catches everything. *)
Lemma returns_try {A} (Φ : str → Prop) (body : M Schema.validator A) handler :
  reports Φ body →
  (∀ e, ∃ h, handler e = Some h ∧ returns h) →
  returns (try_except body handler).
Proof.
  intros ([a | e] & es1 & ws1 & Hbody & _) Hhandler.
  - eexists _, _, _. by apply writes_try_done.
  - destruct (Hhandler e) as (h & Hh & a & es2 & ws2 & Hrun).
    eexists _, _, _. by eapply writes_try_caught.
Qed.

Lemma raises_bind {A B} (m : M Schema.validator A) (k : A → M Schema.validator B) :
  raises m → raises (x <- m ;; k x).
Proof. intros (e & es & ws & Hm). eexists _, _, _. by apply writes_bind_raised. Qed.

Lemma raises_after {A B} (m : M Schema.validator A) (k : A → M Schema.validator B) :
  returns m → (∀ a, raises (k a)) → raises (x <- m ;; k x).
Proof.
  intros (a & es1 & ws1 & Hm) Hk. destruct (Hk a) as (e & es2 & ws2 & Hka).
  eexists _, _, _. by eapply writes_bind_done.
Qed.

Lemma returns_not_raises {A} (m : M Schema.validator A) : returns m → raises m → False.
Proof.
  intros (a & es1 & ws1 & H1) (e & es2 & ws2 & H2).
  by destruct (writes_unique _ _ _ _ _ _ _ H1 H2) as [? _].
Qed.

Lemma returns_run {A} (m : M Schema.validator A) (st : Schema.validator) :
  returns m → ∃ a st', m st = Done a st'.
Proof. intros (a & es & ws & Hm). rewrite Hm. simpl. eauto. Qed.

Lemma raises_run {A} (m : M Schema.validator A) (st : Schema.validator) :
  raises m → ∃ e st', m st = Raised e st'.
Proof. intros (e & es & ws & Hm). rewrite Hm. simpl. eauto. Qed.

End Returns.

(** The comparisons of the [if .. elif] chains, evaluated. *)
Ltac decide_literals :=
  repeat match goal with
         | |- context [@bool_decide (py ?a = py ?b) ?d] =>
             let v := eval vm_compute in (@bool_decide (py a = py b) d) in
             change (@bool_decide (py a = py b) d) with v
         end.

Section PluginReturns.
Context (rt : runtime).

Lemma validate_plugin_json_returns (file_path : path) (plugin_name : str) :
  returns (Schema.validate_plugin_json rt file_path plugin_name).
Proof.
  unfold Schema.validate_plugin_json.
  apply (returns_try (tagged plugin_name)).
  - apply reports_bind; [apply reports_pure, pure_json_load |]. intros data.
    apply validate_manifest_data_tagged.
  - intros [msg lineno | msg]; eexists; (split; [reflexivity |]);
      (apply returns_bind; [apply returns_error | intros ?; apply returns_ret]).
Qed.

Lemma validate_mcp_json_returns (file_path : path) (plugin_name : str) :
  returns (Schema.validate_mcp_json rt file_path plugin_name).
Proof.
  unfold Schema.validate_mcp_json.
  apply (returns_try (λ _, True)).
  - apply reports_bind; [apply reports_pure, pure_json_load | intros ?; apply reports_ret].
  - intros [msg lineno | msg]; eexists; (split; [reflexivity |]);
      (apply returns_bind; [first [apply returns_error | apply returns_warning]
                           | intros ?; apply returns_ret]).
Qed.

Lemma validate_markdown_files_returns (dir_path : path) (plugin_name file_type : str) :
  returns (Schema.validate_markdown_files dir_path plugin_name file_type).
Proof.
  unfold Schema.validate_markdown_files.
  apply returns_bind; [| intros ?; apply returns_ret].
  destruct (bool_decide _); [apply returns_warning | apply returns_ret].
Qed.

Lemma validate_skills_returns (skills_dir : path) (plugin_name : str) (entries : list (str * node)) :
  target skills_dir = Some (Dir entries) →
  returns (Schema.validate_skills rt skills_dir plugin_name).
Proof.
  intros Hdir. unfold Schema.validate_skills, iterdir. rewrite Hdir.
  apply returns_bind; [apply returns_ret |]. intros l.
  destruct (bool_decide _).
  - apply returns_bind; [apply returns_warning | intros ?; apply returns_ret].
  - apply returns_bind; [| intros ?; apply returns_ret].
    apply returns_for_in. intros skill_dir [].
    destruct (negb _); [apply returns_warning | apply returns_ret].
Qed.

Lemma validate_skills_raises (skills_dir : path) (plugin_name : str) (c : file_content) :
  target skills_dir = Some (File c) →
  raises (Schema.validate_skills rt skills_dir plugin_name).
Proof.
  intros Hfile. unfold Schema.validate_skills, iterdir. rewrite Hfile.
  apply raises_bind. eexists _, _, _. apply writes_raise.
Qed.

Lemma hook_file_returns (json_file : path) (plugin_name : str) (all_valid : bool)
    (e : str * node) (p : path) :
  json_file = entry_path p e →
  let step :=
    try_except
      (json_load rt json_file ;;; ret all_valid)
      (λ e,
         match e with
         | JSONDecodeError _ _ =>
             Some (Schema.append_error
                     (py "[" ++ plugin_name ++ py "] Invalid JSON in "
                        ++ name json_file ++ py ": " ++ exn_str e) ;;;
                   ret false)
         | Exception _ => None
         end) in
  (decodable e → returns step) ∧ (¬ decodable e → raises step).
Proof.
  intros -> step. subst step. unfold decodable. destruct e as [n x]. cbn [snd].
  assert (∀ (r : json + exn),
            (∀ st : Schema.validator, json_load rt (entry_path p (n, x)) st = outcome_of r st) →
            writes (json_load rt (entry_path p (n, x))) r [] []) as Hload.
  { intros r Hr st. by rewrite extend_nil. }
  destruct x as [[data | msg lineno | msg] | entries]; split; try done; intros _.
  - eexists _, _, _. apply writes_try_done.
    eapply (writes_bind_done _ _ data _ [] [] [] []); [| apply writes_ret].
    by apply Hload.
  - eexists _, _, _.
    eapply (writes_try_caught _ _ _ (JSONDecodeError msg lineno) _ [] [] [_] []).
    + apply writes_bind_raised. by apply Hload.
    + reflexivity.
    + eapply (writes_bind_done _ _ tt _ [_] [] [] []);
        [apply writes_append_error | apply writes_ret].
  - eexists _, _, _. eapply (writes_try_uncaught _ _ (Exception msg)); [| reflexivity].
    apply writes_bind_raised. by apply Hload.
  - eexists _, _, _.
    eapply (writes_try_uncaught _ _ (Exception (is_a_directory_text rt _))); [| reflexivity].
    apply writes_bind_raised. by apply Hload.
Qed.

Lemma decodable_dec (e : str * node) : {decodable e} + {¬ decodable e}.
Proof.
  unfold decodable. destruct e as [n [[data | msg lineno | msg] | entries]]; cbn [snd];
    first [by left | right; by intros []].
Qed.

Lemma hook_files_loop (p : path) (plugin_name : str) (l : list (str * node)) (v : bool) :
  let loop :=
    for_in (entry_path p <$> l)
      (λ json_file all_valid,
         try_except
           (json_load rt json_file ;;; ret all_valid)
           (λ e,
              match e with
              | JSONDecodeError _ _ =>
                  Some (Schema.append_error
                          (py "[" ++ plugin_name ++ py "] Invalid JSON in "
                             ++ name json_file ++ py ": " ++ exn_str e) ;;;
                        ret false)
              | Exception _ => None
              end)) v in
  (Forall decodable l → returns loop) ∧ (¬ Forall decodable l → raises loop).
Proof.
  revert v. induction l as [|e l IH]; intros v; cbn zeta.
  - split; [intros _; apply returns_ret | intros H; by destruct H].
  - cbn [fmap list_fmap for_in].
    destruct (hook_file_returns (entry_path p e) plugin_name v e p eq_refl) as [Hyes Hno].
    split.
    + intros [He Hl]%Forall_cons. apply returns_bind; [by apply Hyes |].
      intros v'. by apply IH.
    + intros Hnot. destruct (decodable_dec e) as [He | He].
      * apply raises_after; [by apply Hyes |]. intros v'. apply IH.
        intros Hl. apply Hnot. by constructor.
      * apply raises_bind. by apply Hno.
Qed.

Lemma validate_json_files_returns (dir_path : path) (plugin_name : str) :
  (Forall decodable (json_entries dir_path)
   → returns (Schema.validate_json_files rt dir_path plugin_name))
  ∧ (¬ Forall decodable (json_entries dir_path)
     → raises (Schema.validate_json_files rt dir_path plugin_name)).
Proof.
  unfold Schema.validate_json_files. rewrite glob_suffix_entries.
  fold (json_entries dir_path).
  destruct (json_entries dir_path) as [|e es] eqn:Hentries.
  - cbn [fmap list_fmap]. rewrite bool_decide_eq_true_2 by done. split.
    + intros _. apply returns_bind; [apply returns_warning | intros ?; apply returns_ret].
    + intros Hnot. by destruct Hnot.
  - rewrite bool_decide_eq_false_2 by done. apply hook_files_loop.
Qed.

Lemma returns_call (m : M Schema.validator bool) (v : bool) :
  returns m → returns (ok <- m ;; ret (if negb ok then false else v)).
Proof. intros Hm. apply returns_bind; [done | intros ?; apply returns_ret]. Qed.

Lemma check_optional_dirs_returns (plugin_dir : path) (v : bool) :
  let ok :=
    (∀ c, target (child plugin_dir (py "skills")) ≠ Some (File c))
    ∧ Forall decodable (json_entries (child plugin_dir (py "hooks"))) in
  (ok → returns (Schema.check_optional_dirs rt plugin_dir (name plugin_dir) v))
  ∧ (¬ ok → raises (Schema.check_optional_dirs rt plugin_dir (name plugin_dir) v)).
Proof.
  cbn zeta. unfold Schema.check_optional_dirs, Schema.OPTIONAL_DIRS. cbn [for_in].
  decide_literals. cbv iota.
  change (join_path plugin_dir (py "commands")) with (child plugin_dir (py "commands")).
  change (join_path plugin_dir (py "agents")) with (child plugin_dir (py "agents")).
  change (join_path plugin_dir (py "skills")) with (child plugin_dir (py "skills")).
  change (join_path plugin_dir (py "hooks")) with (child plugin_dir (py "hooks")).
  set (skills := child plugin_dir (py "skills")).
  set (hooks := child plugin_dir (py "hooks")).
  assert (∀ (dir file_type : str) (pv : bool),
            returns (if exists_ (child plugin_dir dir)
                     then ok <- Schema.validate_markdown_files (child plugin_dir dir)
                                  (name plugin_dir) file_type ;;
                          ret (if negb ok then false else pv)
                     else ret pv)) as Hmd.
  { intros dir file_type pv. destruct (exists_ _); [| apply returns_ret].
    apply returns_call, validate_markdown_files_returns. }
  assert (∀ pv : bool,
            returns (if exists_ (join_path plugin_dir (py "scripts")) then ret pv else ret pv))
    as Hscripts.
  { intros pv. destruct (exists_ _); apply returns_ret. }
  assert (∀ pv : bool,
            let step := (if exists_ hooks
                         then ok <- Schema.validate_json_files rt hooks (name plugin_dir) ;;
                              ret (if negb ok then false else pv)
                         else ret pv) in
            (Forall decodable (json_entries hooks) → returns step)
            ∧ (¬ Forall decodable (json_entries hooks) → raises step)) as Hhooks.
  { intros pv. cbn zeta.
    destruct (validate_json_files_returns hooks (name plugin_dir)) as [Hyes Hno].
    unfold exists_. destruct (target hooks) as [x |] eqn:Hx.
    - rewrite bool_decide_eq_true_2 by eauto. split.
      + intros Hall. by apply returns_call, Hyes.
      + intros Hnot. by apply raises_bind, Hno.
    - rewrite bool_decide_eq_false_2 by (by intros [? ?]). split.
      + intros _. apply returns_ret.
      + intros Hnot. exfalso. apply Hnot. unfold json_entries, entries_of.
        rewrite Hx. constructor. }
  assert (∀ pv : bool,
            let step := (if exists_ skills
                         then ok <- Schema.validate_skills rt skills (name plugin_dir) ;;
                              ret (if negb ok then false else pv)
                         else ret pv) in
            ((∀ c, target skills ≠ Some (File c)) → returns step)
            ∧ (¬ (∀ c, target skills ≠ Some (File c)) → raises step)) as Hskills.
  { intros pv. cbn zeta. unfold exists_.
    destruct (target skills) as [[c | entries] |] eqn:Hx.
    - rewrite bool_decide_eq_true_2 by eauto. split.
      + intros Hnot. by destruct (Hnot c).
      + intros _. by eapply raises_bind, validate_skills_raises.
    - rewrite bool_decide_eq_true_2 by eauto. split.
      + intros _. by eapply returns_call, validate_skills_returns.
      + intros Hnot. by destruct Hnot.
    - rewrite bool_decide_eq_false_2 by (by intros [? ?]). split.
      + intros _. apply returns_ret.
      + intros Hnot. by destruct Hnot. }
  split.
  - intros [Hs Hh].
    apply returns_bind; [apply Hmd |]. intros v1.
    apply returns_bind; [apply Hmd |]. intros v2.
    apply returns_bind; [by apply Hskills |]. intros v3.
    apply returns_bind; [by apply Hhooks |]. intros v4.
    apply returns_bind; [apply Hscripts |]. intros v5. apply returns_ret.
  - intros Hnot.
    apply raises_after; [apply Hmd |]. intros v1.
    apply raises_after; [apply Hmd |]. intros v2.
    destruct (target skills) as [[c | entries] |] eqn:Hx.
    + apply raises_bind, Hskills. intros H. by destruct (H c).
    + apply raises_after; [by apply Hskills |]. intros v3.
      apply raises_bind, Hhooks. intros Hh. by apply Hnot.
    + apply raises_after; [by apply Hskills |]. intros v3.
      apply raises_bind, Hhooks. intros Hh. by apply Hnot.
Qed.

Lemma check_required_files_returns (plugin_dir : path) (v : bool) :
  returns (Schema.check_required_files rt plugin_dir (name plugin_dir) v).
Proof.
  unfold Schema.check_required_files. apply returns_for_in.
  intros [req_file description] pv.
  destruct (negb (exists_ _)).
  { apply returns_bind; [apply returns_error | intros ?; apply returns_ret]. }
  destruct (bool_decide _); [| apply returns_ret].
  apply returns_call, validate_plugin_json_returns.
Qed.

Lemma check_optional_files_returns (plugin_dir : path) (v : bool) :
  returns (Schema.check_optional_files rt plugin_dir (name plugin_dir) v).
Proof.
  unfold Schema.check_optional_files. apply returns_for_in.
  intros [opt_file description] pv.
  destruct (exists_ _); [| apply returns_ret].
  destruct (bool_decide _); [| apply returns_ret].
  apply returns_call, validate_mcp_json_returns.
Qed.

Lemma classic_returns (plugin_dir : path) :
  let ok :=
    (∀ c, target (child plugin_dir (py "skills")) ≠ Some (File c))
    ∧ Forall decodable (json_entries (child plugin_dir (py "hooks"))) in
  ok ∨ ¬ ok.
Proof.
  cbn zeta.
  assert (Forall decodable (json_entries (child plugin_dir (py "hooks")))
          ∨ ¬ Forall decodable (json_entries (child plugin_dir (py "hooks")))) as [Hh | Hh].
  { induction (json_entries (child plugin_dir (py "hooks"))) as [|e l IH]; [by left |].
    destruct (decodable_dec e) as [He | He].
    - destruct IH as [Hl | Hl]; [left; by constructor |].
      right. by intros [_ ?]%Forall_cons.
    - right. by intros [? _]%Forall_cons. }
  - destruct (target (child plugin_dir (py "skills"))) as [[c | entries] |] eqn:Hx.
    + right. intros [Hs _]. by destruct (Hs c).
    + by left.
    + by left.
  - right. by intros [_ ?].
Qed.

Lemma plugin_checks_returns (plugin_dir : path) :
  let ok :=
    (∀ c, target (child plugin_dir (py "skills")) ≠ Some (File c))
    ∧ Forall decodable (json_entries (child plugin_dir (py "hooks"))) in
  (ok → returns (plugin_checks rt plugin_dir))
  ∧ (¬ ok → raises (plugin_checks rt plugin_dir)).
Proof.
  cbn zeta. unfold plugin_checks. split.
  - intros Hok.
    apply returns_bind; [apply returns_ret |]. intros v0.
    apply returns_bind; [apply check_required_files_returns |]. intros v1.
    apply returns_bind; [by apply check_optional_dirs_returns |]. intros v2.
    apply check_optional_files_returns.
  - intros Hnot.
    apply raises_after; [apply returns_ret |]. intros v0.
    apply raises_after; [apply check_required_files_returns |]. intros v1.
    apply raises_bind. by apply check_optional_dirs_returns.
Qed.

Lemma validate_plugin_done_iff (plugin_dir : path) (st : Schema.validator) :
  (∃ b st', Schema.validate_plugin rt plugin_dir st = Done b st')
  ↔ (∀ c, target (child plugin_dir (py "skills")) ≠ Some (File c))
    ∧ Forall decodable (json_entries (child plugin_dir (py "hooks"))).
Proof.
  destruct (plugin_checks_returns plugin_dir) as [Hyes Hno].
  rewrite validate_plugin_unfold. unfold bind at 1. split.
  - intros (b & st' & Hrun).
    destruct (classic_returns plugin_dir) as [Hok | Hbad]; [done |].
    destruct (raises_run _ st (Hno Hbad)) as (e & st'' & Hraised).
    by rewrite Hraised in Hrun.
  - intros Hok. destruct (returns_run _ st (Hyes Hok)) as (b & st' & ->).
    destruct b; simpl; eauto.
Qed.

(** Validating a plugin directory of the plugins directory returns,
    whatever its files hold, unless its [skills] entry is a plain file or
    one of the [*.json] entries of its [hooks] directory cannot be opened
    and decoded as text (or is a directory); in these two cases, and in no
    other, it raises. *)
Theorem plugin_validation_returns_iff (plugins_dir plugin_dir : path)
    (st : Schema.validator) :
  plugin_dir ∈ plugin_dirs plugins_dir →
  (∃ b st', Schema.validate_plugin rt plugin_dir st = Done b st')
  ↔ (∀ c, target (child plugin_dir (py "skills")) ≠ Some (File c))
    ∧ Forall decodable (json_entries (child plugin_dir (py "hooks"))).
Proof. intros _. apply validate_plugin_done_iff. Qed.

End PluginReturns.

Lemma plugin_validation_returns_iff_witness :
  (∃ b st',
     Schema.validate_plugin cpython
       (child (plugins_root [(py "a", manifest_only (Json minimal_manifest));
                             (py "b", Dir [(py "skills", File (Json JNull))])])
          (py "b"))
       Schema.init
     = Done b st')
  ↔ (∀ c, Some (File (Json JNull)) ≠ Some (File c))
    ∧ Forall decodable [].
Proof.
  apply (plugin_validation_returns_iff cpython
           (plugins_root [(py "a", manifest_only (Json minimal_manifest));
                          (py "b", Dir [(py "skills", File (Json JNull))])])
           (child (plugins_root [(py "a", manifest_only (Json minimal_manifest));
                                 (py "b", Dir [(py "skills", File (Json JNull))])])
              (py "b"))).
  vm_compute. right. left.
Defined.

(** * Further properties of the sync validator *)

(** ** Mentions that the extraction finds *)

Section Completeness.

Lemma literal_inv (eqc : N → N → bool) (lit s rest : str) :
  Sync.literal eqc lit s = Some rest →
  ∃ m, s = m ++ rest ∧ Forall2 (λ p c, eqc p c = true) lit m.
Proof.
  revert s. induction lit as [|p lit IH]; intros s; simpl.
  - intros [= ->]. by exists [].
  - destruct s as [|c s]; [done |]. destruct (eqc p c) eqn:Hpc; [| done].
    intros (m & -> & Hm)%IH. exists (c :: m). split; [done | by constructor].
Qed.

Lemma literal_self (eqc : N → N → bool) (lit rest : str) :
  (∀ p, eqc p p = true) → Sync.literal eqc lit (lit ++ rest) = Some rest.
Proof. intros Hrefl. induction lit as [|p lit IH]; simpl; [done |]. by rewrite Hrefl. Qed.

(** The greedy repetition takes a maximal run when the continuation
    accepts it. *)
Lemma star_maximal {R} (cls : N → bool) (k : str → str → option R)
    (matched run rest : str) (r : R) :
  Forall (λ c, cls c = true) run →
  (∀ c, head rest = Some c → cls c = false) →
  k (matched ++ run) rest = Some r →
  Sync.star cls k matched (run ++ rest) = Some r.
Proof.
  intros Hrun Hrest. revert matched. induction Hrun as [|c run Hc _ IH]; intros matched Hk.
  - rewrite app_nil_r in Hk. simpl. destruct rest as [|c rest]; [done |].
    simpl. by rewrite (Hrest c eq_refl).
  - simpl. rewrite Hc. rewrite IH; [done |]. by rewrite <- app_assoc.
Qed.

Lemma plus_maximal {R} (cls : N → bool) (k : str → str → option R)
    (run rest : str) (r : R) :
  run ≠ [] →
  Forall (λ c, cls c = true) run →
  (∀ c, head rest = Some c → cls c = false) →
  k run rest = Some r →
  Sync.plus cls k (run ++ rest) = Some r.
Proof.
  intros Hne Hrun Hrest Hk. destruct run as [|c run]; [done |].
  apply Forall_cons in Hrun as [Hc Hrun]. simpl. rewrite Hc.
  by apply star_maximal.
Qed.

(** [findall] finds a match at a position that no earlier match runs
    over. *)
Lemma findall_from_complete (pattern : str → option (str * str))
    (before occ group rest : str) (skip : nat) :
  pattern occ = Some (group, rest) →
  (∀ b1 b2 g r, before = b1 ++ b2 → b2 ≠ [] → pattern (b2 ++ occ) = Some (g, r) →
                length (b2 ++ occ) - length r ≤ length b2) →
  skip ≤ length before →
  group ∈ Sync.findall_from pattern skip (before ++ occ).
Proof.
  intros Hocc. revert skip. induction before as [|c before IH]; intros skip Hover Hskip.
  - simpl in Hskip. assert (skip = 0) as -> by lia. simpl.
    destruct occ; simpl; rewrite Hocc; left.
  - assert (∀ skip', skip' ≤ length before →
              group ∈ Sync.findall_from pattern skip' (before ++ occ)) as Hnext.
    { intros skip' Hskip'. apply IH; [| done].
      intros b1 b2 g r -> Hb2 Hp. apply (Hover (c :: b1) b2 g r); done. }
    destruct skip as [|skip]; cbn [app Sync.findall_from].
    + destruct (pattern (c :: before ++ occ)) as [[g r] |] eqn:Hp.
      * right. apply Hnext.
        pose proof (Hover [] (c :: before) g r eq_refl ltac:(done) Hp) as Hlen.
        simpl in Hlen |- *. lia.
      * apply Hnext. lia.
    + apply Hnext. simpl in Hskip. lia.
Qed.

Lemma install_pattern_inv (s group rest : str) :
  Sync.install_pattern s = Some (group, rest) →
  ∃ m, s = m ++ group ++ rest
       ∧ Forall2 (λ p c, Sync.char_eq_ignorecase p c = true) (py "/plugin install ") m
       ∧ Forall (λ c, Sync.name_char c = true) group.
Proof.
  unfold Sync.install_pattern.
  intros (s1 & (m & -> & Hm)%literal_inv & Hplus)%bind_Some.
  apply plus_inv in Hplus as (run & rest' & -> & _ & Hrun & [= <- <-]).
  by exists m.
Qed.

Lemma install_pattern_stops_at_slash (b tail group rest : str) :
  b ≠ [] →
  Sync.install_pattern (b ++ 0x2f%N :: tail) = Some (group, rest) →
  length (b ++ 0x2f%N :: tail) - length rest ≤ length b.
Proof.
  intros Hb (m & Hs & Hm & Hgroup)%install_pattern_inv.
  rewrite Hs, app_assoc, length_app.
  destruct (decide (length (m ++ group) ≤ length b)) as [| Hlong]; [lia |].
  exfalso.
  assert ((m ++ group) !! length b = Some 0x2f%N) as Hat.
  { rewrite <- (lookup_app_l _ rest) by lia. rewrite <- app_assoc, <- Hs.
    by rewrite list_lookup_middle. }
  apply lookup_app_Some in Hat as [Hat | [_ Hat]].
  - destruct (Forall2_lookup_r _ _ _ _ _ Hm Hat) as (p & Hp & Heq).
    assert (Forall (λ p, Sync.char_eq_ignorecase p 0x2f = false)
              (drop 1 (py "/plugin install "))) as Hno
      by (apply (bool_decide_unpack _); vm_compute; exact I).
    destruct b as [|c b]; [done |].
    change (length (c :: b)) with (1 + length b) in Hp. rewrite <- lookup_drop in Hp.
    rewrite Forall_forall in Hno.
    apply list_elem_of_lookup_2, Hno in Hp. congruence.
  - rewrite Forall_forall in Hgroup.
    apply list_elem_of_lookup_2, Hgroup in Hat. vm_compute in Hat. discriminate.
Qed.

Lemma install_pattern_at_mention (nm rest : str) :
  nm ≠ [] →
  Forall (λ c, Sync.name_char c = true) nm →
  (∀ c, head rest = Some c → Sync.name_char c = false) →
  Sync.install_pattern (py "/plugin install " ++ nm ++ rest) = Some (nm, rest).
Proof.
  intros Hne Hnm Hrest. unfold Sync.install_pattern.
  rewrite literal_self.
  - cbn [mbind option_bind]. by apply plus_maximal.
  - intros p. unfold Sync.char_eq_ignorecase. by rewrite N.eqb_refl.
Qed.

Lemma findall_install_complete (before nm rest : str) :
  nm ≠ [] →
  Forall (λ c, Sync.name_char c = true) nm →
  (∀ c, head rest = Some c → Sync.name_char c = false) →
  nm ∈ Sync.findall Sync.install_pattern (before ++ py "/plugin install " ++ nm ++ rest).
Proof.
  intros Hne Hnm Hrest. unfold Sync.findall.
  apply (findall_from_complete _ _ _ nm rest); [by apply install_pattern_at_mention | | lia].
  intros b1 b2 g r _ Hb2 Hp. by apply (install_pattern_stops_at_slash b2 _ g r).
Qed.

(** A plugin that the text installs is found: wherever the text contains
    [/plugin install] followed by a name of letters, digits and hyphens
    that ends there, the name is extracted, unless it is on the
    denylist. *)
Theorem install_command_is_extracted (before nm rest : str) :
  nm ≠ [] →
  Forall (λ c, Sync.name_char c = true) nm →
  (∀ c, head rest = Some c → Sync.name_char c = false) →
  nm ∉ Sync.false_positives →
  nm ∈ Sync.extract_plugin_names_from_markdown
         (before ++ py "/plugin install " ++ nm ++ rest).
Proof.
  intros Hne Hnm Hrest Hdeny. rewrite extract_unfold.
  apply elem_of_difference. split; [| done].
  do 2 apply elem_of_union_l. apply elem_of_list_to_set.
  by apply findall_install_complete.
Qed.


Lemma at_pattern_inv (s group rest : str) :
  Sync.at_pattern s = Some (group, rest) →
  s = group ++ 0x40%N :: rest ∧ Forall (λ c, Sync.name_char c = true) group.
Proof.
  unfold Sync.at_pattern.
  intros (run & rest' & -> & _ & Hrun & Hk)%plus_inv.
  apply bind_Some in Hk as (rest'' & Hlit & [= <- <-]).
  apply literal_inv in Hlit as (m & -> & Hm).
  change (py "@") with [0x40%N] in Hm.
  apply Forall2_cons_inv_l in Hm as (c & m' & Hc & Hm' & ->).
  apply Forall2_nil_inv_l in Hm' as ->. apply N.eqb_eq in Hc as <-. done.
Qed.

Lemma at_pattern_stops_before (b tail group rest : str) :
  b ≠ [] →
  (∀ c, last b = Some c → Sync.name_char c = false) →
  Sync.at_pattern (b ++ tail) = Some (group, rest) →
  length (b ++ tail) - length rest ≤ length b.
Proof.
  intros Hb Hlast [Hs Hgroup]%at_pattern_inv.
  rewrite Hs, length_app. cbn [length].
  destruct (decide (length group < length b)) as [| Hlong]; [lia |].
  exfalso.
  destruct (last b) as [c |] eqn:Hc; [| by apply last_None in Hc].
  specialize (Hlast c eq_refl).
  assert (group !! pred (length b) = Some c) as Hat.
  { assert (pred (length b) < length group) as Hlt.
    { destruct b; [done |]. simpl in *. lia. }
    rewrite <- (lookup_app_l _ (0x40%N :: rest)) by done. rewrite <- Hs.
    rewrite lookup_app_l by (destruct b; [done |]; simpl; lia).
    by rewrite <- last_lookup. }
  rewrite Forall_forall in Hgroup.
  apply list_elem_of_lookup_2, Hgroup in Hat. congruence.
Qed.

Lemma at_pattern_at_mention (nm rest : str) :
  nm ≠ [] →
  Forall (λ c, Sync.name_char c = true) nm →
  Sync.at_pattern (nm ++ py "@" ++ rest) = Some (nm, rest).
Proof.
  intros Hne Hnm. unfold Sync.at_pattern.
  apply plus_maximal; [done | done | |].
  - intros c [= <-]. reflexivity.
  - reflexivity.
Qed.

Lemma findall_at_complete (before nm rest : str) :
  nm ≠ [] →
  Forall (λ c, Sync.name_char c = true) nm →
  (∀ c, last before = Some c → Sync.name_char c = false) →
  nm ∈ Sync.findall Sync.at_pattern (before ++ nm ++ py "@" ++ rest).
Proof.
  intros Hne Hnm Hlast. unfold Sync.findall.
  apply (findall_from_complete _ _ _ nm rest); [by apply at_pattern_at_mention | | lia].
  intros b1 b2 g r -> Hb2 Hp. apply (at_pattern_stops_before b2 _ g r); [done | | done].
  intros c Hc. apply Hlast. rewrite last_app, Hc. done.
Qed.

(** A name followed by [@] is found: wherever the text contains a name of
    letters, digits and hyphens that starts there (at the start of the
    text or after a character that cannot be part of a name) and is
    followed by [@], the name is extracted, unless it is on the denylist. *)
Theorem at_mention_is_extracted (before nm rest : str) :
  nm ≠ [] →
  Forall (λ c, Sync.name_char c = true) nm →
  (∀ c, last before = Some c → Sync.name_char c = false) →
  nm ∉ Sync.false_positives →
  nm ∈ Sync.extract_plugin_names_from_markdown (before ++ nm ++ py "@" ++ rest).
Proof.
  intros Hne Hnm Hlast Hdeny. rewrite extract_unfold.
  apply elem_of_difference. split; [| done].
  apply elem_of_union_l, elem_of_union_r. apply elem_of_list_to_set.
  by apply findall_at_complete.
Qed.

End Completeness.

Lemma install_command_is_extracted_witness :
  py "code-review"
  ∈ Sync.extract_plugin_names_from_markdown
      (py "Run `" ++ py "/plugin install " ++ py "code-review" ++ py "` to install it.").
Proof.
  apply (install_command_is_extracted (py "Run `") (py "code-review") (py "` to install it.")).
  - done.
  - apply (bool_decide_unpack _). vm_compute. exact I.
  - intros c [= <-]. reflexivity.
  - apply (bool_decide_unpack _). vm_compute. exact I.
Defined.

Lemma at_mention_is_extracted_witness :
  py "code-review"
  ∈ Sync.extract_plugin_names_from_markdown
      (py "Enable " ++ py "code-review" ++ py "@" ++ py "claude-code-marketplace now").
Proof.
  apply (at_mention_is_extracted (py "Enable ") (py "code-review")
           (py "claude-code-marketplace now")).
  - done.
  - apply (bool_decide_unpack _). vm_compute. exact I.
  - intros c [= <-]. reflexivity.
  - apply (bool_decide_unpack _). vm_compute. exact I.
Defined.

(** ** Names from the bold pattern *)

Section BoldNames.

Lemma kebab_char (c : N) :
  Sync.bold_char c = true →
  lower_digit_hyphen (if (lower_char c =? 0x20)%N then 0x2d%N else lower_char c) = true.
Proof.
  unfold Sync.bold_char, lower_digit_hyphen, lower_char, in_range.
  rewrite !orb_true_iff, !andb_true_iff, !N.leb_le, !N.eqb_eq. intros Hc.
  destruct (N.leb_spec 0x41 c); destruct (N.leb_spec c 0x5a); cbn [andb];
    destruct (N.eqb_spec (c + 32) 0x20); destruct (N.eqb_spec c 0x20);
    rewrite ?orb_true_iff, ?andb_true_iff, ?N.leb_le, ?N.eqb_eq; lia.
Qed.

(** The names that the bold pattern contributes are in lower kebab case:
    after the conversion each of them is not empty and consists of
    lower-case ASCII letters, digits and hyphens only. *)
Theorem bold_names_are_lower_kebab (content : str) :
  Forall (λ n, n ≠ [] ∧ Forall (λ c, lower_digit_hyphen c = true) n)
    (kebab <$> Sync.findall Sync.bold_pattern content).
Proof.
  apply Forall_fmap, Forall_forall. intros display_name Hin.
  apply findall_inv in Hin as (before & at_ & rest & _ & [Hne Hcls]%bold_pattern_token).
  unfold kebab, replace, lower. cbn [compose]. split.
  - by destruct display_name.
  - rewrite <- list_fmap_compose. apply Forall_fmap.
    eapply Forall_impl; [exact Hcls |]. intros c Hc. cbn [compose]. by apply kebab_char.
Qed.

End BoldNames.

(** ** The exit status of the sync job *)

Section SyncExit.
Context (rt : runtime).

Lemma add_warnings_errors (st : Sync.validator) (ws : list str) :
  Sync.errors (add_warnings st ws) = Sync.errors st.
Proof. reflexivity. Qed.

(** The sync check only ever appends warnings. *)
Lemma sync_appends_no_error (repo : Sync.repository) (st st' : Sync.validator) (b : bool) :
  Sync.validate_marketplace_sync rt repo st = Done b st' →
  Sync.errors st' = Sync.errors st.
Proof.
  unfold Sync.validate_marketplace_sync.
  destruct (Sync.get_plugin_list rt repo st) as [plugins st1 | e st1] eqn:Hget.
  2:{ by rewrite (bind_raised _ _ _ _ _ Hget). }
  rewrite (bind_done _ _ _ _ _ Hget).
  pose proof (get_plugin_list_done rt repo st st1 plugins Hget) as Herr.
  destruct (bool_decide (plugins = ∅)); [by intros [= _ <-] |].
  rewrite bind_ret.
  assert (∀ (file : str) (missing : gset (list N)) (valid : bool) (s : Sync.validator),
            ∃ v, (if bool_decide (missing ≠ ∅) then
                    Sync.append_warning (Sync.may_be_missing file missing) ;;; ret false
                  else ret valid) s
                 = Done v (add_warnings s (aggregated_warning file (sorted (elements missing)))))
    as Hblock.
  { intros file missing valid s. eexists. apply missing_block. }
  assert (∃ r ws,
            match Sync.readme repo with
            | Some f =>
                readme_content <- Sync.read f ;;
                (if bool_decide (dom plugins
                                 ∖ Sync.extract_plugin_names_from_markdown readme_content ≠ ∅)
                 then Sync.append_warning
                        (Sync.may_be_missing (py "README.md")
                           (dom plugins
                            ∖ Sync.extract_plugin_names_from_markdown readme_content)) ;;;
                      ret false
                 else ret true)
            | None => Sync.append_warning (py "README.md not found") ;;; ret true
            end st1
            = match r with
              | inl v => Done v (add_warnings st1 ws)
              | inr e => Raised e (add_warnings st1 ws)
              end) as (r1 & ws1 & Hreadme).
  { destruct (Sync.readme repo) as [[content | e] |].
    - unfold Sync.read. rewrite bind_ret.
      destruct (Hblock (py "README.md")
                  (dom plugins ∖ Sync.extract_plugin_names_from_markdown content) true st1)
        as [v Hv].
      exists (inl v). eexists. exact Hv.
    - exists (inr e), []. by rewrite add_warnings_nil.
    - exists (inl true), [py "README.md not found"]. reflexivity. }
  destruct r1 as [v1 | e1].
  2:{ by rewrite (bind_raised _ _ _ _ _ Hreadme). }
  rewrite (bind_done _ _ _ _ _ Hreadme), bind_ret.
  destruct (Sync.plugins_md repo) as [[content | e] |].
  - unfold Sync.read. unfold bind at 1. unfold bind at 1. cbn [ret].
    destruct (contains (py "# Plugins") content
              && negb (contains (py "## Quickstart") content)).
    + destruct (Hblock (py "plugins.md")
                  (dom plugins ∖ Sync.extract_plugin_names_from_markdown content) true
                  (add_warnings st1 ws1)) as [v Hv].
      rewrite Hv. by intros [= _ <-].
    + by intros [= _ <-].
  - done.
  - rewrite bind_ret. by intros [= _ <-].
Qed.

(** What the pull-request check does, in one piece. *)
Lemma validate_on_pr_outcome (is_github_actions : bool) (diff : Sync.git_diff)
    (st : Sync.validator) :
  let fails :=
    is_github_actions = true
    ∧ ∃ changed_files,
        changed_file_list diff = Some changed_files
        ∧ undocumented_plugin_change changed_files in
  (fails ∧ Sync.validate_on_pr is_github_actions diff st = Done false (with_pr_error st))
  ∨ (¬ fails ∧ Sync.validate_on_pr is_github_actions diff st = Done true st).
Proof.
  cbn zeta. destruct is_github_actions.
  2:{ right. split; [by intros [? _] | reflexivity]. }
  destruct diff as [returncode stdout | e].
  2:{ right. split; [by intros [_ (? & [=] & _)] | reflexivity]. }
  destruct returncode as [|rc|rc].
  2,3: right; split; [by intros [_ (? & [=] & _)] | reflexivity].
  unfold changed_file_list, undocumented_plugin_change.
  set (changed_files := split 10 (strip stdout)).
  assert (Sync.validate_on_pr true (Sync.Completed 0 stdout) st
          = if bool_decide (List.filter (λ f, startswith f (py "plugins/")) changed_files = [])
            then Done true st
            else if bool_decide (py "README.md" ∈ changed_files)
                    || bool_decide (py "plugins.md" ∈ changed_files)
                 then Done true st
                 else Done false (with_pr_error st)) as ->.
  { unfold Sync.validate_on_pr, try_except, bind, ret. simpl.
    fold changed_files.
    destruct (bool_decide (List.filter _ changed_files = [])) eqn:Hnil; [done |].
    rewrite orb_false_r.
    apply bool_decide_eq_false in Hnil.
    rewrite (bool_decide_eq_true_2 _ Hnil). simpl.
    by destruct (bool_decide (py "README.md" ∈ changed_files)
                 || bool_decide (py "plugins.md" ∈ changed_files)). }
  case_bool_decide as Hnil.
  - apply filter_startswith_nil in Hnil. right. split; [| done].
    intros [_ (files & [= <-] & Hplugin & _)]. done.
  - assert (∃ f rest, f ∈ changed_files ∧ f = py "plugins/" ++ rest) as Hsome.
    { destruct (List.filter (λ f, startswith f (py "plugins/")) changed_files)
        as [|f fs] eqn:Hf; [done |].
      assert (f ∈ List.filter (λ f, startswith f (py "plugins/")) changed_files) as Hin
        by (rewrite Hf; left).
      apply list_elem_of_In, filter_In in Hin as [Hin Hsw].
      apply startswith_spec in Hsw as [rest ->].
      exists (py "plugins/" ++ rest), rest. by rewrite list_elem_of_In. }
    destruct (bool_decide (py "README.md" ∈ changed_files)) eqn:Hr;
      destruct (bool_decide (py "plugins.md" ∈ changed_files)) eqn:Hp; simpl;
      try apply bool_decide_eq_true in Hr; try apply bool_decide_eq_true in Hp;
      try apply bool_decide_eq_false in Hr; try apply bool_decide_eq_false in Hp.
    + right. split; [| done]. intros [_ (files & [= <-] & _ & ? & _)]. done.
    + right. split; [| done]. intros [_ (files & [= <-] & _ & ? & _)]. done.
    + right. split; [| done]. intros [_ (files & [= <-] & _ & _ & ?)]. done.
    + left. split; [| done]. split; [done |]. exists changed_files. done.
Qed.

(** Only the pull-request check can fail the sync job. Whenever the sync
    check returns, [main] ends with exit status 0 or 1, and with 1 exactly
    when it runs in GitHub Actions, the list of changed files could be
    obtained, and a plugin file changed while neither [README.md] nor
    [plugins.md] did; the warnings of the sync check do not count. *)
Theorem sync_job_fails_only_on_pr_check (repo : Sync.repository) (is_github_actions : bool)
    (diff : Sync.git_diff) (b : bool) (st1 : Sync.validator) :
  Sync.validate_marketplace_sync rt repo Sync.init = Done b st1 →
  ∃ code st',
    Sync.main rt repo is_github_actions diff Sync.init = Done code st'
    ∧ (code = 1%Z
       ↔ is_github_actions = true
         ∧ ∃ changed_files,
             changed_file_list diff = Some changed_files
             ∧ undocumented_plugin_change changed_files)
    ∧ (code = 0%Z ∨ code = 1%Z)
    ∧ Sync.warnings st' = Sync.warnings st1.
Proof.
  intros Hsync. pose proof (sync_appends_no_error repo _ _ _ Hsync) as Herr.
  simpl in Herr. unfold Sync.main. rewrite (bind_done _ _ _ _ _ Hsync).
  destruct (validate_on_pr_outcome is_github_actions diff st1) as [[Hf Hpr] | [Hf Hpr]];
    rewrite (bind_done _ _ _ _ _ Hpr); unfold bind, ret; simpl; rewrite Herr; simpl.
  - eexists _, _. split; [reflexivity |]. split_and!; [done | by right | done].
  - eexists _, _. split; [reflexivity |]. split_and!; [| by left | done].
    split; [done | by intros ?%Hf].
Qed.

End SyncExit.

Lemma sync_job_fails_only_on_pr_check_witness :
  ∃ code st',
    Sync.main cpython sync_scenario true
      (Sync.Completed 0 (py "plugins/foo/commands/x.md")) Sync.init
    = Done code st'
    ∧ (code = 1%Z
       ↔ true = true
         ∧ ∃ changed_files,
             changed_file_list (Sync.Completed 0 (py "plugins/foo/commands/x.md"))
             = Some changed_files
             ∧ undocumented_plugin_change changed_files)
    ∧ (code = 0%Z ∨ code = 1%Z)
    ∧ Sync.warnings st' = [py "README.md may be missing these plugins: bar"].
Proof.
  apply (sync_job_fails_only_on_pr_check cpython sync_scenario true
           (Sync.Completed 0 (py "plugins/foo/commands/x.md")) false
           {| Sync.errors := [];
              Sync.warnings := [py "README.md may be missing these plugins: bar"] |}).
  vm_compute. reflexivity.
Defined.

(** ** Manifests that the sync check cannot use *)

Section ManifestWarnings.
Context (rt : runtime).

Lemma get_plugin_list_entry_warning (plugin_dir : path)
    (plugins : gmap (list N) Sync.plugin_info) (st : Sync.validator) :
  ∃ plugins',
    Sync.get_plugin_list_entry rt plugin_dir plugins st
    = Done plugins' (add_warnings st (option_list (manifest_warning rt plugin_dir))).
Proof.
  unfold Sync.get_plugin_list_entry, manifest_warning, manifest_failure.
  destruct (is_dir plugin_dir); cbn [negb].
  2:{ exists plugins. by rewrite add_warnings_nil. }
  fold (manifest_path plugin_dir). unfold exists_.
  destruct (target (manifest_path plugin_dir)) as [x |] eqn:Hx.
  2:{ rewrite bool_decide_eq_false_2 by (by intros [? ?]). exists plugins.
      by rewrite add_warnings_nil. }
  rewrite bool_decide_eq_true_2 by eauto. cbn [negb].
  unfold try_except, bind, json_load. rewrite Hx.
  destruct x as [[data | msg lineno | msg] | entries]; try (by eexists).
  destruct data; try (by eexists).
  eexists. cbn. by rewrite add_warnings_nil.
Qed.

Lemma get_plugin_list_warnings (l : list path)
    (plugins : gmap (list N) Sync.plugin_info) (st : Sync.validator) :
  ∃ plugins',
    for_in l (Sync.get_plugin_list_entry rt) plugins st
    = Done plugins' (add_warnings st (omap (manifest_warning rt) l)).
Proof.
  revert plugins st. induction l as [|d l IH]; intros plugins st; cbn [for_in omap list_omap].
  - exists plugins. by rewrite add_warnings_nil.
  - destruct (get_plugin_list_entry_warning d plugins st) as [plugins1 Hstep].
    unfold bind at 1. rewrite Hstep.
    destruct (IH plugins1 (add_warnings st (option_list (manifest_warning rt d))))
      as [plugins' Hloop].
    exists plugins'. rewrite Hloop, add_warnings_app.
    by destruct (manifest_warning rt d).
Qed.

Lemma manifest_failure_None (plugin_dir : path) :
  manifest_failure rt plugin_dir = None
  ↔ is_dir plugin_dir = false ∨ exists_ (manifest_path plugin_dir) = false
    ∨ manifest_is_object plugin_dir.
Proof.
  unfold manifest_failure, manifest_is_object, exists_.
  destruct (is_dir plugin_dir); [| by split; [left |]].
  destruct (target (manifest_path plugin_dir)) as [[[data | msg lineno | msg] | entries] |].
  - rewrite bool_decide_eq_true_2 by eauto.
    destruct data; (split; [try done | try by intros [? | [? | [members [=]]]]]).
    + intros _. right. right. eauto.
    + done.
  - rewrite bool_decide_eq_true_2 by eauto.
    split; [done | by intros [? | [? | [members [=]]]]].
  - rewrite bool_decide_eq_true_2 by eauto.
    split; [done | by intros [? | [? | [members [=]]]]].
  - rewrite bool_decide_eq_true_2 by eauto.
    split; [done | by intros [? | [? | [members [=]]]]].
  - rewrite bool_decide_eq_false_2 by (by intros [? ?]). split; [by right; left | done].
Qed.

(** [get_plugin_list] warns once for each subdirectory whose manifest
    exists but cannot be used, in the order of the listing, with the text
    of the exception; an entry that is no directory, that has no manifest,
    or whose manifest loads as an object, is passed over in silence. *)
Theorem unusable_manifests_are_warned_about (repo : Sync.repository)
    (entries : list (str * node)) (st : Sync.validator) :
  target (Sync.plugins_dir repo) = Some (Dir entries) →
  let dirs := entry_path (Sync.plugins_dir repo) <$> entries in
  (∃ plugins,
     Sync.get_plugin_list rt repo st
     = Done plugins (add_warnings st (omap (manifest_warning rt) dirs)))
  ∧ Forall (λ d, manifest_warning rt d = None
                 ↔ is_dir d = false ∨ exists_ (manifest_path d) = false
                   ∨ manifest_is_object d) dirs.
Proof.
  intros Hroot dirs. split.
  - unfold Sync.get_plugin_list, exists_, iterdir. rewrite Hroot.
    rewrite bool_decide_eq_true_2 by eauto. cbn [negb]. rewrite bind_ret.
    apply get_plugin_list_warnings.
  - apply Forall_forall. intros d _. rewrite <- manifest_failure_None.
    unfold manifest_warning. by destruct (manifest_failure rt d).
Qed.

End ManifestWarnings.

Lemma unusable_manifests_are_warned_about_witness :
  (∃ plugins,
     Sync.get_plugin_list cpython two_manifests Sync.init
     = Done plugins
         (add_warnings Sync.init
            [py "Could not read plugin.json for broken: Expecting value: line 1 column 1 (char 0)"]))
  ∧ Forall (λ d, manifest_warning cpython d = None
                 ↔ is_dir d = false ∨ exists_ (manifest_path d) = false
                   ∨ manifest_is_object d)
      (entry_path (Sync.plugins_dir two_manifests)
         <$> [(py "good", manifest_only (Json minimal_manifest));
              (py "broken",
               manifest_only (NotJson (py "Expecting value: line 1 column 1 (char 0)") 1))]).
Proof.
  apply (unusable_manifests_are_warned_about cpython two_manifests
           [(py "good", manifest_only (Json minimal_manifest));
            (py "broken",
             manifest_only (NotJson (py "Expecting value: line 1 column 1 (char 0)") 1))]
           Sync.init).
  reflexivity.
Defined.

(** ** Documentation files that are missing or cannot be read *)

Section Documents.
Context (rt : runtime).

(** A missing [README.md] costs one warning and does not fail the sync
    check: with at least one plugin listed, the run appends [README.md not
    found] and goes on to [plugins.md], whose check alone decides the
    result. *)
Theorem missing_readme_only_warns (repo : Sync.repository) (st st1 : Sync.validator)
    (plugins : gmap (list N) Sync.plugin_info) :
  Sync.get_plugin_list rt repo st = Done plugins st1 →
  plugins ≠ ∅ →
  Sync.readme repo = None →
  let st2 := add_warnings st1 [py "README.md not found"] in
  match Sync.plugins_md repo with
  | None => Sync.validate_marketplace_sync rt repo st = Done true st2
  | Some (Sync.Text content) =>
      ∃ names,
        lists_missing (dom plugins) content names
        ∧ (is_catalog content →
           Sync.validate_marketplace_sync rt repo st
           = Done (bool_decide (names = []))
                  (add_warnings st2 (aggregated_warning (py "plugins.md") names)))
        ∧ (¬ is_catalog content →
           Sync.validate_marketplace_sync rt repo st = Done true st2)
  | Some (Sync.Undecodable e) =>
      Sync.validate_marketplace_sync rt repo st = Raised e st2
  end.
Proof.
  intros Hget Hplugins Hreadme st2.
  unfold Sync.validate_marketplace_sync.
  rewrite (bind_done _ _ _ _ _ Hget), Hreadme.
  rewrite bool_decide_eq_false_2 by done. rewrite bind_ret.
  assert ((Sync.append_warning (py "README.md not found") ;;; ret true) st1 = Done true st2)
    as Hwarn by reflexivity.
  rewrite (bind_done _ _ _ _ _ Hwarn), bind_ret.
  destruct (Sync.plugins_md repo) as [[content | e] |].
  - exists (sorted (elements (dom plugins ∖ Sync.extract_plugin_names_from_markdown content))).
    split; [apply lists_missing_sorted |]. split.
    + intros Hcat%catalog_spec.
      erewrite bind_done;
        [| unfold Sync.read; rewrite bind_ret, Hcat; apply missing_block].
      reflexivity.
    + intros Hcat. rewrite <- catalog_spec in Hcat. apply not_true_is_false in Hcat.
      erewrite bind_done;
        [| unfold Sync.read; rewrite bind_ret, Hcat; reflexivity].
      reflexivity.
  - reflexivity.
  - by rewrite bind_ret.
Qed.

(** A documentation file that exists but cannot be decoded is not caught:
    with at least one plugin listed, an undecodable [README.md] makes the
    sync check raise at once, and an undecodable [plugins.md] makes it
    raise after the [README.md] check, with the warnings appended so far
    and no error. *)
Theorem undecodable_document_raises (repo : Sync.repository) (st st1 : Sync.validator)
    (plugins : gmap (list N) Sync.plugin_info) (e : exn) :
  Sync.get_plugin_list rt repo st = Done plugins st1 →
  plugins ≠ ∅ →
  Sync.readme repo = Some (Sync.Undecodable e)
  ∨ ((∀ e', Sync.readme repo ≠ Some (Sync.Undecodable e'))
     ∧ Sync.plugins_md repo = Some (Sync.Undecodable e)) →
  ∃ st', Sync.validate_marketplace_sync rt repo st = Raised e st'
         ∧ Sync.errors st' = Sync.errors st.
Proof.
  intros Hget Hplugins Hdoc. unfold Sync.validate_marketplace_sync.
  rewrite (bind_done _ _ _ _ _ Hget).
  pose proof (get_plugin_list_done rt repo st st1 plugins Hget) as Herr.
  rewrite bool_decide_eq_false_2 by done. rewrite bind_ret.
  destruct Hdoc as [-> | (Hreadable & ->)].
  - exists st1. split; [reflexivity | done].
  - destruct (Sync.readme repo) as [[content | e'] |].
    + erewrite bind_done; [| unfold Sync.read; rewrite bind_ret; apply missing_block].
      rewrite bind_ret. eexists. split; [reflexivity | done].
    + by destruct (Hreadable e').
    + erewrite bind_done; [| reflexivity].
      rewrite bind_ret. eexists. split; [reflexivity | done].
Qed.

End Documents.

Lemma missing_readme_only_warns_witness :
  ∃ plugins st1,
    Sync.get_plugin_list cpython two_manifests Sync.init = Done plugins st1
    ∧ Sync.validate_marketplace_sync cpython two_manifests Sync.init
      = Done true (add_warnings st1 [py "README.md not found"]).
Proof.
  eexists _, _. split; [vm_compute; reflexivity |].
  eapply (missing_readme_only_warns cpython two_manifests Sync.init).
  - vm_compute. reflexivity.
  - intros Hempty. apply (f_equal (λ m, m !! py "good")) in Hempty.
    vm_compute in Hempty. discriminate.
  - reflexivity.
Defined.

Lemma undecodable_document_raises_witness :
  ∃ st',
    Sync.validate_marketplace_sync cpython
      (with_plugins_md sync_scenario
         (Some (Sync.Undecodable (Exception (py "'utf-8' codec can't decode byte 0xff")))))
      Sync.init
    = Raised (Exception (py "'utf-8' codec can't decode byte 0xff")) st'
    ∧ Sync.errors st' = Sync.errors Sync.init.
Proof.
  eapply (undecodable_document_raises cpython
            (with_plugins_md sync_scenario
               (Some (Sync.Undecodable (Exception (py "'utf-8' codec can't decode byte 0xff")))))
            Sync.init).
  - vm_compute. reflexivity.
  - intros Hempty. apply (f_equal (λ m, m !! py "foo")) in Hempty.
    vm_compute in Hempty. discriminate.
  - right. split; [intros e'; vm_compute; discriminate | reflexivity].
Defined.

(** ** Repositories without migrated plugins *)

Section Unmigrated.
Context (rt : runtime).

(** A repository without migrated plugins passes the sync check, whatever
    its documentation: when the plugins directory is missing, or when none
    of its entries has a manifest that loads as an object, the check
    returns true without reading [README.md] or [plugins.md]; all it can
    leave are the warnings about manifests that could not be read. *)
Theorem sync_passes_without_migrated_plugins (repo : Sync.repository) (st : Sync.validator) :
  (∀ c, target (Sync.plugins_dir repo) ≠ Some (File c)) →
  Forall (λ e, ¬ manifest_is_object (entry_path (Sync.plugins_dir repo) e))
    (entries_of (Sync.plugins_dir repo)) →
  ∃ ws, Sync.validate_marketplace_sync rt repo st = Done true (add_warnings st ws).
Proof.
  intros Hnofile Hnone. unfold Sync.validate_marketplace_sync, entries_of in *.
  destruct (target (Sync.plugins_dir repo)) as [[c | entries] |] eqn:Hroot.
  - by destruct (Hnofile c).
  - destruct (get_plugin_list_spec rt repo entries st Hroot) as (plugins & ws & Hget & Hdom).
    rewrite (bind_done _ _ _ _ _ Hget).
    assert (plugins = ∅) as ->.
    { apply dom_empty_iff_L, set_eq. intros n. rewrite Hdom. split; [| set_solver].
      intros (e & He & _ & Hobj). rewrite Forall_forall in Hnone.
      by destruct (Hnone e He). }
    rewrite bool_decide_eq_true_2 by done. by exists ws.
  - exists []. unfold Sync.get_plugin_list, exists_. rewrite Hroot.
    rewrite bool_decide_eq_false_2 by (by intros [? ?]). cbn [negb].
    rewrite bind_ret, bool_decide_eq_true_2 by done. by rewrite add_warnings_nil.
Qed.

End Unmigrated.

Lemma sync_passes_without_migrated_plugins_witness :
  ∃ ws,
    Sync.validate_marketplace_sync cpython
      {| Sync.plugins_dir := plugins_root [(py "bare", plugin_without_manifest)];
         Sync.readme := Some (Sync.Undecodable (Exception (py "unreadable")));
         Sync.plugins_md := None |}
      Sync.init
    = Done true (add_warnings Sync.init ws).
Proof.
  apply (sync_passes_without_migrated_plugins cpython
           {| Sync.plugins_dir := plugins_root [(py "bare", plugin_without_manifest)];
              Sync.readme := Some (Sync.Undecodable (Exception (py "unreadable")));
              Sync.plugins_md := None |}).
  - intros c. vm_compute. discriminate.
  - constructor; [| constructor]. intros [members Hm]. vm_compute in Hm. discriminate.
Defined.

(** * Further properties of the schema validator: when a run returns *)

Section RunReturns.
Context (rt : runtime).

Lemma validate_loop_returns (l : list path) (v : bool) (st : Schema.validator) :
  Forall checkable l →
  ∃ b st',
    for_in l
      (λ plugin_dir all_valid,
         ok <- Schema.validate_plugin rt plugin_dir ;;
         ret (if negb ok then false else all_valid)) v st
    = Done b st'.
Proof.
  intros Hall. revert v st. induction Hall as [|d l Hd _ IH]; intros v st.
  - simpl. by eexists _, _.
  - cbn [for_in].
    destruct (proj2 (validate_plugin_done_iff rt d st) Hd) as (ok & st1 & Hrun).
    unfold bind at 1. unfold bind at 1. rewrite Hrun. cbn [ret]. apply IH.
Qed.

(** A run returns exactly when the plugins path is not a plain file and
    the validation of every plugin directory returns: the [skills] entry
    of no plugin is a plain file, and every [*.json] entry of every
    [hooks] directory can be opened and decoded. Otherwise it raises. *)
Theorem run_returns_iff (plugins_dir : path) (st : Schema.validator) :
  (∃ b st', Schema.validate_all_plugins rt plugins_dir st = Done b st')
  ↔ (∀ c, target plugins_dir ≠ Some (File c))
    ∧ Forall checkable (plugin_dirs plugins_dir).
Proof.
  split.
  - intros (b & st' & Hrun).
    destruct (target plugins_dir) as [[c | entries] |] eqn:Hroot.
    + exfalso. revert Hrun. unfold Schema.validate_all_plugins, exists_, iterdir.
      rewrite Hroot. by rewrite bool_decide_eq_true_2 by eauto.
    + split; [done |].
      destruct (validate_all_plugins_report rt plugins_dir entries st st' b Hroot Hrun)
        as (dirs & Hperm & _ & _ & _ & _ & Hall).
      rewrite <- Hperm. eapply Forall_impl; [exact Hall |].
      intros d Hd. by apply (validate_plugin_done_iff rt d Schema.init).
    + split; [done |]. unfold plugin_dirs. by rewrite Hroot.
  - intros [Hnofile Hall]. unfold plugin_dirs in Hall.
    unfold Schema.validate_all_plugins, exists_, iterdir.
    destruct (target plugins_dir) as [[c | entries] |] eqn:Hroot.
    + by destruct (Hnofile c).
    + rewrite bool_decide_eq_true_2 by eauto. cbn [negb]. rewrite bind_ret.
      case_bool_decide; [by eexists _, _ |].
      apply validate_loop_returns.
      unfold Schema.sorted_paths. by rewrite merge_sort_Permutation.
    + rewrite bool_decide_eq_false_2 by (by intros [? ?]). by eexists _, _.
Qed.

End RunReturns.
